(** * pr-view: a shallow embedding of [main.go] and its specification

    The program keeps a list of GitHub repository references in a JSON
    file ([RepoStore]), fetches the open pull requests of every stored
    reference ([fetchPRs], fanned out by [cmdList]) and prints them as a
    table ([printTable], [truncate]).

    Go strings are byte sequences: they are modelled by [string], one
    [ascii] per byte.  Runes are code points in [Z]. *)

From Stdlib Require Import ZArith Lia List Bool Ascii String.
From Stdlib Require Import Permutation.
Import ListNotations.

Open Scope string_scope.
Open Scope Z_scope.

(** ** Bytes *)

(** The numeric value of a byte. *)
Definition ord (c : ascii) : Z := Z.of_N (N_of_ascii c).

(** Go's conversion [byte(x)]: the low eight bits. *)
Definition chr (z : Z) : ascii := ascii_of_N (Z.to_N (z mod 256)).

(** [s[n:]] for [0 <= n <= len(s)] *)
Fixpoint drop (n : nat) (s : string) : string :=
  match n, s with
  | O, _ => s
  | S n', String _ s' => drop n' s'
  | S _, EmptyString => EmptyString
  end.

(** [s[:n]] for [0 <= n <= len(s)] *)
Fixpoint take (n : nat) (s : string) : string :=
  match n, s with
  | O, _ => EmptyString
  | S n', String c s' => String c (take n' s')
  | S _, EmptyString => EmptyString
  end.

(** The bytes of a string in reverse order; the loops of the Go library
    that walk a string from its end are written over [rev s]. *)
Fixpoint rev_onto (s acc : string) : string :=
  match s with
  | EmptyString => acc
  | String c s' => rev_onto s' (String c acc)
  end.

Definition rev (s : string) : string := rev_onto s EmptyString.

(** ** Package unicode/utf8 *)

Module utf8.

Definition RuneError : Z := 0xFFFD.
Definition RuneSelf : Z := 0x80.
Definition MaxRune : Z := 0x10FFFF.
Definition surrogateMin : Z := 0xD800.
Definition surrogateMax : Z := 0xDFFF.

Definition t2 : Z := 0xC0.
Definition t3 : Z := 0xE0.
Definition t4 : Z := 0xF0.
Definition tx : Z := 0x80.
Definition maskx : Z := 0x3F.
Definition mask2 : Z := 0x1F.
Definition mask3 : Z := 0x0F.
Definition mask4 : Z := 0x07.

(** A continuation byte accepted in the range [lo..hi]. *)
Definition inRange (lo hi b : Z) : bool := (lo <=? b) && (b <=? hi).

(** The range accepted for the second byte, by first byte (the table
    [first] with [acceptRanges]); [None] for a byte that starts no
    multi-byte sequence. *)
Definition accept (b0 : Z) : option (nat * Z * Z) :=
  if inRange 0xC2 0xDF b0 then Some (2%nat, 0x80, 0xBF)
  else if b0 =? 0xE0 then Some (3%nat, 0xA0, 0xBF)
  else if inRange 0xE1 0xEC b0 then Some (3%nat, 0x80, 0xBF)
  else if b0 =? 0xED then Some (3%nat, 0x80, 0x9F)
  else if inRange 0xEE 0xEF b0 then Some (3%nat, 0x80, 0xBF)
  else if b0 =? 0xF0 then Some (4%nat, 0x90, 0xBF)
  else if inRange 0xF1 0xF3 b0 then Some (4%nat, 0x80, 0xBF)
  else if b0 =? 0xF4 then Some (4%nat, 0x80, 0x8F)
  else None.

(** [utf8.DecodeRuneInString]: the first rune of [s] and its width in
    bytes; [(RuneError, 0)] for the empty string and [(RuneError, 1)] for
    an encoding that is invalid or cut short. *)
Definition DecodeRuneInString (s : string) : Z * nat :=
  match s with
  | EmptyString => (RuneError, 0%nat)
  | String c0 s1 =>
    let b0 := ord c0 in
    if b0 <? RuneSelf then (b0, 1%nat)
    else
      match accept b0 with
      | None => (RuneError, 1%nat)
      | Some (sz, lo, hi) =>
        match s1 with
        | EmptyString => (RuneError, 1%nat)
        | String c1 s2 =>
          let b1 := ord c1 in
          if negb (inRange lo hi b1) then (RuneError, 1%nat)
          else if Nat.leb sz 2 then
            (Z.lor (Z.shiftl (Z.land b0 mask2) 6) (Z.land b1 maskx), 2%nat)
          else
            match s2 with
            | EmptyString => (RuneError, 1%nat)
            | String c2 s3 =>
              let b2 := ord c2 in
              if negb (inRange 0x80 0xBF b2) then (RuneError, 1%nat)
              else if Nat.leb sz 3 then
                (Z.lor (Z.lor (Z.shiftl (Z.land b0 mask3) 12)
                              (Z.shiftl (Z.land b1 maskx) 6))
                       (Z.land b2 maskx), 3%nat)
              else
                match s3 with
                | EmptyString => (RuneError, 1%nat)
                | String c3 _ =>
                  let b3 := ord c3 in
                  if negb (inRange 0x80 0xBF b3) then (RuneError, 1%nat)
                  else
                    (Z.lor (Z.lor (Z.lor (Z.shiftl (Z.land b0 mask4) 18)
                                         (Z.shiftl (Z.land b1 maskx) 12))
                                  (Z.shiftl (Z.land b2 maskx) 6))
                           (Z.land b3 maskx), 4%nat)
                end
            end
        end
      end
  end.

(** [utf8.RuneStart]: not a continuation byte. *)
Definition RuneStart (b : Z) : bool := negb (Z.land b 0xC0 =? 0x80).

(** [utf8.DecodeLastRuneInString], over the reversed string [r = rev s]:
    the last rune of [s] and its width.  The scan goes back over at most
    [UTFMax = 4] bytes to the nearest rune start, decodes forward from
    there, and answers [(RuneError, 1)] unless that rune ends exactly at
    the end of [s]. *)
Definition DecodeLastRuneInString (r : string) : Z * nat :=
  match r with
  | EmptyString => (RuneError, 0%nat)
  | String c t =>
    if ord c <? RuneSelf then (ord c, 1%nat)
    else
      let back : nat :=
        match t with
        | EmptyString => 1%nat
        | String c1 t1 =>
          if RuneStart (ord c1) then 2%nat
          else match t1 with
               | EmptyString => 2%nat
               | String c2 t2 =>
                 if RuneStart (ord c2) then 3%nat
                 else match t2 with
                      | EmptyString => 3%nat
                      | String c3 t3 =>
                        if RuneStart (ord c3) then 4%nat
                        else match t3 with
                             | EmptyString => 4%nat
                             | String _ _ => 5%nat
                             end
                      end
               end
        end in
      let '(x, size) := DecodeRuneInString (rev (take back r)) in
      if Nat.eqb size back then (x, size) else (RuneError, 1%nat)
  end.

(** The conversion [[]rune(s)]: the runes of [s], one [RuneError] per
    invalid byte. *)
Fixpoint runes (s : string) : list Z :=
  match s with
  | EmptyString => []
  | String _ s1 =>
    let '(r, n) := DecodeRuneInString s in
    r :: match n with
         | 2%nat => match s1 with
                    | String _ s2 => runes s2
                    | _ => []
                    end
         | 3%nat => match s1 with
                    | String _ (String _ s3) => runes s3
                    | _ => []
                    end
         | 4%nat => match s1 with
                    | String _ (String _ (String _ s4)) => runes s4
                    | _ => []
                    end
         | _ => runes s1
         end
  end.

(** [utf8.ValidRune] *)
Definition ValidRune (r : Z) : bool :=
  ((0 <=? r) && (r <? surrogateMin)) || ((surrogateMax <? r) && (r <=? MaxRune)).

(** [utf8.AppendRune] on an empty buffer, which is also the conversion
    [string(r)] of one rune: an invalid rune is written as [RuneError]. *)
Definition EncodeRune (r : Z) : string :=
  let r := if ValidRune r then r else RuneError in
  if r <=? 0x7F then String (chr r) EmptyString
  else if r <=? 0x7FF then
    String (chr (Z.lor t2 (Z.shiftr r 6)))
   (String (chr (Z.lor tx (Z.land r maskx))) EmptyString)
  else if r <=? 0xFFFF then
    String (chr (Z.lor t3 (Z.shiftr r 12)))
   (String (chr (Z.lor tx (Z.land (Z.shiftr r 6) maskx)))
   (String (chr (Z.lor tx (Z.land r maskx))) EmptyString))
  else
    String (chr (Z.lor t4 (Z.shiftr r 18)))
   (String (chr (Z.lor tx (Z.land (Z.shiftr r 12) maskx)))
   (String (chr (Z.lor tx (Z.land (Z.shiftr r 6) maskx)))
   (String (chr (Z.lor tx (Z.land r maskx))) EmptyString))).

(** The conversion [string(rs)] of a rune slice. *)
Fixpoint encode (rs : list Z) : string :=
  match rs with
  | [] => EmptyString
  | r :: rs' => EncodeRune r ++ encode rs'
  end.

End utf8.

(** ** Renderer: [truncate] *)

(** [truncate(s, max)], rune-safe: at most [max] runes of [s], the last
    three replaced by dots when something was cut. *)
Definition truncate (s : string) (max : Z) : string :=
  if max <=? 0 then ""
  else
    let rs := utf8.runes s in
    if Z.of_nat (List.length rs) <=? max then s
    else if max <=? 3 then utf8.encode (firstn (Z.to_nat max) rs)
    else utf8.encode (firstn (Z.to_nat (max - 3)) rs) ++ "...".

(** ** Package strings *)

Module strings.

(** [strings.HasPrefix] *)
Definition HasPrefix (s p : string) : bool := String.prefix p s.

(** [strings.HasSuffix] *)
Definition HasSuffix (s p : string) : bool := String.prefix (rev p) (rev s).

(** [strings.Index]: the byte offset of the first occurrence of [sub]. *)
Fixpoint Index (s sub : string) : option nat :=
  if String.prefix sub s then Some 0%nat
  else match s with
       | EmptyString => None
       | String _ s' => option_map S (Index s' sub)
       end.

(** [strings.LastIndex] for a one-byte [sub], the only use made of it. *)
Definition LastIndexByte (s : string) (c : ascii) : option nat :=
  match Index (rev s) (String c EmptyString) with
  | Some j => Some (String.length s - 1 - j)%nat
  | None => None
  end.

(** [strings.Contains] *)
Definition Contains (s sub : string) : bool :=
  match Index s sub with Some _ => true | None => false end.

(** [strings.Count] for a one-byte [sub]. *)
Fixpoint CountByte (s : string) (c : ascii) : nat :=
  match s with
  | EmptyString => 0%nat
  | String d s' => ((if Ascii.eqb d c then 1 else 0) + CountByte s' c)%nat
  end.

(** [strings.Cut]: the text before and after the first [sep], and whether
    [sep] was found. *)
Definition Cut (s sep : string) : string * string * bool :=
  match Index s sep with
  | Some i => (take i s, drop (i + String.length sep) s, true)
  | None => (s, EmptyString, false)
  end.

(** [strings.SplitN(s, sep, 2)] for a non-empty [sep]: split at the first
    occurrence only. *)
Definition SplitN2 (s sep : string) : list string :=
  match Index s sep with
  | Some i => [take i s; drop (i + String.length sep) s]
  | None => [s]
  end.

(** [strings.Split] for a one-byte separator: every occurrence splits, so
    the result has one more element than there are separators. *)
Fixpoint SplitByte (s : string) (sep : ascii) : list string :=
  match s with
  | EmptyString => [EmptyString]
  | String c s' =>
    if Ascii.eqb c sep then EmptyString :: SplitByte s' sep
    else match SplitByte s' sep with
         | h :: t => String c h :: t
         | [] => [String c EmptyString]
         end
  end.

(** [strings.TrimLeft] and [strings.TrimRight] for a one-byte cutset. *)
Fixpoint TrimLeftByte (s : string) (c : ascii) : string :=
  match s with
  | String d s' => if Ascii.eqb d c then TrimLeftByte s' c else s
  | EmptyString => EmptyString
  end.

Definition TrimRightByte (s : string) (c : ascii) : string :=
  rev (TrimLeftByte (rev s) c).

(** [strings.Trim] for a one-byte cutset. *)
Definition TrimByte (s : string) (c : ascii) : string :=
  TrimLeftByte (TrimRightByte s c) c.

(** [unicode.IsSpace]: the Latin-1 spaces and the White_Space table. *)
Definition IsSpace (r : Z) : bool :=
  if r <=? 0xFF then
    (r =? 9) || (r =? 10) || (r =? 11) || (r =? 12) || (r =? 13)
    || (r =? 0x20) || (r =? 0x85) || (r =? 0xA0)
  else
    (r =? 0x1680) || ((0x2000 <=? r) && (r <=? 0x200A))
    || (r =? 0x2028) || (r =? 0x2029) || (r =? 0x202F)
    || (r =? 0x205F) || (r =? 0x3000).

(** The loop of [indexFunc(s, f, false)] under [TrimLeftFunc]: skip the
    leading runes that satisfy [f]; the empty string when all do. *)
Fixpoint TrimLeftFunc (f : Z -> bool) (s : string) : string :=
  match s with
  | EmptyString => EmptyString
  | String _ s1 =>
    let '(r, n) := utf8.DecodeRuneInString s in
    if f r then
      match n with
      | 2%nat => match s1 with
                 | String _ s2 => TrimLeftFunc f s2
                 | _ => EmptyString
                 end
      | 3%nat => match s1 with
                 | String _ (String _ s3) => TrimLeftFunc f s3
                 | _ => EmptyString
                 end
      | 4%nat => match s1 with
                 | String _ (String _ (String _ s4)) => TrimLeftFunc f s4
                 | _ => EmptyString
                 end
      | _ => TrimLeftFunc f s1
      end
    else s
  end.

(** [TrimRightFunc(s, f)] over [r = rev s], with [acc] the part of [s]
    already passed.  [lastIndexFunc] steps back with
    [DecodeLastRuneInString] while [f] holds; at the first rune that fails
    [f], at offset [i], the result is [s[:i+wid]] where [wid] is 1 for an
    ASCII byte and the width of the rune decoded forward at [i]
    otherwise. *)
Fixpoint trimRightLoop (f : Z -> bool) (r acc : string) : string :=
  match r with
  | EmptyString => EmptyString
  | String c r1 =>
    let '(x, size) := utf8.DecodeLastRuneInString r in
    if f x then
      match size with
      | 2%nat => match r1 with
                 | String c1 r2 =>
                   trimRightLoop f r2 (String c1 (String c acc))
                 | _ => EmptyString
                 end
      | 3%nat => match r1 with
                 | String c1 (String c2 r3) =>
                   trimRightLoop f r3 (String c2 (String c1 (String c acc)))
                 | _ => EmptyString
                 end
      | 4%nat => match r1 with
                 | String c1 (String c2 (String c3 r4)) =>
                   trimRightLoop f r4
                     (String c3 (String c2 (String c1 (String c acc))))
                 | _ => EmptyString
                 end
      | _ => trimRightLoop f r1 (String c acc)
      end
    else
      let tail := rev (take size r) ++ acc in
      let wid :=
        match tail with
        | String d _ =>
          if utf8.RuneSelf <=? ord d
          then snd (utf8.DecodeRuneInString tail) else 1%nat
        | EmptyString => 1%nat
        end in
      rev (drop size r) ++ take wid tail
  end.

Definition TrimRightFunc (f : Z -> bool) (s : string) : string :=
  trimRightLoop f (rev s) EmptyString.

(** [strings.TrimSpace].  The library first strips ASCII spaces byte by
    byte and falls back to [TrimFunc(s, unicode.IsSpace)] at the first
    non-ASCII byte; both paths compute the trim below. *)
Definition TrimSpace (s : string) : string :=
  TrimRightFunc IsSpace (TrimLeftFunc IsSpace s).

Section Fold.

(** The Unicode case tables are data of the Go library.  [foldOrbit sr tr]
    stands for the general case of [strings.EqualFold] on two distinct
    runes [sr < tr] with [tr] not ASCII: whether stepping with
    [unicode.SimpleFold] from [sr] reaches [tr]. *)
Variable foldOrbit : Z -> Z -> bool.

(** One step of the comparison loop of [strings.EqualFold]. *)
Definition foldRune (sr tr : Z) : bool :=
  if tr =? sr then true
  else
    let lo := Z.min sr tr in
    let hi := Z.max sr tr in
    if hi <? utf8.RuneSelf then
      (65 <=? lo) && (lo <=? 90) && (hi =? lo + 32)
    else foldOrbit lo hi.

(** The [hasUnicode] part of [strings.EqualFold]: the runes of [s]
    against [t], which is decoded one rune at a time. *)
Fixpoint foldTail (srs : list Z) (t : string) : bool :=
  match srs with
  | [] => match t with EmptyString => true | _ => false end
  | sr :: srs' =>
    match t with
    | EmptyString => false
    | String d _ =>
      let '(tr, size) :=
        if ord d <? utf8.RuneSelf then (ord d, 1%nat)
        else utf8.DecodeRuneInString t in
      if foldRune sr tr then foldTail srs' (drop size t) else false
    end
  end.

(** [strings.EqualFold]: equality under simple Unicode case folding;
    bytes are compared directly while both strings are ASCII. *)
Fixpoint EqualFold (s t : string) : bool :=
  match s, t with
  | String c s', String d t' =>
    if utf8.RuneSelf <=? Z.lor (ord c) (ord d) then foldTail (utf8.runes s) t
    else if foldRune (ord c) (ord d) then EqualFold s' t'
    else false
  | EmptyString, EmptyString => true
  | _, _ => false
  end.

End Fold.

End strings.

(** ** Package strconv *)

Module strconv.

(** The width of [int]; the program is built for 64-bit targets. *)
Definition intSize : Z := 64.

Definition isDigit (c : ascii) : bool := (48 <=? ord c) && (ord c <=? 57).

(** The value of a run of decimal digits, [None] at any other byte. *)
Fixpoint digits (s : string) (acc : Z) : option Z :=
  match s with
  | EmptyString => Some acc
  | String c s' =>
    if isDigit c then digits s' (acc * 10 + (ord c - 48)) else None
  end.

(** [strconv.Atoi], with [None] for an error: an optional sign, at least
    one digit, nothing else, and a value that fits [int]. *)
Definition Atoi (s : string) : option Z :=
  let '(neg, body) :=
    match s with
    | String "-"%char s' => (true, s')
    | String "+"%char s' => (false, s')
    | _ => (false, s)
    end in
  match body with
  | EmptyString => None
  | _ =>
    match digits body 0 with
    | None => None
    | Some un =>
      let n := if neg then - un else un in
      if (- 2 ^ (intSize - 1) <=? n) && (n <=? 2 ^ (intSize - 1) - 1)
      then Some n else None
    end
  end.

(** The digits of a positive number, least significant first in [acc]. *)
Fixpoint posDigits (fuel : nat) (n : Z) (acc : string) : string :=
  match fuel with
  | O => acc
  | S fuel' =>
    let acc' := String (chr (48 + n mod 10)) acc in
    if n <? 10 then acc' else posDigits fuel' (n / 10) acc'
  end.

(** The verb [%d] of [fmt.Sprintf] on an [int]: decimal, with a minus
    sign for a negative number.  An [int] has at most 19 digits. *)
Definition Itoa (n : Z) : string :=
  if n <? 0 then String "-"%char (posDigits 20 (- n) EmptyString)
  else posDigits 20 n EmptyString.

End strconv.

(** ** Package net/url

    [url.Parse] as far as the program observes it: whether it fails, and
    the fields of the URL it answers. *)

Module url.

Record URL : Type := mkURL {
  Scheme : string;
  Opaque : string;
  Host : string;
  Path : string;
  ForceQuery : bool;
  RawQuery : string;
  Fragment : string
}.

(** The escaping contexts used by [Parse]. *)
Inductive encoding : Type :=
| encodePath
| encodeHost
| encodeZone
| encodeUserPassword
| encodeFragment.

Definition isAlpha (b : Z) : bool :=
  ((97 <=? b) && (b <=? 122)) || ((65 <=? b) && (b <=? 90)).

Definition isNum (b : Z) : bool := (48 <=? b) && (b <=? 57).

Definition ishex (b : Z) : bool :=
  isNum b || ((97 <=? b) && (b <=? 102)) || ((65 <=? b) && (b <=? 70)).

Definition unhex (b : Z) : Z :=
  if isNum b then b - 48
  else if (97 <=? b) && (b <=? 102) then b - 97 + 10
  else if (65 <=? b) && (b <=? 70) then b - 65 + 10
  else 0.

Definition oneOf (b : Z) (set : string) : bool :=
  existsb (fun c => ord c =? b) (list_ascii_of_string set).

(** [shouldEscape(c, encodeHost)]: the bytes a host may not hold as they
    are. *)
Definition shouldEscapeHost (b : Z) : bool :=
  if isAlpha b || isNum b then false
  else if oneOf b "!$&'()*+,;=:[]<>" || (b =? 34) then false
  else if oneOf b "-_.~" then false
  else true.

(** [stringContainsCTLByte] *)
Definition stringContainsCTLByte (s : string) : bool :=
  existsb (fun c => (ord c <? 32) || (ord c =? 127)) (list_ascii_of_string s).

(** The first pass of [unescape]: [false] when it answers an error. *)
Fixpoint unescapeCheck (mode : encoding) (s : string) : bool :=
  match s with
  | EmptyString => true
  | String c s1 =>
    if ord c =? 37 then
      match s1 with
      | String h1 (String h2 s3) =>
        if negb (ishex (ord h1) && ishex (ord h2)) then false
        else
          let is25 := (ord h1 =? 50) && (ord h2 =? 53) in
          let v := Z.lor (Z.shiftl (unhex (ord h1)) 4) (unhex (ord h2)) in
          match mode with
          | encodeHost =>
            if (unhex (ord h1) <? 8) && negb is25 then false
            else unescapeCheck mode s3
          | encodeZone =>
            if negb is25 && negb (v =? 32) && shouldEscapeHost v then false
            else unescapeCheck mode s3
          | _ => unescapeCheck mode s3
          end
      | _ => false
      end
    else if ord c =? 43 then unescapeCheck mode s1
    else
      match mode with
      | encodeHost | encodeZone =>
        if (ord c <? 128) && shouldEscapeHost (ord c) then false
        else unescapeCheck mode s1
      | _ => unescapeCheck mode s1
      end
  end.

(** The second pass of [unescape]: every [%XX] becomes its byte.  None of
    the contexts of [Parse] turns [+] into a space. *)
Fixpoint unescapeBytes (s : string) : string :=
  match s with
  | EmptyString => EmptyString
  | String c s1 =>
    if ord c =? 37 then
      match s1 with
      | String h1 (String h2 s3) =>
        String (chr (Z.lor (Z.shiftl (unhex (ord h1)) 4) (unhex (ord h2))))
               (unescapeBytes s3)
      | _ => String c (unescapeBytes s1)
      end
    else String c (unescapeBytes s1)
  end.

(** [unescape(s, mode)], [None] for an error. *)
Definition unescape (s : string) (mode : encoding) : option string :=
  if unescapeCheck mode s then Some (unescapeBytes s) else None.

(** The result of [getScheme]. *)
Inductive schemeScan : Type :=
| NoScheme                 (* no scheme: the whole text is the rest *)
| MissingScheme            (* error: a colon at offset 0 *)
| SchemeAt (i : nat).      (* the scheme is [s[:i]], the rest [s[i+1:]] *)

Fixpoint getSchemeLoop (i : nat) (s : string) : schemeScan :=
  match s with
  | EmptyString => NoScheme
  | String c s' =>
    let b := ord c in
    if isAlpha b then getSchemeLoop (S i) s'
    else if isNum b || oneOf b "+-." then
      match i with
      | O => NoScheme
      | S _ => getSchemeLoop (S i) s'
      end
    else if b =? 58 then
      match i with
      | O => MissingScheme
      | S _ => SchemeAt i
      end
    else NoScheme
  end.

(** [getScheme]: the scheme and the rest, [None] for an error. *)
Definition getScheme (rawURL : string) : option (string * string) :=
  match getSchemeLoop 0 rawURL with
  | NoScheme => Some (EmptyString, rawURL)
  | MissingScheme => None
  | SchemeAt i => Some (take i rawURL, drop (S i) rawURL)
  end.

(** [validOptionalPort] *)
Definition validOptionalPort (port : string) : bool :=
  match port with
  | EmptyString => true
  | String c digits =>
    (ord c =? 58)
    && forallb (fun d => isNum (ord d)) (list_ascii_of_string digits)
  end.

(** [validUserinfo]: every rune is a letter, a digit or one of a few
    marks; any byte outside ASCII decodes to a rune that is none of
    them. *)
Definition validUserinfo (s : string) : bool :=
  forallb (fun c => let b := ord c in
                    isAlpha b || isNum b || oneOf b "-._:~!$&'()*+,;=%@")
          (list_ascii_of_string s).

(** [parseHost], [false] for an error (the host itself is not used). *)
Definition parseHost (host : string) : bool :=
  let plain := unescapeCheck encodeHost host in
  if strings.HasPrefix host "[" then
    match strings.LastIndexByte host "]"%char with
    | None => false
    | Some i =>
      if negb (validOptionalPort (drop (S i) host)) then false
      else
        match strings.Index (take i host) "%25" with
        | Some zone =>
          unescapeCheck encodeHost (take zone host)
          && unescapeCheck encodeZone (take (i - zone) (drop zone host))
          && unescapeCheck encodeHost (drop i host)
        | None => plain
        end
    end
  else
    match strings.LastIndexByte host ":"%char with
    | Some i => if negb (validOptionalPort (drop i host)) then false else plain
    | None => plain
    end.

(** [parseAuthority], [false] for an error. *)
Definition parseAuthority (authority : string) : bool :=
  match strings.LastIndexByte authority "@"%char with
  | None => parseHost authority
  | Some i =>
    if negb (parseHost (drop (S i) authority)) then false
    else
      let userinfo := take i authority in
      if negb (validUserinfo userinfo) then false
      else if negb (strings.Contains userinfo ":") then
        unescapeCheck encodeUserPassword userinfo
      else
        let '(username, password, _) := strings.Cut userinfo ":" in
        unescapeCheck encodeUserPassword username
        && unescapeCheck encodeUserPassword password
  end.

(** The part of the authority that is the host: what follows the last
    [@]. *)
Definition hostOf (authority : string) : string :=
  match strings.LastIndexByte authority "@"%char with
  | None => authority
  | Some i => drop (S i) authority
  end.

(** ASCII lower case, as [strings.ToLower] acts on a scheme. *)
Definition lower (s : string) : string :=
  string_of_list_ascii
    (map (fun c => if (65 <=? ord c) && (ord c <=? 90) then chr (ord c + 32) else c)
         (list_ascii_of_string s)).

(** [parse(rawURL, false)]: a URL without fragment. *)
Definition parse (rawURL : string) : option URL :=
  if stringContainsCTLByte rawURL then None
  else if String.eqb rawURL "*" then
    Some (mkURL "" "" "" "*" false "" "")
  else
    match getScheme rawURL with
    | None => None
    | Some (scheme0, rest0) =>
      let scheme := lower scheme0 in
      let hasScheme := negb (String.eqb scheme "") in
      let '(rest, force, query) :=
        if strings.HasSuffix rest0 "?"
           && Nat.eqb (strings.CountByte rest0 "?"%char) 1
        then (take (String.length rest0 - 1) rest0, true, EmptyString)
        else let '(before, after, _) := strings.Cut rest0 "?" in
             (before, false, after) in
      if negb (strings.HasPrefix rest "/") && hasScheme then
        (* a rootless path is opaque *)
        Some (mkURL scheme rest "" "" force query "")
      else if negb (strings.HasPrefix rest "/")
              && strings.Contains (fst (fst (strings.Cut rest "/"))) ":" then
        (* first path segment in URL cannot contain colon *)
        None
      else if (hasScheme || negb (strings.HasPrefix rest "///"))
              && strings.HasPrefix rest "//" then
        let authority0 := drop 2 rest in
        let '(authority, rest') :=
          match strings.Index authority0 "/" with
          | Some i => (take i authority0, drop i authority0)
          | None => (authority0, EmptyString)
          end in
        if negb (parseAuthority authority) then None
        else
          match unescape rest' encodePath with
          | None => None
          | Some p =>
            Some (mkURL scheme "" (unescapeBytes (hostOf authority)) p
                        force query "")
          end
      else
        match unescape rest encodePath with
        | None => None
        | Some p => Some (mkURL scheme "" "" p force query "")
        end
    end.

(** [url.Parse]: the fragment is cut off at the first [#], the rest is
    parsed, and the fragment is unescaped.  [None] for an error. *)
Definition Parse (rawURL : string) : option URL :=
  let '(u, frag, _) := strings.Cut rawURL "#" in
  match parse u with
  | None => None
  | Some url =>
    match frag with
    | EmptyString => Some url
    | _ =>
      match unescape frag encodeFragment with
      | None => None
      | Some f =>
        Some (mkURL (Scheme url) (Opaque url) (Host url) (Path url)
                    (ForceQuery url) (RawQuery url) f)
      end
    end
  end.

End url.

(** ** Errors *)

(** The errors of the program, one constructor per [fmt.Errorf] of
    [main.go]; [ErrLib] carries the text of an error answered by a library
    call ([os], [encoding/json], [net/http]). *)
Inductive error : Type :=
| ErrEmptyRepo
| ErrInvalidFormat
| ErrInvalidNumber (numStr : string)
| ErrOwnerRepo
| ErrExists
| ErrNotFound
| ErrInvalidRepo (repo : string)
| ErrAPI (status body : string)
| ErrLib (msg : string).

(** [err.Error()] *)
Definition Error (e : error) : string :=
  match e with
  | ErrEmptyRepo => "empty repo"
  | ErrInvalidFormat => "invalid format, expected owner/repo or owner/repo#number"
  | ErrInvalidNumber numStr => "invalid pull request number: " ++ numStr
  | ErrOwnerRepo => "repo must be in owner/repo format"
  | ErrExists => "repo already exists"
  | ErrNotFound => "repo not found"
  | ErrInvalidRepo repo => "invalid repo: " ++ repo
  | ErrAPI status body => "github API error: " ++ status ++ ": " ++ body
  | ErrLib msg => msg
  end.

(** A Go result [(value, error)]. *)
Inductive result (A : Type) : Type :=
| Ok (a : A)
| Failed (e : error).

Arguments Ok {A} a.
Arguments Failed {A} e.

(** ** Store *)

(** The file at [s.path], by what [os.Open] and the JSON decoder make of
    it. *)
Inductive File : Type :=
| Absent                        (* [os.Open] fails and [os.IsNotExist] holds *)
| Unreadable (msg : string)     (* [os.Open] fails otherwise *)
| Blank                         (* no JSON value before the end of the file:
                                   [Decode] answers [io.EOF] *)
| Malformed (msg : string)      (* [Decode] answers another error: a syntax
                                   error, an unexpected end, a wrong type *)
| Array (repos : list string).  (* the content decodes to this [[]string] *)

(** The disk under the store: the file, and the error [os.OpenFile]
    answers when the file cannot be opened for writing. *)
Record Disk : Type := mkDisk {
  file : File;
  writeError : option string
}.

(** What [encoding/json] makes of a string on the way to the file and
    back: every byte that is not part of a valid UTF-8 sequence is
    written as U+FFFD. *)
Definition toValidUTF8 (s : string) : string := utf8.encode (utf8.runes s).

(** [RepoStore.Load] *)
Definition Load (d : Disk) : result (list string) :=
  match file d with
  | Absent => Ok []
  | Unreadable msg => Failed (ErrLib msg)
  | Blank => Ok []
  | Malformed msg => Failed (ErrLib msg)
  | Array repos => Ok repos
  end.

(** [RepoStore.Save]: the new disk and the error answered.  The file is
    opened for writing, truncated, and the list is encoded into it; what it
    then decodes to is the list, up to [toValidUTF8]. *)
Definition Save (repos : list string) (d : Disk) : Disk * option error :=
  match writeError d with
  | Some msg => (d, Some (ErrLib msg))
  | None => (mkDisk (Array (map toValidUTF8 repos)) None, None)
  end.

(** The test that opens the normalization of [Add]. *)
Definition looksLikeURL (repo : string) : bool :=
  strings.Contains repo "github.com/"
  || strings.HasPrefix repo "http://"
  || strings.HasPrefix repo "https://".

(** Lines 72-86 of [Add]: a GitHub URL becomes [owner/repo] or
    [owner/repo#number]. *)
Definition normalize (repo : string) : string :=
  if looksLikeURL repo then
    match url.Parse repo with
    | Some u =>
      let path := strings.TrimByte (url.Path u) "/"%char in
      let parts := strings.SplitByte path "/"%char in
      if Nat.leb 4 (List.length parts) && String.eqb (nth 2 parts "") "pull" then
        match strconv.Atoi (nth 3 parts "") with
        | Some _ => nth 0 parts "" ++ "/" ++ nth 1 parts "" ++ "#" ++ nth 3 parts ""
        | None => repo
        end
      else if Nat.leb 2 (List.length parts) then
        nth 0 parts "" ++ "/" ++ nth 1 parts ""
      else repo
    | None => repo
    end
  else repo.

(** Lines 88-102 of [Add]: the checks on [owner/repo] and
    [owner/repo#number]; [None] when they pass. *)
Definition validate (repo : string) : option error :=
  if strings.Contains repo "#" then
    let parts := strings.SplitN2 repo "#" in
    let repoPart := strings.TrimSpace (nth 0 parts "") in
    let numStr := strings.TrimSpace (nth 1 parts "") in
    if String.eqb repoPart "" || String.eqb numStr "" then Some ErrInvalidFormat
    else
      match strconv.Atoi numStr with
      | None => Some (ErrInvalidNumber numStr)
      | Some _ =>
        if negb (strings.Contains repoPart "/") then Some ErrOwnerRepo else None
      end
  else if negb (strings.Contains repo "/") then Some ErrOwnerRepo
  else None.

(** The index of the first element that satisfies [p]. *)
Fixpoint indexWhere {A : Type} (p : A -> bool) (l : list A) : option nat :=
  match l with
  | [] => None
  | x :: l' => if p x then Some 0%nat else option_map S (indexWhere p l')
  end.

Section Store.

Variable foldOrbit : Z -> Z -> bool.

Definition EqualFold : string -> string -> bool := strings.EqualFold foldOrbit.

(** [RepoStore.Add] *)
Definition Add (repo : string) (d : Disk) : Disk * option error :=
  let repo := strings.TrimSpace repo in
  if String.eqb repo "" then (d, Some ErrEmptyRepo)
  else
    let repo := normalize repo in
    match validate repo with
    | Some e => (d, Some e)
    | None =>
      match Load d with
      | Failed e => (d, Some e)
      | Ok repos =>
        if existsb (fun r => EqualFold r repo) repos then (d, Some ErrExists)
        else Save (repos ++ [repo]) d
      end
    end.

(** [RepoStore.Remove] *)
Definition Remove (repo : string) (d : Disk) : Disk * option error :=
  let repo := strings.TrimSpace repo in
  if String.eqb repo "" then (d, Some ErrEmptyRepo)
  else
    match Load d with
    | Failed e => (d, Some e)
    | Ok repos =>
      match indexWhere (fun r => EqualFold r repo || String.eqb r repo) repos with
      | None => (d, Some ErrNotFound)
      | Some idx => Save (firstn idx repos ++ skipn (S idx) repos) d
      end
    end.

End Store.

(** A case table without any orbit outside ASCII: enough to run the model
    on ASCII text, where [strings.EqualFold] never reaches the general
    case. *)
Definition asciiFold : Z -> Z -> bool := fun _ _ => false.

(** ** Fetcher *)

Record User : Type := mkUser { Login : string }.

Record PullRequest : Type := mkPullRequest {
  Number : Z;
  Title : string;
  HTMLURL : string;
  PRUser : User;
  CreatedAt : string
}.

Record PRResult : Type := mkPRResult {
  Repo : string;
  PRs : list PullRequest;
  Err : option error
}.

(** The request [fetchPRs] sends: the URL and the two headers it sets. *)
Record Request : Type := mkRequest {
  Method : string;
  URL : string;
  Accept : string;
  Authorization : option string
}.

Record Response : Type := mkResponse {
  StatusCode : Z;
  Status : string;
  Body : string
}.

(** A call either returns or panics. *)
Inductive outcome (A : Type) : Type :=
| Returns (a : A)
| Panics.

Arguments Returns {A} a.
Arguments Panics {A}.

(** [http.NewRequest(method, url, nil)] for a valid method: [None] when
    the URL does not parse (the request answered is then [nil]). *)
Definition NewRequest (method rawurl : string) : option Request :=
  match url.Parse rawurl with
  | Some _ => Some (mkRequest method rawurl "" None)
  | None => None
  end.

Section Fetcher.

(** The remote side: what [client.Do] answers to a request (the same
    answer whenever the request is repeated within a run), and what the
    JSON decoder makes of a response body as one [PullRequest] and as a
    [[]PullRequest]. *)
Variable Do : Request -> result Response.
Variable decodePR : string -> result PullRequest.
Variable decodePRs : string -> result (list PullRequest).

(** Lines 184-211 of [fetchPRs]: send the request and decode the answer.
    The error of [http.NewRequest] is dropped, so that a URL that does not
    parse leaves [req] nil and [req.Header.Set] panics. *)
Definition roundTrip (rawurl : string) (singlePR : bool) (token : string)
  : outcome (result (list PullRequest)) :=
  match NewRequest "GET" rawurl with
  | None => Panics
  | Some req =>
    let req := mkRequest (Method req) (URL req) "application/vnd.github+json"
                         (if String.eqb token "" then None
                          else Some ("token " ++ token)) in
    Returns
      match Do req with
      | Failed e => Failed e
      | Ok resp =>
        if negb (StatusCode resp =? 200) then
          Failed (ErrAPI (Status resp) (strings.TrimSpace (Body resp)))
        else if singlePR then
          match decodePR (Body resp) with
          | Failed e => Failed e
          | Ok pr => Ok [pr]
          end
        else decodePRs (Body resp)
      end
  end.

(** Lines 159-172 of [fetchPRs]: the repository part of a reference, and
    the pull request number when the reference names one. *)
Definition target (repo : string) : string * bool * Z :=
  if strings.Contains repo "#" then
    let p := strings.SplitN2 repo "#" in
    let repoPart := strings.TrimSpace (nth 0 p "") in
    let nstr := strings.TrimSpace (nth 1 p "") in
    if negb (String.eqb nstr "") then
      match strconv.Atoi nstr with
      | Some n => (repoPart, true, n)
      | None => (repoPart, false, 0)
      end
    else (repoPart, false, 0)
  else (repo, false, 0).

(** [fetchPRs] *)
Definition fetchPRs (repo token : string) : outcome (result (list PullRequest)) :=
  let '(repoPart, singlePR, prNumber) := target repo in
  match strings.SplitN2 repoPart "/" with
  | [owner; name] =>
    let rawurl :=
      if singlePR then
        "https://api.github.com/repos/" ++ owner ++ "/" ++ name ++ "/pulls/"
          ++ strconv.Itoa prNumber
      else
        "https://api.github.com/repos/" ++ owner ++ "/" ++ name
          ++ "/pulls?state=open" in
    roundTrip rawurl singlePR token
  | _ => Returns (Failed (ErrInvalidRepo repo))
  end.

(** ** Aggregator: the fan-out of [cmdList] *)

(** The value a goroutine builds from the answer of [fetchPRs]. *)
Definition resultOf (repo : string) (r : result (list PullRequest)) : PRResult :=
  match r with
  | Ok prs => mkPRResult repo prs None
  | Failed e => mkPRResult repo [] (Some e)
  end.

(** The goroutine of lines 272-276: the value it sends on the channel,
    [None] when its fetch panics. *)
Definition goroutine (token repo : string) : option PRResult :=
  match fetchPRs repo token with
  | Returns r => Some (resultOf repo r)
  | Panics => None
  end.

(** The state of lines 268-283: the references the [for] loop has not
    reached, the goroutines started that have not sent yet, and the
    buffered channel.  The channel has room for one value per reference,
    so no send blocks. *)
Record Pool : Type := mkPool {
  queued : list string;
  running : list string;
  ch : list PRResult
}.

Inductive state : Type :=
| Live (p : Pool)
| Crashed.

(** One step of the program: the loop starts a goroutine, or any started
    goroutine finishes, by sending its result or by bringing the process
    down with its panic. *)
Inductive step (token : string) : state -> state -> Prop :=
| step_go r q run c :
    step token (Live (mkPool (r :: q) run c)) (Live (mkPool q (run ++ [r]) c))
| step_send r res q run1 run2 c :
    goroutine token r = Some res ->
    step token (Live (mkPool q (run1 ++ r :: run2) c))
               (Live (mkPool q (run1 ++ run2) (c ++ [res])))
| step_panic r q run1 run2 c :
    goroutine token r = None ->
    step token (Live (mkPool q (run1 ++ r :: run2) c)) Crashed.

Inductive steps (token : string) : state -> state -> Prop :=
| steps_refl s : steps token s s
| steps_cons s1 s2 s3 : step token s1 s2 -> steps token s2 s3 -> steps token s1 s3.

(** [wg.Wait()] returns when every goroutine is done; the channel is then
    closed and drained in order into [results]. *)
Definition collected (results : list PRResult) : state :=
  Live (mkPool [] [] results).

(** The state at line 270, before the loop starts the first goroutine. *)
Definition started (repos : list string) : state :=
  Live (mkPool repos [] []).

(** What is still to be sent, together with what was sent, is what the
    references call for. *)
Definition accounted (token : string) (repos : list string) (s : state) : Prop :=
  match s with
  | Live p =>
    Permutation (map (goroutine token) (queued p ++ running p) ++ map Some (ch p))
                (map (goroutine token) repos)
  | Crashed => True
  end.

(** The content of the channel when the goroutines send in the order
    [order]; [None] when one of them panics. *)
Fixpoint sendAll (token : string) (order : list string) : option (list PRResult) :=
  match order with
  | [] => Some []
  | r :: rest =>
    match goroutine token r with
    | None => None
    | Some res =>
      match sendAll token rest with
      | None => None
      | Some results => Some (res :: results)
      end
    end
  end.

End Fetcher.

(** What a state still has to do: a queued reference is started and then
    finishes, a running one finishes. *)
Definition pending (s : state) : nat :=
  match s with
  | Live p => (2 * List.length (queued p) + List.length (running p))%nat
  | Crashed => 0%nat
  end.

(** ** Renderer: the rows of [printTable] *)

(** Lines 305-318 of [printTable]: one row per pull request, or a single
    row for a reference that failed or has none. *)
Definition tableRows (results : list PRResult) : list (string * string * string) :=
  flat_map
    (fun res =>
       match Err res with
       | Some e => [(Repo res, "", "(error: " ++ Error e ++ ")")]
       | None =>
         match PRs res with
         | [] => [(Repo res, "", "(no open PRs)")]
         | prs => map (fun pr => (Repo res, HTMLURL pr, truncate (Title pr) 60)) prs
         end
       end)
    results.

(** ** Shapes of input used in the statements *)

(** Every byte of [s] satisfies [p]. *)
Fixpoint allBytes (p : ascii -> bool) (s : string) : bool :=
  match s with
  | EmptyString => true
  | String c s' => p c && allBytes p s'
  end.

(** A printable ASCII byte other than the space. *)
Definition visible (c : ascii) : bool := (33 <=? ord c) && (ord c <=? 126).

(** A byte of a path segment that needs no escaping: printable, and none
    of [/], [#], [?], [%]. *)
Definition segmentByte (c : ascii) : bool :=
  visible c && negb (url.oneOf (ord c) "/#?%").

(** A byte of a path made of such segments. *)
Definition pathByte (c : ascii) : bool := segmentByte c || Ascii.eqb c "/".

(** A non-empty path segment, such as the owner or the name of a
    repository in a GitHub URL. *)
Definition segment (s : string) : bool :=
  negb (String.eqb s "") && allBytes segmentByte s.

(** ** Renderer: the table of [printTable] *)

(** [len([]rune(s))], which is also [utf8.RuneCountInString(s)]. *)
Definition runeCount (s : string) : nat := List.length (utf8.runes s).

(** [strings.Repeat] *)
Fixpoint Repeat (s : string) (count : nat) : string :=
  match count with
  | O => EmptyString
  | S count' => s ++ Repeat s count'
  end.

(** The line feed that [fmt.Println] and the format of a row end with. *)
Definition newline : string := String "010" EmptyString.

(** The verb [%-Nv] of [fmt] on a string: the string, then spaces up to
    [width] runes; a longer string is written whole. *)
Definition padRight (width : nat) (s : string) : string :=
  s ++ Repeat " " (width - runeCount s).

(** Lines 323-328 of [printTable]: a width grows to the rune count of a
    wider cell. *)
Definition grow (width : nat) (cell : string) : nat :=
  let l := runeCount cell in
  if Nat.ltb width l then l else width.

Definition widen (widths : nat * nat * nat) (r : string * string * string)
  : nat * nat * nat :=
  let '(w0, w1, w2) := widths in
  let '(c0, c1, c2) := r in
  (grow w0 c0, grow w1 c1, grow w2 c2).

(** Lines 321-329: the widths start at 4, 3 and 5 and grow over the
    rows. *)
Definition columnWidths (rows : list (string * string * string)) : nat * nat * nat :=
  fold_left widen rows (4, 3, 5)%nat.

(** The widths [fmt] reads from a format: its [parsenum] gives up on a
    number as soon as the digits read so far are worth more than 1e6, so
    that 10000009 is the largest width it reads. *)
Definition widthRead (w : nat) : bool := Z.of_nat w <=? 10000009.

(** What [Printf] writes at a verb whose width it gives up on: the format
    ends there without a verb, and the operands left over are listed. *)
Definition noVerb (rest : list string) : string :=
  "%!(NOVERB)%!(EXTRA "
    ++ String.concat ", " (map (fun c => "string=" ++ c) rest) ++ ")".

(** [fmt.Printf(fmtStr, r[0], r[1], r[2])] with the format
    [%-w0v  %-w1v  %-w2v \n] of line 333. *)
Definition formatRow (widths : nat * nat * nat) (r : string * string * string)
  : string :=
  let '(w0, w1, w2) := widths in
  let '(c0, c1, c2) := r in
  if negb (widthRead w0) then noVerb [c0; c1; c2]
  else
    padRight w0 c0 ++ "  "
      ++ (if negb (widthRead w1) then noVerb [c1; c2]
          else
            padRight w1 c1 ++ "  "
              ++ (if negb (widthRead w2) then noVerb [c2]
                  else padRight w2 c2 ++ " " ++ newline)).

(** Lines 337-344: the dashes of each column, each followed by two
    spaces (the test [i < 4] holds for the three columns), printed with
    [fmt.Println]. *)
Definition separator (widths : nat * nat * nat) : string :=
  let '(w0, w1, w2) := widths in
  (Repeat "-" w0 ++ "  ") ++ (Repeat "-" w1 ++ "  ") ++ (Repeat "-" w2 ++ "  ")
    ++ newline.

(** The lines [printTable] writes: the header, the separator, the
    rows. *)
Definition tableLines (results : list PRResult) : list string :=
  let rows := tableRows results in
  let widths := columnWidths rows in
  formatRow widths ("REPO", "URL", "TITLE")
    :: separator widths
    :: map (formatRow widths) rows.

(** [printTable]: what it writes on the standard output. *)
Definition printTable (results : list PRResult) : string :=
  String.concat "" (tableLines results).

(** ** Commands *)

(** [fmt.Println] on strings: the operands separated by spaces, and a
    line feed. *)
Definition Println (operands : list string) : string :=
  String.concat " " operands ++ newline.

(** What the commands see of the machine: the answers of
    [os.UserHomeDir] and [os.MkdirAll], the disk under the store, and the
    variable [GITHUB_TOKEN]. *)
Record Env : Type := mkEnv {
  homeDir : result string;
  mkdirError : option string;
  disk : Disk;
  GITHUB_TOKEN : string
}.

(** [NewRepoStore]: the error it answers, [None] when the store is
    ready.  The store it builds is the file of [disk]. *)
Definition NewRepoStore (env : Env) : option error :=
  match homeDir env with
  | Failed e => Some e
  | Ok _ =>
    match mkdirError env with
    | Some msg => Some (ErrLib msg)
    | None => None
    end
  end.

(** The end of a command: its code, what it printed, and the disk it
    leaves. *)
Record Done : Type := mkDone {
  code : Z;
  stdout : string;
  diskAfter : Disk
}.

Section Commands.

Variable foldOrbit : Z -> Z -> bool.
Variable Do : Request -> result Response.
Variable decodePR : string -> result PullRequest.
Variable decodePRs : string -> result (list PullRequest).

(** [cmdAdd] *)
Definition cmdAdd (args : list string) (env : Env) : Done :=
  match args with
  | [] => mkDone 2 (Println ["usage: pr-view add owner/repo[#number]"]) (disk env)
  | repo :: _ =>
    match NewRepoStore env with
    | Some e => mkDone 1 (Println ["error initializing store:"; Error e]) (disk env)
    | None =>
      match Add foldOrbit repo (disk env) with
      | (d, Some e) => mkDone 1 (Println ["error adding repo:"; Error e]) d
      | (d, None) => mkDone 0 (Println ["added"; repo]) d
      end
    end
  end.

(** [cmdRemove] *)
Definition cmdRemove (args : list string) (env : Env) : Done :=
  match args with
  | [] => mkDone 2 (Println ["usage: pr-view remove owner/repo"]) (disk env)
  | repo :: _ =>
    match NewRepoStore env with
    | Some e => mkDone 1 (Println ["error initializing store:"; Error e]) (disk env)
    | None =>
      match Remove foldOrbit repo (disk env) with
      | (d, Some e) => mkDone 1 (Println ["error removing repo:"; Error e]) d
      | (d, None) => mkDone 0 (Println ["removed"; repo]) d
      end
    end
  end.

(** [cmdList], when the goroutines send in the order [order], which is
    some arrangement of the stored references.  It panics when a
    goroutine does. *)
Definition cmdList (order : list string) (env : Env) : outcome Done :=
  match NewRepoStore env with
  | Some e =>
    Returns (mkDone 1 (Println ["error initializing store:"; Error e]) (disk env))
  | None =>
    match Load (disk env) with
    | Failed e =>
      Returns (mkDone 1 (Println ["error loading repos:"; Error e]) (disk env))
    | Ok repos =>
      match repos with
      | [] =>
        Returns (mkDone 0
                   (Println ["no repos configured. add one with: pr-view add owner/repo[#number]"])
                   (disk env))
      | _ :: _ =>
        match sendAll Do decodePR decodePRs (GITHUB_TOKEN env) order with
        | None => Panics
        | Some results => Returns (mkDone 0 (printTable results) (disk env))
        end
      end
    end
  end.

(** [main] on [os.Args], up to [os.Exit(code)]. *)
Definition main (osArgs order : list string) (env : Env) : outcome Done :=
  match osArgs with
  | _ :: cmd :: args =>
    if String.eqb cmd "add" then Returns (cmdAdd args env)
    else if String.eqb cmd "list" then cmdList order env
    else if String.eqb cmd "remove" then Returns (cmdRemove args env)
    else
      Returns (mkDone 2 (Println ["unknown command:"; cmd]
                           ++ Println ["usage: pr-view <add|remove|list>"])
                      (disk env))
  | _ => Returns (mkDone 2 (Println ["usage: pr-view <add|remove|list>"]) (disk env))
  end.

End Commands.

(** ** The stored list without duplicates *)

(** No two references of the list are equal up to case, an earlier one
    against a later one as [Add] compares them.  [distinctRev] reads the
    list from its end. *)
Fixpoint distinctRev (foldOrbit : Z -> Z -> bool) (l : list string) : bool :=
  match l with
  | [] => true
  | repo :: older =>
    negb (existsb (fun r => EqualFold foldOrbit r repo) older)
    && distinctRev foldOrbit older
  end.

Definition distinct (foldOrbit : Z -> Z -> bool) (repos : list string) : bool :=
  distinctRev foldOrbit (List.rev repos).

(** * Properties *)

(** ** The library functions on examples *)

Example TrimSpace_examples :
  strings.TrimSpace "  owner/name " = "owner/name"
  /\ strings.TrimSpace (String "009" (String "194" (String "160" "a b"))
                          ++ String "226" (String "128" (String "131" (String "010" ""))))
     = "a b"
  /\ strings.TrimSpace (String "032" (String "013" "")) = "".
Proof. vm_compute. repeat split. Qed.

Example Atoi_examples :
  strconv.Atoi "42" = Some 42
  /\ strconv.Atoi "+7" = Some 7
  /\ strconv.Atoi "-5" = Some (-5)
  /\ strconv.Atoi "-9223372036854775808" = Some (-9223372036854775808)
  /\ strconv.Atoi "9223372036854775808" = None
  /\ strconv.Atoi "" = None
  /\ strconv.Atoi "-" = None
  /\ strconv.Atoi "4 2" = None
  /\ strconv.Atoi "1_000" = None
  /\ strconv.Atoi "abc" = None.
Proof. vm_compute. repeat split. Qed.

Example Itoa_examples :
  strconv.Itoa 0 = "0" /\ strconv.Itoa 42 = "42" /\ strconv.Itoa (-5) = "-5"
  /\ strconv.Itoa 9223372036854775807 = "9223372036854775807".
Proof. vm_compute. repeat split. Qed.

Example Split_Trim_examples :
  strings.SplitByte "a/b//c" "/" = ["a"; "b"; ""; "c"]
  /\ strings.SplitByte "" "/" = [""]
  /\ strings.TrimByte "//a/b/" "/" = "a/b"
  /\ strings.SplitN2 "a/b/c" "/" = ["a"; "b/c"]
  /\ strings.SplitN2 "abc" "/" = ["abc"]
  /\ strings.SplitN2 "o/n#1#2" "#" = ["o/n"; "1#2"].
Proof. vm_compute. repeat split. Qed.

Example EqualFold_examples :
  strings.EqualFold asciiFold "Owner/Name" "owner/name" = true
  /\ strings.EqualFold asciiFold "owner/name" "owner/nam" = false
  /\ strings.EqualFold asciiFold "a[b" "a{b" = false.
Proof. vm_compute. repeat split. Qed.

Example runes_examples :
  utf8.runes "abc" = [97; 98; 99]
  /\ utf8.runes (String "195" (String "169" "")) = [0xE9]
  /\ utf8.runes (String "226" (String "130" (String "172" ""))) = [0x20AC]
  /\ utf8.runes (String "240" (String "159" (String "152" (String "128" "")))) = [0x1F600]
  /\ utf8.runes (String "255" "a") = [utf8.RuneError; 97]
  /\ utf8.runes (String "237" (String "160" (String "128" "")))
     = [utf8.RuneError; utf8.RuneError; utf8.RuneError]
  /\ utf8.encode [0xE9; 0x20AC; 0xD800]
     = String "195" (String "169" (String "226" (String "130" (String "172"
         (String "239" (String "191" (String "189" ""))))))).
Proof. vm_compute. repeat split. Qed.

Example Parse_examples :
  option_map url.Path (url.Parse "https://github.com/owner/name/pull/42")
  = Some "/owner/name/pull/42"
  /\ option_map url.Host (url.Parse "https://github.com/owner/name/pull/42")
     = Some "github.com"
  /\ url.Parse "github.com/owner/name"
     = Some (url.mkURL "" "" "" "github.com/owner/name" false "" "")
  /\ url.Parse "http://user:pw@host:8080/a%20b?x=1#top"
     = Some (url.mkURL "http" "" "host:8080" "/a b" false "x=1" "top")
  /\ url.Parse "mailto:someone@example.com"
     = Some (url.mkURL "mailto" "someone@example.com" "" "" false "" "")
  /\ url.Parse "https://api.github.com/repos/a/b%zz/pulls?state=open" = None
  /\ url.Parse "http://ho st/" = None
  /\ url.Parse "a:b:c/d" = Some (url.mkURL "a" "b:c/d" "" "" false "" "")
  /\ url.Parse "1a:b/c" = None
  /\ url.Parse ":x" = None.
Proof. vm_compute. repeat split. Qed.

(** The first testable property of the specification: a reference added
    to an empty store is what the store then loads. *)
Example Add_then_Load :
  Load (fst (Add asciiFold "owner/name" (mkDisk Absent None))) = Ok ["owner/name"]
  /\ snd (Add asciiFold "owner/name" (mkDisk Absent None)) = None.
Proof. vm_compute. split; reflexivity. Qed.

(** ** Bytes and slices *)

Lemma ord_range (c : ascii) : 0 <= ord c < 256.
Proof.
  unfold ord. pose proof (N_ascii_bounded c). lia.
Qed.

Lemma ord_chr (z : Z) : 0 <= z < 256 -> ord (chr z) = z.
Proof.
  intros Hz. unfold ord, chr.
  rewrite Z.mod_small by lia.
  rewrite N_ascii_embedding by lia.
  lia.
Qed.

Lemma chr_ord (c : ascii) : chr (ord c) = c.
Proof.
  unfold ord, chr. pose proof (N_ascii_bounded c).
  rewrite Z.mod_small by lia.
  rewrite N2Z.id. apply ascii_N_embedding.
Qed.

Lemma append_nil_r (s : string) : s ++ "" = s.
Proof. induction s; simpl; congruence. Qed.

Lemma append_assoc (s t u : string) : (s ++ t) ++ u = s ++ (t ++ u).
Proof. induction s; simpl; congruence. Qed.

Lemma length_append (s t : string) :
  String.length (s ++ t) = (String.length s + String.length t)%nat.
Proof. induction s; simpl; congruence. Qed.

Lemma rev_onto_append (s acc : string) : rev_onto s acc = rev s ++ acc.
Proof.
  unfold rev. revert acc.
  induction s as [|c s IH]; intros acc; simpl; [reflexivity|].
  rewrite IH, (IH (String c "")), append_assoc. reflexivity.
Qed.

Lemma rev_cons (c : ascii) (s : string) : rev (String c s) = rev s ++ String c "".
Proof. unfold rev at 1. simpl. apply rev_onto_append. Qed.

Lemma rev_append (s t : string) : rev (s ++ t) = rev t ++ rev s.
Proof.
  induction s as [|c s IH]; simpl.
  - symmetry. apply append_nil_r.
  - rewrite !rev_cons, IH, append_assoc. reflexivity.
Qed.

Lemma rev_involutive (s : string) : rev (rev s) = s.
Proof.
  induction s as [|c s IH]; [reflexivity|].
  rewrite rev_cons, rev_append, IH. reflexivity.
Qed.

Lemma length_rev (s : string) : String.length (rev s) = String.length s.
Proof.
  induction s as [|c s IH]; [reflexivity|].
  rewrite rev_cons, length_append, IH. simpl. lia.
Qed.

Lemma take_drop (n : nat) (s : string) : take n s ++ drop n s = s.
Proof.
  revert s. induction n as [|n IH]; intros [|c s]; simpl; try reflexivity.
  now rewrite IH.
Qed.

Lemma take_append (s t : string) : take (String.length s) (s ++ t) = s.
Proof. induction s; simpl; congruence. Qed.

Lemma drop_append (s t : string) : drop (String.length s) (s ++ t) = t.
Proof. induction s; simpl; congruence. Qed.

(** ** Bit operations as arithmetic *)

Lemma land_shifted_low (k y n : Z) :
  0 <= n -> 0 <= y < 2 ^ n -> Z.land (k * 2 ^ n) y = 0.
Proof.
  intros Hn Hy. apply Z.bits_inj'. intros i Hi.
  rewrite Z.land_spec, Z.bits_0.
  destruct (Z.ltb_spec i n).
  - rewrite Z.mul_pow2_bits_low by lia. reflexivity.
  - replace (Z.testbit y i) with false; [apply andb_false_r|].
    symmetry. destruct (Z.eq_dec y 0) as [->|].
    + apply Z.bits_0.
    + apply Z.bits_above_log2; [lia|].
      apply Z.log2_lt_pow2; [lia|].
      apply Z.lt_le_trans with (2 ^ n); [lia|].
      apply Z.pow_le_mono_r; lia.
Qed.

Lemma lor_shifted_low (k y n : Z) :
  0 <= n -> 0 <= y < 2 ^ n -> Z.lor (k * 2 ^ n) y = k * 2 ^ n + y.
Proof.
  intros Hn Hy.
  pose proof (land_shifted_low k y n Hn Hy) as H0.
  rewrite <- Z.lxor_lor by exact H0.
  symmetry. apply Z.add_nocarry_lxor. exact H0.
Qed.

Lemma land_low (x n : Z) : 0 <= n -> Z.land x (2 ^ n - 1) = x mod 2 ^ n.
Proof.
  intros Hn. rewrite <- Z.land_ones by exact Hn.
  rewrite Z.ones_equiv. f_equal; lia.
Qed.

Module utf8_facts.
Import utf8.

Lemma lor_t2 (a : Z) : 0 <= a < 32 -> Z.lor t2 a = 192 + a.
Proof. intros H. apply (lor_shifted_low 3 a 6); lia. Qed.

Lemma lor_t3 (a : Z) : 0 <= a < 16 -> Z.lor t3 a = 224 + a.
Proof. intros H. apply (lor_shifted_low 7 a 5); lia. Qed.

Lemma lor_t4 (a : Z) : 0 <= a < 8 -> Z.lor t4 a = 240 + a.
Proof. intros H. apply (lor_shifted_low 15 a 4); lia. Qed.

Lemma lor_tx (b : Z) : 0 <= b < 64 -> Z.lor tx b = 128 + b.
Proof. intros H. apply (lor_shifted_low 2 b 6); lia. Qed.

Lemma land_maskx (x : Z) : Z.land x maskx = x mod 64.
Proof. apply (land_low x 6). lia. Qed.

Lemma land_mask2 (x : Z) : Z.land x mask2 = x mod 32.
Proof. apply (land_low x 5). lia. Qed.

Lemma land_mask3 (x : Z) : Z.land x mask3 = x mod 16.
Proof. apply (land_low x 4). lia. Qed.

Lemma land_mask4 (x : Z) : Z.land x mask4 = x mod 8.
Proof. apply (land_low x 3). lia. Qed.

Lemma join2 (a b : Z) :
  0 <= b < 64 -> Z.lor (Z.shiftl a 6) b = a * 64 + b.
Proof.
  intros H. rewrite Z.shiftl_mul_pow2 by lia.
  apply (lor_shifted_low a b 6); lia.
Qed.

Lemma join3 (a b c : Z) :
  0 <= b < 64 -> 0 <= c < 64 ->
  Z.lor (Z.lor (Z.shiftl a 12) (Z.shiftl b 6)) c = a * 4096 + b * 64 + c.
Proof.
  intros Hb Hc. rewrite !Z.shiftl_mul_pow2 by lia.
  rewrite (lor_shifted_low a (b * 2 ^ 6) 12) by lia.
  replace (a * 2 ^ 12 + b * 2 ^ 6) with ((a * 64 + b) * 2 ^ 6) by lia.
  rewrite lor_shifted_low by lia. lia.
Qed.

Lemma join4 (a b c d : Z) :
  0 <= b < 64 -> 0 <= c < 64 -> 0 <= d < 64 ->
  Z.lor (Z.lor (Z.lor (Z.shiftl a 18) (Z.shiftl b 12)) (Z.shiftl c 6)) d
  = a * 262144 + b * 4096 + c * 64 + d.
Proof.
  intros Hb Hc Hd. rewrite !Z.shiftl_mul_pow2 by lia.
  rewrite (lor_shifted_low a (b * 2 ^ 12) 18) by lia.
  replace (a * 2 ^ 18 + b * 2 ^ 12) with ((a * 64 + b) * 2 ^ 12) by lia.
  rewrite (lor_shifted_low _ (c * 2 ^ 6) 12) by lia.
  replace ((a * 64 + b) * 2 ^ 12 + c * 2 ^ 6)
    with (((a * 64 + b) * 64 + c) * 2 ^ 6) by lia.
  rewrite lor_shifted_low by lia. lia.
Qed.

Lemma shiftr_div (r n : Z) : 0 <= n -> Z.shiftr r n = r / 2 ^ n.
Proof. intros. apply Z.shiftr_div_pow2. assumption. Qed.

Ltac modlia := Z.div_mod_to_equations; lia.

Lemma accept_2 (b0 : Z) :
  194 <= b0 <= 223 -> accept b0 = Some (2%nat, 128, 191).
Proof.
  intros H. unfold accept, inRange.
  destruct (Z.leb_spec 194 b0); [|lia].
  destruct (Z.leb_spec b0 223); [reflexivity|lia].
Qed.

Ltac enum a :=
  repeat match goal with
         | H : ?lo <= a < ?hi |- _ =>
           first
             [ assert (lo = hi - 1) by reflexivity;
               assert (a = lo) by lia; clear H; subst a
             | let H' := fresh in
               assert (H' : a = lo \/ lo + 1 <= a < hi) by lia;
               clear H; destruct H' as [->|H]; [|simpl in H] ]
         end.

Lemma accept_3 (a : Z) :
  0 <= a < 16 ->
  accept (224 + a)
  = Some (3%nat, if a =? 0 then 160 else 128, if a =? 13 then 159 else 191).
Proof. intros H. enum a; reflexivity. Qed.

Lemma accept_4 (a : Z) :
  0 <= a < 5 ->
  accept (240 + a)
  = Some (4%nat, if a =? 0 then 144 else 128, if a =? 4 then 143 else 191).
Proof. intros H. enum a; reflexivity. Qed.

Lemma decode_1 (c : ascii) (t : string) :
  ord c < 128 -> DecodeRuneInString (String c t) = (ord c, 1%nat).
Proof.
  intros H. unfold DecodeRuneInString, RuneSelf.
  destruct (Z.ltb_spec (ord c) 128); [reflexivity|lia].
Qed.

Lemma inRange_true (lo hi b : Z) : lo <= b <= hi -> inRange lo hi b = true.
Proof. intros H. unfold inRange. apply andb_true_intro. split; lia. Qed.

Lemma decode_2 (a b : Z) (t : string) :
  2 <= a < 32 -> 0 <= b < 64 ->
  DecodeRuneInString (String (chr (192 + a)) (String (chr (128 + b)) t))
  = (a * 64 + b, 2%nat).
Proof.
  intros Ha Hb. unfold DecodeRuneInString.
  rewrite !ord_chr by lia.
  unfold RuneSelf. destruct (Z.ltb_spec (192 + a) 128); [lia|].
  rewrite accept_2 by lia.
  rewrite inRange_true by lia. cbn [negb Nat.leb].
  rewrite land_mask2, land_maskx, join2 by modlia.
  f_equal. modlia.
Qed.

Lemma decode_3 (a b c : Z) (t : string) :
  0 <= a < 16 -> 0 <= b < 64 -> 0 <= c < 64 ->
  (a = 0 -> 32 <= b) -> (a = 13 -> b < 32) ->
  DecodeRuneInString
    (String (chr (224 + a)) (String (chr (128 + b)) (String (chr (128 + c)) t)))
  = (a * 4096 + b * 64 + c, 3%nat).
Proof.
  intros Ha Hb Hc H0 H13. unfold DecodeRuneInString.
  rewrite !ord_chr by lia.
  unfold RuneSelf. destruct (Z.ltb_spec (224 + a) 128); [lia|].
  rewrite accept_3 by lia.
  rewrite inRange_true
    by (destruct (Z.eqb_spec a 0); destruct (Z.eqb_spec a 13); lia).
  rewrite inRange_true by lia. cbn [negb Nat.leb].
  rewrite land_mask3, !land_maskx, join3 by modlia.
  f_equal. modlia.
Qed.

Lemma decode_4 (a b c d : Z) (t : string) :
  0 <= a < 5 -> 0 <= b < 64 -> 0 <= c < 64 -> 0 <= d < 64 ->
  (a = 0 -> 16 <= b) -> (a = 4 -> b < 16) ->
  DecodeRuneInString
    (String (chr (240 + a)) (String (chr (128 + b))
       (String (chr (128 + c)) (String (chr (128 + d)) t))))
  = (a * 262144 + b * 4096 + c * 64 + d, 4%nat).
Proof.
  intros Ha Hb Hc Hd H0 H4. unfold DecodeRuneInString.
  rewrite !ord_chr by lia.
  unfold RuneSelf. destruct (Z.ltb_spec (240 + a) 128); [lia|].
  rewrite accept_4 by lia.
  rewrite inRange_true
    by (destruct (Z.eqb_spec a 0); destruct (Z.eqb_spec a 4); lia).
  rewrite !inRange_true by lia. cbn [negb Nat.leb].
  rewrite land_mask4, !land_maskx, join4 by modlia.
  f_equal. modlia.
Qed.

(** Decoding what [EncodeRune] wrote gives the rune back, whatever
    follows. *)
Lemma Decode_Encode (r : Z) (t : string) :
  ValidRune r = true ->
  DecodeRuneInString (EncodeRune r ++ t) = (r, String.length (EncodeRune r)).
Proof.
  intros Hv. unfold EncodeRune. rewrite Hv.
  assert (Hr : 0 <= r < 55296 \/ 57343 < r <= 1114111).
  { unfold ValidRune, surrogateMin, surrogateMax, MaxRune in Hv.
    apply orb_prop in Hv. destruct Hv as [Hv|Hv];
      apply andb_prop in Hv; destruct Hv; [left|right]; lia. }
  clear Hv.
  destruct (Z.leb_spec r 0x7F) as [H1|H1].
  { cbn [append String.length]. rewrite decode_1; rewrite ord_chr by lia; [reflexivity|lia]. }
  rewrite !shiftr_div, !land_maskx by lia.
  change (2 ^ 6) with 64. change (2 ^ 12) with 4096. change (2 ^ 18) with 262144.
  destruct (Z.leb_spec r 0x7FF) as [H2|H2].
  { rewrite lor_t2, lor_tx by modlia.
    cbn [append String.length].
    rewrite decode_2 by modlia. f_equal. modlia. }
  destruct (Z.leb_spec r 0xFFFF) as [H3|H3].
  { rewrite lor_t3, !lor_tx by modlia.
    cbn [append String.length].
    rewrite decode_3 by modlia. f_equal. modlia. }
  rewrite lor_t4, !lor_tx by modlia.
  cbn [append String.length].
  rewrite decode_4 by modlia. f_equal. modlia.
Qed.

Lemma ValidRune_intro (r : Z) :
  0 <= r < 55296 \/ 57343 < r <= 1114111 -> ValidRune r = true.
Proof.
  intros H. unfold ValidRune, surrogateMin, surrogateMax, MaxRune.
  apply orb_true_iff. rewrite !andb_true_iff. lia.
Qed.

Lemma accept_inv (b0 : Z) (sz : nat) (lo hi : Z) :
  accept b0 = Some (sz, lo, hi) ->
  (sz = 2%nat /\ 194 <= b0 <= 223 /\ lo = 128 /\ hi = 191)
  \/ (sz = 3%nat /\ 224 <= b0 <= 239
      /\ lo = (if b0 =? 224 then 160 else 128)
      /\ hi = (if b0 =? 237 then 159 else 191))
  \/ (sz = 4%nat /\ 240 <= b0 <= 244
      /\ lo = (if b0 =? 240 then 144 else 128)
      /\ hi = (if b0 =? 244 then 143 else 191)).
Proof.
  unfold accept, inRange. intros H.
  destruct (Z.leb_spec 194 b0), (Z.leb_spec b0 223); cbn [andb] in H;
    try (injection H as <- <- <-; left; repeat split; lia).
  all: destruct (Z.eqb_spec b0 224);
    try (injection H as <- <- <-; right; left; subst b0; repeat split; lia).
  all: destruct (Z.leb_spec 225 b0), (Z.leb_spec b0 236); cbn [andb] in H;
    try (injection H as <- <- <-; right; left;
         destruct (Z.eqb_spec b0 237); repeat split; lia).
  all: destruct (Z.eqb_spec b0 237);
    try (injection H as <- <- <-; right; left; subst b0; repeat split; lia).
  all: destruct (Z.leb_spec 238 b0), (Z.leb_spec b0 239); cbn [andb] in H;
    try (injection H as <- <- <-; right; left;
         destruct (Z.eqb_spec b0 224); repeat split; lia).
  all: destruct (Z.eqb_spec b0 240);
    try (injection H as <- <- <-; right; right; subst b0; repeat split; lia).
  all: destruct (Z.leb_spec 241 b0), (Z.leb_spec b0 243); cbn [andb] in H;
    try (injection H as <- <- <-; right; right;
         destruct (Z.eqb_spec b0 240); destruct (Z.eqb_spec b0 244);
         repeat split; lia).
  all: destruct (Z.eqb_spec b0 244);
    try (injection H as <- <- <-; right; right; subst b0; repeat split; lia).
  all: discriminate.
Qed.

(** What [DecodeRuneInString] can answer on a non-empty string. *)
Lemma decode_props (c : ascii) (s1 : string) :
  let '(r, n) := DecodeRuneInString (String c s1) in
  ValidRune r = true
  /\ (1 <= n <= 4)%nat
  /\ (n <= S (String.length s1))%nat
  /\ (n = 1%nat -> (r = ord c /\ ord c < 128) \/ (r = RuneError /\ 128 <= ord c))
  /\ ((2 <= n)%nat -> 128 <= r /\ 128 <= ord c).
Proof.
  assert (Herr : ValidRune RuneError = true) by reflexivity.
  pose proof (ord_range c) as Hc.
  unfold DecodeRuneInString, RuneSelf.
  destruct (Z.ltb_spec (ord c) 128) as [Hlt|Hge].
  { repeat split; try lia. apply ValidRune_intro; lia. }
  assert (Hbad : forall k : nat,
             ValidRune RuneError = true
             /\ (1 <= 1 <= 4)%nat /\ (1 <= S k)%nat
             /\ (1%nat = 1%nat ->
                 (RuneError = ord c /\ ord c < 128)
                 \/ (RuneError = RuneError /\ 128 <= ord c))
             /\ ((2 <= 1)%nat -> 128 <= RuneError /\ 128 <= ord c)).
  { intros k. repeat split; try lia; exact Herr. }
  destruct (accept (ord c)) as [[[sz lo] hi]|] eqn:Ha;
    [|apply Hbad].
  apply accept_inv in Ha.
  destruct s1 as [|c1 s2]; [apply Hbad|].
  pose proof (ord_range c1) as Hc1.
  unfold inRange.
  destruct (Z.leb_spec lo (ord c1)) as [Hlo|?]; [|apply Hbad].
  destruct (Z.leb_spec (ord c1) hi) as [Hhi|?]; [|apply Hbad].
  cbn [andb negb].
  destruct Ha as [(-> & Hb0 & -> & ->)|[(-> & Hb0 & -> & ->)|(-> & Hb0 & -> & ->)]];
    cbn [Nat.leb].
  - rewrite land_mask2, land_maskx, join2 by modlia.
    repeat split; cbn [String.length]; try lia; try modlia.
    apply ValidRune_intro. modlia.
  - destruct s2 as [|c2 s3]; [apply Hbad|].
    pose proof (ord_range c2) as Hc2.
    destruct (Z.leb_spec 128 (ord c2)); [|apply Hbad].
    destruct (Z.leb_spec (ord c2) 191); [|apply Hbad].
    cbn [andb negb].
    rewrite land_mask3, !land_maskx, join3 by modlia.
    destruct (Z.eqb_spec (ord c) 224), (Z.eqb_spec (ord c) 237);
      repeat split; cbn [String.length]; try lia; try modlia;
      apply ValidRune_intro; modlia.
  - destruct s2 as [|c2 s3]; [apply Hbad|].
    pose proof (ord_range c2) as Hc2.
    destruct (Z.leb_spec 128 (ord c2)); [|apply Hbad].
    destruct (Z.leb_spec (ord c2) 191); [|apply Hbad].
    cbn [andb negb].
    destruct s3 as [|c3 s4]; [apply Hbad|].
    pose proof (ord_range c3) as Hc3.
    destruct (Z.leb_spec 128 (ord c3)); [|apply Hbad].
    destruct (Z.leb_spec (ord c3) 191); [|apply Hbad].
    cbn [andb negb].
    rewrite land_mask4, !land_maskx, join4 by modlia.
    destruct (Z.eqb_spec (ord c) 240), (Z.eqb_spec (ord c) 244);
      repeat split; cbn [String.length]; try lia; try modlia;
      apply ValidRune_intro; modlia.
Qed.

Lemma runes_cons (c : ascii) (s1 : string) :
  runes (String c s1)
  = fst (DecodeRuneInString (String c s1))
    :: runes (drop (snd (DecodeRuneInString (String c s1))) (String c s1)).
Proof.
  cbn [runes].
  pose proof (decode_props c s1) as H.
  destruct (DecodeRuneInString (String c s1)) as [r n].
  destruct H as (_ & Hn & Hlen & _). cbn [fst snd]. f_equal.
  destruct n as [|[|[|[|[|n]]]]]; try lia; try reflexivity.
  - destruct s1 as [|? s2]; [cbn in Hlen; lia|reflexivity].
  - destruct s1 as [|? [|? s3]]; try (cbn in Hlen; lia). reflexivity.
  - destruct s1 as [|? [|? [|? s4]]]; try (cbn in Hlen; lia). reflexivity.
Qed.

Lemma length_drop (n : nat) (s : string) :
  String.length (drop n s) = (String.length s - n)%nat.
Proof.
  revert s. induction n as [|n IH]; intros [|c s]; simpl; auto.
Qed.

Lemma runes_valid (s : string) : Forall (fun r => ValidRune r = true) (runes s).
Proof.
  remember (String.length s) as k eqn:Hk.
  revert s Hk. induction k as [k IH] using lt_wf_ind. intros s Hk.
  destruct s as [|c s1]; [constructor|].
  rewrite runes_cons.
  pose proof (decode_props c s1) as H.
  destruct (DecodeRuneInString (String c s1)) as [r n].
  destruct H as (Hv & Hn & Hlen & _). cbn [fst snd].
  constructor; [exact Hv|].
  apply (IH (String.length (drop n (String c s1)))); [|reflexivity].
  rewrite length_drop. subst k. cbn [String.length]. lia.
Qed.

Lemma EncodeRune_length (r : Z) : (1 <= String.length (EncodeRune r))%nat.
Proof.
  unfold EncodeRune.
  repeat match goal with
         | |- context [if ?b then _ else _] => destruct b
         end; cbn [String.length]; lia.
Qed.

Lemma runes_EncodeRune (r : Z) (t : string) :
  ValidRune r = true -> runes (EncodeRune r ++ t) = r :: runes t.
Proof.
  intros Hv.
  pose proof (Decode_Encode r t Hv) as Hd.
  pose proof (EncodeRune_length r) as Hl.
  destruct (EncodeRune r ++ t) as [|c u] eqn:Hu.
  { apply (f_equal String.length) in Hu. rewrite length_append in Hu.
    cbn in Hu. lia. }
  rewrite runes_cons, Hd. cbn [fst snd]. rewrite <- Hu, drop_append.
  reflexivity.
Qed.

(** Converting runes to a string and back loses nothing, whatever text
    follows. *)
Lemma runes_encode (rs : list Z) (t : string) :
  Forall (fun r => ValidRune r = true) rs ->
  runes (encode rs ++ t) = (rs ++ runes t)%list.
Proof.
  induction 1 as [|r rs Hr _ IH]; [reflexivity|].
  cbn [encode]. rewrite append_assoc, runes_EncodeRune by exact Hr.
  rewrite IH. reflexivity.
Qed.
End utf8_facts.

Import utf8_facts.

Lemma Forall_firstn {A : Type} (P : A -> Prop) (n : nat) (l : list A) :
  Forall P l -> Forall P (firstn n l).
Proof.
  intros H. revert n. induction H; intros [|n]; simpl; constructor; auto.
Qed.

(** The runes of a truncated title, for any limit above three. *)
Lemma truncate_cut (s : string) (max : Z) :
  3 < max -> max < Z.of_nat (List.length (utf8.runes s)) ->
  truncate s max
  = utf8.encode (firstn (Z.to_nat (max - 3)) (utf8.runes s)) ++ "..."
  /\ utf8.runes (truncate s max)
     = (firstn (Z.to_nat (max - 3)) (utf8.runes s) ++ [46; 46; 46])%list
  /\ Z.of_nat (List.length (utf8.runes (truncate s max))) = max.
Proof.
  intros H3 Hlen. unfold truncate.
  destruct (Z.leb_spec max 0); [lia|].
  destruct (Z.leb_spec (Z.of_nat (List.length (utf8.runes s))) max); [lia|].
  destruct (Z.leb_spec max 3); [lia|].
  split; [reflexivity|].
  rewrite runes_encode by (apply Forall_firstn, runes_valid).
  change (utf8.runes "...") with [46; 46; 46].
  split; [reflexivity|].
  rewrite length_app, length_firstn. cbn [List.length]. lia.
Qed.

(** C7. [truncate(title, 60)] counts runes, not bytes: a title of more
    than 60 runes becomes exactly 60 runes, its first 57 followed by the
    three dots of the ellipsis; a title of at most 60 runes is returned as
    it is. *)
Theorem truncate_60_rune_safe (s : string) :
  (60 < Z.of_nat (List.length (utf8.runes s)) ->
   Z.of_nat (List.length (utf8.runes (truncate s 60))) = 60
   /\ utf8.runes (truncate s 60) = (firstn 57 (utf8.runes s) ++ [46; 46; 46])%list
   /\ exists p, truncate s 60 = p ++ "...")
  /\ (Z.of_nat (List.length (utf8.runes s)) <= 60 -> truncate s 60 = s).
Proof.
  split.
  - intros H. destruct (truncate_cut s 60) as (He & Hr & Hn); [lia|exact H|].
    split; [exact Hn|]. split; [exact Hr|]. eexists. exact He.
  - intros H. unfold truncate. cbn [Z.leb Z.compare].
    destruct (Z.leb_spec (Z.of_nat (List.length (utf8.runes s))) 60);
      [reflexivity|lia].
Qed.

Lemma truncate_60_witness :
  let long := "0123456789012345678901234567890123456789012345678901234567890123456789012345678901234567890123456789" in
  let short := "0123456789" in
  (60 < Z.of_nat (List.length (utf8.runes long))
   /\ Z.of_nat (List.length (utf8.runes (truncate long 60))) = 60
   /\ utf8.runes (truncate long 60)
      = (firstn 57 (utf8.runes long) ++ [46; 46; 46])%list
   /\ exists p, truncate long 60 = p ++ "...")
  /\ (Z.of_nat (List.length (utf8.runes short)) <= 60
      /\ truncate short 60 = short).
Proof.
  intros long short. split.
  - assert (H : 60 < Z.of_nat (List.length (utf8.runes long)))
      by (vm_compute; reflexivity).
    split; [exact H|].
    exact (proj1 (truncate_60_rune_safe long) H).
  - assert (H : Z.of_nat (List.length (utf8.runes short)) <= 60)
      by (vm_compute; discriminate).
    split; [exact H|].
    exact (proj2 (truncate_60_rune_safe short) H).
Defined.

(** Sixty-one two-byte runes are cut to fifty-seven of them and three
    dots (117 bytes); forty of them (80 bytes) are left alone. *)
Example truncate_two_byte_runes :
  let e := utf8.EncodeRune 0xE9 in
  truncate (utf8.encode (repeat 0xE9 61)) 60
  = utf8.encode (repeat 0xE9 57) ++ "..."
  /\ truncate (utf8.encode (repeat 0xE9 40)) 60 = utf8.encode (repeat 0xE9 40)
  /\ String.length (utf8.encode (repeat 0xE9 40)) = 80%nat.
Proof. vm_compute. repeat split. Qed.

(** ** Searching and splitting *)

Module strings_facts.
Import strings.

Lemma prefix_byte (c d : ascii) (s : string) :
  String.prefix (String c "") (String d s) = Ascii.eqb c d.
Proof.
  cbn [String.prefix]. destruct (ascii_dec c d) as [->|Hne].
  - rewrite Ascii.eqb_refl. destruct s; reflexivity.
  - symmetry. apply Ascii.eqb_neq. exact Hne.
Qed.

Lemma Index_byte_cons (c d : ascii) (s : string) :
  Index (String d s) (String c "")
  = if Ascii.eqb c d then Some 0%nat else option_map S (Index s (String c "")).
Proof. cbn [Index]. rewrite prefix_byte. reflexivity. Qed.

Lemma Contains_byte_cons (c d : ascii) (s : string) :
  Contains (String d s) (String c "")
  = Ascii.eqb c d || Contains s (String c "").
Proof.
  unfold Contains. rewrite Index_byte_cons.
  destruct (Ascii.eqb c d); [reflexivity|].
  destruct (Index s (String c "")); reflexivity.
Qed.

Lemma Contains_byte_append (c : ascii) (s t : string) :
  Contains (s ++ t) (String c "")
  = Contains s (String c "") || Contains t (String c "").
Proof.
  induction s as [|d s IH]; [reflexivity|].
  cbn [append]. rewrite !Contains_byte_cons, IH. apply orb_assoc.
Qed.

(** The first occurrence of a byte that the text before it lacks. *)
Lemma Index_byte_first (c : ascii) (p t : string) :
  Contains p (String c "") = false ->
  Index (p ++ String c t) (String c "") = Some (String.length p).
Proof.
  induction p as [|d p IH]; intros H.
  - cbn [append]. rewrite Index_byte_cons, Ascii.eqb_refl. reflexivity.
  - rewrite Contains_byte_cons in H. apply orb_false_elim in H.
    destruct H as [Hd Hp]. cbn [append].
    rewrite Index_byte_cons, Hd, (IH Hp). reflexivity.
Qed.

Lemma Index_byte_none (c : ascii) (s : string) :
  Contains s (String c "") = false -> Index s (String c "") = None.
Proof.
  unfold Contains. destruct (Index s (String c "")); [discriminate|reflexivity].
Qed.

Lemma Index_byte_split (c : ascii) (s : string) (i : nat) :
  Index s (String c "") = Some i ->
  s = take i s ++ String c (drop (S i) s)
  /\ Contains (take i s) (String c "") = false.
Proof.
  revert i. induction s as [|d s IH]; intros i H; [discriminate|].
  rewrite Index_byte_cons in H.
  destruct (Ascii.eqb c d) eqn:E.
  - injection H as <-. apply Ascii.eqb_eq in E. subst d. split; reflexivity.
  - destruct (Index s (String c "")) as [j|]; [|discriminate].
    injection H as <-. destruct (IH j eq_refl) as [Hs Hc].
    cbn [take drop append]. split; [f_equal; exact Hs|].
    rewrite Contains_byte_cons, E. exact Hc.
Qed.

Lemma SplitN2_byte (c : ascii) (p t : string) :
  Contains p (String c "") = false ->
  SplitN2 (p ++ String c t) (String c "") = [p; t].
Proof.
  intros H. unfold SplitN2. rewrite (Index_byte_first c p t H).
  rewrite take_append.
  replace (String.length p + String.length (String c ""))%nat
    with (String.length (p ++ String c "")) by (rewrite length_append; reflexivity).
  replace (p ++ String c t) with ((p ++ String c "") ++ t)
    by (rewrite append_assoc; reflexivity).
  rewrite drop_append. reflexivity.
Qed.

Lemma Cut_byte (c : ascii) (p t : string) :
  Contains p (String c "") = false ->
  Cut (p ++ String c t) (String c "") = (p, t, true).
Proof.
  intros H. unfold Cut. rewrite (Index_byte_first c p t H).
  rewrite take_append.
  replace (String.length p + String.length (String c ""))%nat
    with (String.length (p ++ String c "")) by (rewrite length_append; reflexivity).
  replace (p ++ String c t) with ((p ++ String c "") ++ t)
    by (rewrite append_assoc; reflexivity).
  rewrite drop_append. reflexivity.
Qed.

Lemma Cut_byte_none (c : ascii) (s : string) :
  Contains s (String c "") = false -> Cut s (String c "") = (s, "", false).
Proof. intros H. unfold Cut. rewrite Index_byte_none by exact H. reflexivity. Qed.

(** A string that holds a byte splits at its first occurrence. *)
Lemma Contains_byte_split (c : ascii) (s : string) :
  Contains s (String c "") = true ->
  exists p t, s = p ++ String c t /\ Contains p (String c "") = false.
Proof.
  unfold Contains at 1. destruct (Index s (String c "")) as [i|] eqn:E; [|discriminate].
  intros _. destruct (Index_byte_split c s i E) as [Hs Hc].
  exists (take i s), (drop (S i) s). split; assumption.
Qed.




(** *** [TrimSpace] *)

(** Trimming on the left drops a prefix. *)
Lemma TrimLeftFunc_suffix (f : Z -> bool) (s : string) :
  exists pre, s = pre ++ TrimLeftFunc f s.
Proof.
  remember (String.length s) as k eqn:Hk.
  revert s Hk. induction k as [k IH] using lt_wf_ind. intros s Hk.
  destruct s as [|c s1]; [exists ""; reflexivity|].
  cbn [TrimLeftFunc].
  destruct (utf8.DecodeRuneInString (String c s1)) as [r n].
  destruct (f r); [|exists ""; reflexivity].
  assert (Hall : exists pre, String c s1 = pre ++ "")
    by (exists (String c s1); symmetry; apply append_nil_r).
  assert (H1 : exists pre, String c s1 = pre ++ TrimLeftFunc f s1).
  { destruct (IH (String.length s1)) with (s := s1) as [pre Hp];
      [subst k; cbn; lia|reflexivity|].
    exists (String c pre). cbn [append]. f_equal. exact Hp. }
  destruct n as [|[|[|[|[|n]]]]]; try exact H1.
  - destruct s1 as [|c1 s2]; [exact Hall|].
    destruct (IH (String.length s2)) with (s := s2) as [pre Hp];
      [subst k; cbn; lia|reflexivity|].
    exists (String c (String c1 pre)). cbn [append]. do 2 f_equal. exact Hp.
  - destruct s1 as [|c1 [|c2 s3]]; try exact Hall.
    destruct (IH (String.length s3)) with (s := s3) as [pre Hp];
      [subst k; cbn; lia|reflexivity|].
    exists (String c (String c1 (String c2 pre))). cbn [append].
    do 3 f_equal. exact Hp.
  - destruct s1 as [|c1 [|c2 [|c3 s4]]]; try exact Hall.
    destruct (IH (String.length s4)) with (s := s4) as [pre Hp];
      [subst k; cbn; lia|reflexivity|].
    exists (String c (String c1 (String c2 (String c3 pre)))). cbn [append].
    do 4 f_equal. exact Hp.
Qed.

Lemma rev_take_drop (n : nat) (r : string) :
  rev r = rev (drop n r) ++ rev (take n r).
Proof. rewrite <- rev_append, take_drop. reflexivity. Qed.

(** Trimming on the right keeps a prefix. *)
Lemma trimRightLoop_prefix (f : Z -> bool) (r acc : string) :
  exists post, rev r ++ acc = trimRightLoop f r acc ++ post.
Proof.
  remember (String.length r) as k eqn:Hk.
  revert r acc Hk. induction k as [k IH] using lt_wf_ind. intros r acc Hk.
  destruct r as [|c r1]; [exists acc; reflexivity|].
  cbn [trimRightLoop].
  destruct (utf8.DecodeLastRuneInString (String c r1)) as [x size].
  destruct (f x).
  - assert (Hall : exists post, rev (String c r1) ++ acc = "" ++ post)
      by (eexists; reflexivity).
    assert (H1 : exists post,
               rev (String c r1) ++ acc
               = trimRightLoop f r1 (String c acc) ++ post).
    { destruct (IH (String.length r1)) with (r := r1) (acc := String c acc)
        as [post Hp]; [subst k; cbn; lia|reflexivity|].
      exists post. rewrite <- Hp, rev_cons, append_assoc. reflexivity. }
    destruct size as [|[|[|[|[|size]]]]]; try exact H1.
    + destruct r1 as [|c1 r2]; [exact Hall|].
      destruct (IH (String.length r2)) with (r := r2)
        (acc := String c1 (String c acc)) as [post Hp];
        [subst k; cbn; lia|reflexivity|].
      exists post. rewrite <- Hp, !rev_cons, !append_assoc. reflexivity.
    + destruct r1 as [|c1 [|c2 r3]]; try exact Hall.
      destruct (IH (String.length r3)) with (r := r3)
        (acc := String c2 (String c1 (String c acc))) as [post Hp];
        [subst k; cbn; lia|reflexivity|].
      exists post. rewrite <- Hp, !rev_cons, !append_assoc. reflexivity.
    + destruct r1 as [|c1 [|c2 [|c3 r4]]]; try exact Hall.
      destruct (IH (String.length r4)) with (r := r4)
        (acc := String c3 (String c2 (String c1 (String c acc)))) as [post Hp];
        [subst k; cbn; lia|reflexivity|].
      exists post. rewrite <- Hp, !rev_cons, !append_assoc. reflexivity.
  - cbv zeta.
    set (tail := rev (take size (String c r1)) ++ acc).
    match goal with
    | |- context [take ?w tail] => exists (drop w tail); generalize w
    end.
    intros wid.
    rewrite append_assoc, take_drop. unfold tail.
    rewrite <- append_assoc, <- rev_take_drop. reflexivity.
Qed.

(** [TrimSpace] answers a slice of its argument. *)
Lemma TrimSpace_slice (s : string) :
  exists pre post, s = pre ++ TrimSpace s ++ post.
Proof.
  unfold TrimSpace, TrimRightFunc.
  destruct (TrimLeftFunc_suffix IsSpace s) as [pre Hpre].
  destruct (trimRightLoop_prefix IsSpace (rev (TrimLeftFunc IsSpace s)) "")
    as [post Hpost].
  rewrite rev_involutive, append_nil_r in Hpost.
  exists pre, post. rewrite <- Hpost. exact Hpre.
Qed.

Lemma TrimSpace_keeps_absent (c : ascii) (s : string) :
  Contains s (String c "") = false ->
  Contains (TrimSpace s) (String c "") = false.
Proof.
  intros H. destruct (TrimSpace_slice s) as (pre & post & Hs).
  rewrite Hs, !Contains_byte_append in H.
  apply orb_false_elim in H. destruct H as [_ H].
  apply orb_false_elim in H. apply H.
Qed.

Lemma IsSpace_visible (c : ascii) : visible c = true -> IsSpace (ord c) = false.
Proof.
  unfold visible, IsSpace. intros H. apply andb_prop in H. destruct H as [H1 H2].
  apply Z.leb_le in H1. apply Z.leb_le in H2.
  destruct (Z.leb_spec (ord c) 255); [|lia].
  repeat match goal with
         | |- context [?a =? ?b] => destruct (Z.eqb_spec a b); [lia|]
         end.
  reflexivity.
Qed.

Lemma visible_ascii (c : ascii) : visible c = true -> ord c < 128.
Proof.
  unfold visible. intros H. apply andb_prop in H. destruct H as [_ H].
  apply Z.leb_le in H. lia.
Qed.

(** A string that starts and ends with a printable byte is left alone. *)
Lemma TrimSpace_visible_ends (s : string) :
  match s with String c _ => visible c | EmptyString => false end = true ->
  match rev s with String d _ => visible d | EmptyString => false end = true ->
  TrimSpace s = s.
Proof.
  intros Hfirst Hlast. unfold TrimSpace.
  assert (HL : TrimLeftFunc IsSpace s = s).
  { destruct s as [|c s1]; [discriminate|]. cbn [TrimLeftFunc].
    rewrite utf8_facts.decode_1 by (apply visible_ascii; exact Hfirst).
    rewrite IsSpace_visible by exact Hfirst. reflexivity. }
  rewrite HL. unfold TrimRightFunc.
  destruct (rev s) as [|d r1] eqn:Hr; [discriminate|].
  cbn [trimRightLoop]. unfold utf8.DecodeLastRuneInString, utf8.RuneSelf.
  pose proof (visible_ascii d Hlast) as Hd.
  destruct (Z.ltb_spec (ord d) 128); [|lia].
  rewrite IsSpace_visible by exact Hlast.
  cbn [take drop rev rev_onto append].
  destruct (Z.leb_spec 128 (ord d)); [lia|].
  cbn [take]. fold (rev r1). rewrite <- rev_cons, <- Hr. apply rev_involutive.
Qed.

End strings_facts.

(** ** Store *)

Import strings_facts.

Lemma eqb_empty (s : string) : String.eqb s "" = false <-> s <> "".
Proof. apply String.eqb_neq. Qed.

(** *** [Load] *)

(** C1, as the code has it.  A missing file and a file without any JSON
    value load as the empty list; a file whose content is not valid JSON
    for a list of strings makes [Load] return the error of the decoder. *)
Theorem Load_missing_blank_malformed (w : option string) (msg : string) :
  Load (mkDisk Absent w) = Ok []
  /\ Load (mkDisk Blank w) = Ok []
  /\ Load (mkDisk (Malformed msg) w) = Failed (ErrLib msg).
Proof. repeat split. Qed.

(** C1, as stated, fails: a malformed file does not load as the empty
    list. *)
Lemma Load_malformed_is_error :
  Load (mkDisk (Malformed "invalid character '}' looking for beginning of value") None)
  = Failed (ErrLib "invalid character '}' looking for beginning of value")
  /\ Load (mkDisk (Malformed "invalid character '}' looking for beginning of value") None)
     <> Ok [].
Proof. split; [reflexivity|discriminate]. Qed.

(** *** What [Save] leaves on the disk *)

Lemma Save_writable (repos : list string) (d : Disk) :
  writeError d = None ->
  Save repos d = (mkDisk (Array (map toValidUTF8 repos)) None, None)
  /\ Load (fst (Save repos d)) = Ok (map toValidUTF8 repos).
Proof. intros H. unfold Save. rewrite H. split; reflexivity. Qed.

Lemma Save_read_only (repos : list string) (d : Disk) (msg : string) :
  writeError d = Some msg -> Save repos d = (d, Some (ErrLib msg)).
Proof. intros H. unfold Save. rewrite H. reflexivity. Qed.

(** *** [validate] *)

Lemma validate_plain (repo : string) :
  strings.Contains repo "#" = false ->
  validate repo
  = if strings.Contains repo "/" then None else Some ErrOwnerRepo.
Proof.
  intros H. unfold validate. rewrite H.
  destruct (strings.Contains repo "/"); reflexivity.
Qed.

Lemma validate_numbered (rp sfx : string) :
  strings.Contains rp "#" = false ->
  validate (rp ++ "#" ++ sfx)
  = let repoPart := strings.TrimSpace rp in
    let numStr := strings.TrimSpace sfx in
    if String.eqb repoPart "" || String.eqb numStr "" then Some ErrInvalidFormat
    else match strconv.Atoi numStr with
         | None => Some (ErrInvalidNumber numStr)
         | Some _ =>
           if strings.Contains repoPart "/" then None else Some ErrOwnerRepo
         end.
Proof.
  intros H. unfold validate.
  change (rp ++ "#" ++ sfx) with (rp ++ String "#" sfx).
  rewrite Contains_byte_append, Contains_byte_cons, Ascii.eqb_refl, orb_true_r.
  rewrite SplitN2_byte by exact H. cbn [nth].
  cbv zeta.
  destruct (String.eqb (strings.TrimSpace rp) "" || String.eqb (strings.TrimSpace sfx) "");
    [reflexivity|].
  destruct (strconv.Atoi (strings.TrimSpace sfx)); [|reflexivity].
  destruct (strings.Contains (strings.TrimSpace rp) "/"); reflexivity.
Qed.

Section StoreFacts.

Variable foldOrbit : Z -> Z -> bool.


(** [Add] by cases, in the order of the code. *)
Lemma Add_empty (raw : string) (d : Disk) :
  strings.TrimSpace raw = "" -> Add foldOrbit raw d = (d, Some ErrEmptyRepo).
Proof. intros H. unfold Add. rewrite H. reflexivity. Qed.

Lemma Add_invalid (raw : string) (d : Disk) (e : error) :
  strings.TrimSpace raw <> "" ->
  validate (normalize (strings.TrimSpace raw)) = Some e ->
  Add foldOrbit raw d = (d, Some e).
Proof.
  intros Hne Hv. unfold Add.
  apply eqb_empty in Hne. rewrite Hne, Hv. reflexivity.
Qed.

Lemma Add_valid (raw : string) (d : Disk) :
  strings.TrimSpace raw <> "" ->
  validate (normalize (strings.TrimSpace raw)) = None ->
  Add foldOrbit raw d
  = match Load d with
    | Failed e => (d, Some e)
    | Ok repos =>
      if existsb (fun r => EqualFold foldOrbit r (normalize (strings.TrimSpace raw))) repos
      then (d, Some ErrExists)
      else Save (repos ++ [normalize (strings.TrimSpace raw)]) d
    end.
Proof.
  intros Hne Hv. unfold Add.
  apply eqb_empty in Hne. rewrite Hne, Hv. reflexivity.
Qed.

(** [Add] saves only on its last line: whenever it answers an error
    other than the one of [Save], the disk is as it was. *)
Lemma Add_error_keeps_disk (raw : string) (d : Disk) (e : error) :
  snd (Add foldOrbit raw d) = Some e -> fst (Add foldOrbit raw d) = d.
Proof.
  unfold Add.
  destruct (String.eqb (strings.TrimSpace raw) ""); [reflexivity|].
  destruct (validate _); [reflexivity|].
  destruct (Load d) as [repos|]; [|reflexivity].
  destruct (existsb _ repos); [reflexivity|].
  unfold Save. destruct (writeError d); [reflexivity|discriminate].
Qed.


Lemma Remove_cases (raw : string) (d : Disk) (repos : list string) :
  strings.TrimSpace raw <> "" ->
  Load d = Ok repos ->
  Remove foldOrbit raw d
  = match indexWhere (fun r => EqualFold foldOrbit r (strings.TrimSpace raw)
                               || String.eqb r (strings.TrimSpace raw)) repos with
    | None => (d, Some ErrNotFound)
    | Some idx => Save (firstn idx repos ++ skipn (S idx) repos) d
    end.
Proof.
  intros Hne HL. unfold Remove.
  apply eqb_empty in Hne. rewrite Hne, HL. reflexivity.
Qed.

Local Abbreviation Add := (Add foldOrbit).
Local Abbreviation Remove := (Remove foldOrbit).
Local Abbreviation EqualFold := (EqualFold foldOrbit).

(** *** Duplicates *)


(** *** [Remove] *)

Lemma indexWhere_first {A : Type} (p : A -> bool) (pre post : list A) (x : A) :
  (forall y, In y pre -> p y = false) -> p x = true ->
  indexWhere p (pre ++ x :: post) = Some (List.length pre).
Proof.
  intros Hpre Hx. induction pre as [|y pre IH]; cbn [app indexWhere List.length].
  - rewrite Hx. reflexivity.
  - rewrite (Hpre y (or_introl eq_refl)), IH; [reflexivity|].
    intros z Hz. apply Hpre. right. exact Hz.
Qed.

Lemma indexWhere_none {A : Type} (p : A -> bool) (l : list A) :
  (forall y, In y l -> p y = false) -> indexWhere p l = None.
Proof.
  induction l as [|y l IH]; intros H; [reflexivity|]. cbn [indexWhere].
  rewrite (H y (or_introl eq_refl)), IH; [reflexivity|].
  intros z Hz. apply H. right. exact Hz.
Qed.

Lemma cut_out {A : Type} (pre post : list A) (x : A) :
  (firstn (List.length pre) (pre ++ x :: post)
   ++ skipn (S (List.length pre)) (pre ++ x :: post))%list
  = (pre ++ post)%list.
Proof.
  induction pre as [|y pre IH]; [reflexivity|].
  cbn [app List.length firstn skipn]. cbn [skipn] in IH. rewrite IH. reflexivity.
Qed.

(** C6. For an input that is not empty once trimmed, over a store that
    loads: when no stored reference matches it, up to case or exactly,
    [Remove] fails with "repo not found" and leaves the disk as it was;
    when one does, [Remove] saves the list without the first match, which
    is one shorter, and that list is what the store holds afterwards. *)
Theorem Remove_first_match (raw : string) (d : Disk) (repos : list string) :
  let repo := strings.TrimSpace raw in
  let matches := fun r => EqualFold r repo || String.eqb r repo in
  repo <> "" ->
  Load d = Ok repos ->
  ((forall r, In r repos -> matches r = false) ->
   Remove raw d = (d, Some ErrNotFound)
   /\ Load (fst (Remove raw d)) = Ok repos)
  /\ (forall pre r post,
         repos = (pre ++ r :: post)%list ->
         (forall x, In x pre -> matches x = false) ->
         matches r = true ->
         Remove raw d = Save (pre ++ post) d
         /\ S (List.length (pre ++ post)) = List.length repos
         /\ (writeError d = None ->
             snd (Remove raw d) = None
             /\ Load (fst (Remove raw d)) = Ok (map toValidUTF8 (pre ++ post))
             /\ S (List.length (map toValidUTF8 (pre ++ post)))
                = List.length repos)).
Proof.
  intros repo matches Hne HL.
  split.
  - intros Hnone. rewrite (Remove_cases raw d repos Hne HL). fold repo.
    fold matches. rewrite (indexWhere_none matches repos Hnone).
    cbn [fst]. split; [reflexivity|exact HL].
  - intros pre r post -> Hpre Hr.
    assert (HR : Remove raw d = Save (pre ++ post) d).
    { rewrite (Remove_cases raw d _ Hne HL). fold repo. fold matches.
      rewrite (indexWhere_first matches pre post r Hpre Hr), cut_out.
      reflexivity. }
    assert (Hlen : S (List.length (pre ++ post)) = List.length (pre ++ r :: post))
      by (rewrite !length_app; cbn [List.length]; lia).
    repeat split; try assumption.
    + rewrite HR. apply (Save_writable (pre ++ post) d) in H. rewrite (proj1 H).
      reflexivity.
    + rewrite HR. apply (Save_writable (pre ++ post) d) in H. apply H.
    + rewrite length_map. exact Hlen.
Qed.

(** *** The owner/repo check *)

(** C2, as the code has it.  When the part of the normalized input before
    any [#] holds no slash, [Add] fails before it reads the store and the
    disk is untouched: with "repo must be in owner/repo format" when the
    input has no [#] or its number passes, and with the error of the
    earlier check otherwise ("empty repo", "invalid format", "invalid pull
    request number").  Nothing is said of two or more slashes. *)
Theorem Add_without_slash_fails (raw : string) (d : Disk) :
  let repo := normalize (strings.TrimSpace raw) in
  let repoPortion := fst (fst (strings.Cut repo "#")) in
  let suffix := snd (fst (strings.Cut repo "#")) in
  strings.Contains repoPortion "/" = false ->
  exists e,
    Add raw d = (d, Some e)
    /\ (e = ErrOwnerRepo \/ e = ErrEmptyRepo \/ e = ErrInvalidFormat
        \/ exists numStr, e = ErrInvalidNumber numStr)
    /\ (strings.TrimSpace raw <> "" -> strings.Contains repo "#" = false ->
        e = ErrOwnerRepo)
    /\ (forall n, strings.TrimSpace repoPortion <> "" ->
                  strconv.Atoi (strings.TrimSpace suffix) = Some n ->
                  e = ErrOwnerRepo).
Proof.
  intros repo repoPortion suffix Hslash.
  destruct (String.eqb (strings.TrimSpace raw) "") eqn:E.
  { apply String.eqb_eq in E. exists ErrEmptyRepo.
    split; [apply Add_empty; exact E|]. split; [tauto|].
    split; [contradiction|].
    intros n _. unfold suffix, repo. rewrite E. discriminate. }
  apply eqb_empty in E.
  destruct (strings.Contains repo "#") eqn:Hh.
  - destruct (Contains_byte_split _ _ Hh) as (rp & sfx & Hrepo & Hrp).
    assert (Hcut : strings.Cut repo "#" = (rp, sfx, true)).
    { rewrite Hrepo. apply Cut_byte. exact Hrp. }
    assert (Hpart : repoPortion = rp) by (unfold repoPortion; rewrite Hcut; reflexivity).
    assert (Hsfx : suffix = sfx) by (unfold suffix; rewrite Hcut; reflexivity).
    rewrite Hpart in Hslash. rewrite Hpart, Hsfx. clear Hcut Hpart Hsfx.
    pose proof (TrimSpace_keeps_absent _ _ Hslash) as Hts.
    pose proof (validate_numbered rp sfx Hrp) as Hv.
    change (rp ++ "#" ++ sfx) with (rp ++ String "#" sfx) in Hv.
    rewrite <- Hrepo in Hv. cbv zeta in Hv. rewrite Hts in Hv.
    destruct (String.eqb (strings.TrimSpace rp) "") eqn:Erp.
    { exists ErrInvalidFormat. split; [apply Add_invalid; assumption|].
      split; [tauto|]. split; [discriminate|].
      intros n Hne. apply String.eqb_eq in Erp. contradiction. }
    destruct (String.eqb (strings.TrimSpace sfx) "") eqn:Esfx.
    { exists ErrInvalidFormat. split; [apply Add_invalid; assumption|].
      split; [tauto|]. split; [discriminate|].
      intros n _. apply String.eqb_eq in Esfx. rewrite Esfx. discriminate. }
    cbn [orb] in Hv.
    destruct (strconv.Atoi (strings.TrimSpace sfx)).
    + exists ErrOwnerRepo. split; [apply Add_invalid; assumption|].
      split; [tauto|]. split; reflexivity.
    + exists (ErrInvalidNumber (strings.TrimSpace sfx)).
      split; [apply Add_invalid; assumption|].
      split; [right; right; right; eexists; reflexivity|].
      split; discriminate.
  - assert (Hcut : strings.Cut repo "#" = (repo, "", false))
      by (apply Cut_byte_none; exact Hh).
    assert (Hpart : repoPortion = repo) by (unfold repoPortion; rewrite Hcut; reflexivity).
    rewrite Hpart in Hslash.
    exists ErrOwnerRepo. split; [|split; [tauto|split; reflexivity]].
    apply Add_invalid; [exact E|].
    fold repo. rewrite validate_plain, Hslash by exact Hh. reflexivity.
Qed.

(** *** The number after [#] *)

(** C3, as the code has it.  For an input of the form [rp#sfx] that does
    not look like a URL: [Add] succeeds only if the trimmed suffix parses
    as an integer ([strconv.Atoi]); a non-empty suffix that does not parse
    is refused with "invalid pull request number" and the disk is
    untouched; and any suffix that parses, whatever its sign, passes the
    check, so that the reference is saved when it has a slash and is
    new. *)
Theorem Add_numbered (raw rp sfx : string) (d : Disk) :
  let repo := strings.TrimSpace raw in
  let numStr := strings.TrimSpace sfx in
  repo = rp ++ "#" ++ sfx ->
  strings.Contains rp "#" = false ->
  looksLikeURL repo = false ->
  (snd (Add raw d) = None -> exists n, strconv.Atoi numStr = Some n)
  /\ (strings.TrimSpace rp <> "" -> numStr <> "" ->
      strconv.Atoi numStr = None ->
      Add raw d = (d, Some (ErrInvalidNumber numStr)))
  /\ (forall n repos,
         strconv.Atoi numStr = Some n ->
         strings.Contains (strings.TrimSpace rp) "/" = true ->
         Load d = Ok repos ->
         existsb (fun r => EqualFold r repo) repos = false ->
         Add raw d = Save (repos ++ [repo]) d).
Proof.
  intros repo numStr Hrepo Hrp Hurl.
  assert (Hnorm : normalize repo = repo) by (unfold normalize; rewrite Hurl; reflexivity).
  assert (Hne : repo <> "") by (rewrite Hrepo; destruct rp; discriminate).
  pose proof (validate_numbered rp sfx Hrp) as Hv.
  rewrite <- Hrepo in Hv. cbv zeta in Hv. fold numStr in Hv.
  split; [|split].
  - intros Hok.
    destruct (strconv.Atoi numStr) as [n|] eqn:Ha; [exists n; reflexivity|].
    exfalso.
    destruct (validate repo) as [e|] eqn:He.
    + rewrite (Add_invalid raw d e) in Hok; [discriminate|exact Hne|].
      fold repo. rewrite Hnorm. exact He.
    + destruct (String.eqb (strings.TrimSpace rp) "" || String.eqb numStr "");
        discriminate.
  - intros Hp Hn Ha. apply Add_invalid; [exact Hne|].
    fold repo. rewrite Hnorm, Hv.
    apply eqb_empty in Hp. apply eqb_empty in Hn. rewrite Hp, Hn, Ha. reflexivity.
  - intros n repos Ha Hslash HL Hnew.
    assert (Hp : String.eqb (strings.TrimSpace rp) "" = false).
    { destruct (strings.TrimSpace rp); [discriminate|reflexivity]. }
    assert (Hn : String.eqb numStr "" = false).
    { destruct numStr; [discriminate|reflexivity]. }
    rewrite Add_valid.
    + fold repo. rewrite Hnorm, HL, Hnew. reflexivity.
    + exact Hne.
    + fold repo. rewrite Hnorm, Hv, Hp, Hn, Ha, Hslash. reflexivity.
Qed.

End StoreFacts.

(** C2, as stated, fails: three segments are accepted. *)
Lemma Add_two_slashes_accepted :
  normalize (strings.TrimSpace "a/b/c") = "a/b/c"
  /\ strings.CountByte "a/b/c" "/"%char = 2%nat
  /\ Add asciiFold "a/b/c" (mkDisk Absent None)
     = (mkDisk (Array ["a/b/c"]) None, None).
Proof. vm_compute. repeat split. Qed.

(** C3, as stated, fails: a negative number is accepted. *)
Lemma Add_negative_number_accepted :
  strconv.Atoi "-5" = Some (-5)
  /\ Add asciiFold "owner/name#-5" (mkDisk Absent None)
     = (mkDisk (Array ["owner/name#-5"]) None, None).
Proof. vm_compute. repeat split. Qed.


Lemma Remove_first_match_witness :
  let repos := ["x/y"; "owner/name"; "OWNER/NAME"] in
  let d := mkDisk (Array repos) None in
  (Remove asciiFold "zzz" d = (d, Some ErrNotFound))
  /\ (Remove asciiFold " Owner/Name" d = Save ["x/y"; "OWNER/NAME"] d
      /\ Load (fst (Remove asciiFold " Owner/Name" d)) = Ok ["x/y"; "OWNER/NAME"]).
Proof.
  intros repos d. split.
  - refine (proj1 (proj1 (Remove_first_match asciiFold "zzz" d repos _ _) _)).
    + vm_compute. discriminate.
    + reflexivity.
    + intros r [<-|[<-|[<-|[]]]]; vm_compute; reflexivity.
  - destruct (proj2 (Remove_first_match asciiFold " Owner/Name" d repos
                       ltac:(vm_compute; discriminate) eq_refl)
                    ["x/y"] "owner/name" ["OWNER/NAME"] eq_refl)
      as (HR & _ & Hw).
    + intros x [<-|[]]. vm_compute. reflexivity.
    + vm_compute. reflexivity.
    + split; [exact HR|]. destruct (Hw eq_refl) as (_ & HLoad & _). exact HLoad.
Defined.

Lemma Add_without_slash_fails_witness :
  let d := mkDisk (Array ["x/y"]) None in
  strings.Contains (fst (fst (strings.Cut (normalize (strings.TrimSpace "foo")) "#")))
                   "/" = false
  /\ Add asciiFold "foo" d = (d, Some ErrOwnerRepo).
Proof.
  intros d.
  assert (H : strings.Contains
                (fst (fst (strings.Cut (normalize (strings.TrimSpace "foo")) "#")))
                "/" = false) by (vm_compute; reflexivity).
  split; [exact H|].
  destruct (Add_without_slash_fails asciiFold "foo" d H) as (e & HA & _ & He & _).
  rewrite HA. f_equal. f_equal.
  apply He; [vm_compute; discriminate|vm_compute; reflexivity].
Defined.

Lemma Add_numbered_witness :
  let d := mkDisk (Array ["x/y"]) None in
  (strings.TrimSpace "owner/name#abc" = "owner/name" ++ "#" ++ "abc"
   /\ strings.Contains "owner/name" "#" = false
   /\ looksLikeURL (strings.TrimSpace "owner/name#abc") = false)
  /\ Add asciiFold "owner/name#abc" d = (d, Some (ErrInvalidNumber "abc"))
  /\ Add asciiFold "owner/name#-5" d = Save ["x/y"; "owner/name#-5"] d.
Proof.
  intros d.
  assert (H1 : strings.TrimSpace "owner/name#abc" = "owner/name" ++ "#" ++ "abc")
    by (vm_compute; reflexivity).
  assert (H2 : strings.Contains "owner/name" "#" = false) by (vm_compute; reflexivity).
  assert (H3 : looksLikeURL (strings.TrimSpace "owner/name#abc") = false)
    by (vm_compute; reflexivity).
  split; [repeat split; assumption|]. split.
  - apply (proj1 (proj2 (Add_numbered asciiFold "owner/name#abc" "owner/name" "abc" d
                           H1 H2 H3)));
      [vm_compute; discriminate|vm_compute; discriminate|vm_compute; reflexivity].
  - apply (proj2 (proj2 (Add_numbered asciiFold "owner/name#-5" "owner/name" "-5" d
                           ltac:(vm_compute; reflexivity) H2
                           ltac:(vm_compute; reflexivity)))
             (-5) ["x/y"]);
      vm_compute; reflexivity.
Defined.

(** ** URLs *)

Module url_facts.
Import strings strings_facts url.

Lemma ord_inj (c d : ascii) : ord c = ord d -> c = d.
Proof. intros H. rewrite <- (chr_ord c), <- (chr_ord d), H. reflexivity. Qed.

Lemma ord_eqb (c d : ascii) : (ord c =? ord d) = Ascii.eqb c d.
Proof.
  destruct (Ascii.eqb_spec c d) as [->|Hne].
  - apply Z.eqb_refl.
  - apply Z.eqb_neq. intros H. apply Hne, ord_inj, H.
Qed.

Lemma CTL_append (s t : string) :
  stringContainsCTLByte (s ++ t)
  = stringContainsCTLByte s || stringContainsCTLByte t.
Proof.
  unfold stringContainsCTLByte.
  induction s as [|c s IH]; [reflexivity|].
  cbn [append list_ascii_of_string existsb]. rewrite IH. apply orb_assoc.
Qed.

Lemma CountByte_absent (c : ascii) (s : string) :
  Contains s (String c "") = false -> CountByte s c = 0%nat.
Proof.
  induction s as [|d s IH]; [reflexivity|].
  rewrite Contains_byte_cons. intros H. apply orb_false_elim in H.
  destruct H as [Hd Hs]. cbn [CountByte].
  rewrite Ascii.eqb_sym, Hd, (IH Hs). reflexivity.
Qed.

(** A path without [%] is its own unescaping. *)
Lemma unescape_plain (s : string) (mode : encoding) :
  mode = encodePath \/ mode = encodeFragment \/ mode = encodeUserPassword ->
  Contains s "%" = false -> unescape s mode = Some s.
Proof.
  intros Hmode H. unfold unescape.
  assert (Hc : unescapeCheck mode s = true /\ unescapeBytes s = s).
  { induction s as [|c s IH]; [split; reflexivity|].
    change "%" with (String "%"%char "") in H.
    rewrite Contains_byte_cons in H. apply orb_false_elim in H.
    destruct H as [Hc Hs]. destruct (IH Hs) as [IH1 IH2].
    cbn [unescapeCheck unescapeBytes].
    change 37 with (ord "%"%char).
    rewrite ord_eqb, Ascii.eqb_sym, Hc, IH2.
    split; [|reflexivity].
    destruct (ord c =? 43);
      destruct Hmode as [->|[->| ->]]; exact IH1. }
  destruct Hc as [-> ->]. reflexivity.
Qed.

Lemma getScheme_https (t : string) :
  getScheme ("https:" ++ t) = Some ("https", t).
Proof. reflexivity. Qed.

(** [url.Parse] on a GitHub URL whose path needs no escaping. *)
Lemma Parse_github (p : string) :
  stringContainsCTLByte p = false ->
  Contains p "#" = false ->
  Contains p "?" = false ->
  Contains p "%" = false ->
  Parse ("https://github.com/" ++ p)
  = Some (mkURL "https" "" "github.com" ("/" ++ p) false "" "").
Proof.
  intros Hctl Hhash Hq Hpct. unfold Parse.
  assert (Hh : Contains ("https://github.com/" ++ p) "#" = false).
  { change "#" with (String "#"%char ""). rewrite Contains_byte_append.
    change (String "#"%char "") with "#". rewrite Hhash. reflexivity. }
  change "#" with (String "#"%char "").
  rewrite Cut_byte_none by exact Hh.
  unfold parse.
  rewrite CTL_append, Hctl.
  change (stringContainsCTLByte "https://github.com/" || false) with false.
  cbv iota.
  change (String.eqb ("https://github.com/" ++ p) "*") with false.
  cbv iota.
  change ("https://github.com/" ++ p) with ("https:" ++ ("//github.com/" ++ p)).
  rewrite getScheme_https.
  change (lower "https") with "https".
  change (negb (String.eqb "https" "")) with true.
  cbv zeta.
  assert (Hq' : Contains ("//github.com/" ++ p) "?" = false).
  { change "?" with (String "?"%char ""). rewrite Contains_byte_append.
    change (String "?"%char "") with "?". rewrite Hq. reflexivity. }
  rewrite CountByte_absent by exact Hq'.
  change (Nat.eqb 0 1) with false. rewrite andb_false_r.
  change "?" with (String "?"%char "").
  rewrite Cut_byte_none by exact Hq'.
  change (HasPrefix ("//github.com/" ++ p) "/") with true.
  change (HasPrefix ("//github.com/" ++ p) "//") with true.
  cbn [negb andb orb].
  change (drop 2 ("//github.com/" ++ p)) with ("github.com" ++ String "/" p).
  change "/" with (String "/"%char "").
  rewrite Index_byte_first by reflexivity.
  rewrite take_append, drop_append.
  change (parseAuthority "github.com") with true. cbn [negb].
  rewrite unescape_plain; [reflexivity|tauto|].
  change "%" with (String "%"%char ""). rewrite Contains_byte_cons.
  change "%" with (String "%"%char "") in Hpct. rewrite Hpct. reflexivity.
Qed.


(** *** Path segments *)

Lemma allBytes_append (p : ascii -> bool) (s t : string) :
  allBytes p (s ++ t) = allBytes p s && allBytes p t.
Proof.
  induction s as [|c s IH]; [reflexivity|].
  cbn [append allBytes]. rewrite IH. apply andb_assoc.
Qed.

Lemma allBytes_impl (p q : ascii -> bool) (s : string) :
  (forall c, p c = true -> q c = true) ->
  allBytes p s = true -> allBytes q s = true.
Proof.
  intros Hpq. induction s as [|c s IH]; [reflexivity|].
  cbn [allBytes]. intros H. apply andb_prop in H. destruct H as [Hc Hs].
  rewrite (Hpq c Hc), (IH Hs). reflexivity.
Qed.

Lemma allBytes_rev (p : ascii -> bool) (s : string) :
  allBytes p (rev s) = allBytes p s.
Proof.
  induction s as [|c s IH]; [reflexivity|].
  rewrite rev_cons, allBytes_append, IH. cbn [allBytes].
  rewrite andb_true_r. apply andb_comm.
Qed.

Lemma allBytes_absent (p : ascii -> bool) (x : ascii) (s : string) :
  p x = false -> allBytes p s = true -> Contains s (String x "") = false.
Proof.
  intros Hx. induction s as [|c s IH]; [reflexivity|].
  cbn [allBytes]. intros H. apply andb_prop in H. destruct H as [Hc Hs].
  rewrite Contains_byte_cons, (IH Hs), orb_false_r.
  apply Ascii.eqb_neq. intros ->. congruence.
Qed.

Lemma allBytes_no_CTL (p : ascii -> bool) (s : string) :
  (forall c, p c = true -> visible c = true) ->
  allBytes p s = true -> stringContainsCTLByte s = false.
Proof.
  intros Hp. unfold stringContainsCTLByte.
  induction s as [|c s IH]; [reflexivity|].
  cbn [allBytes list_ascii_of_string existsb]. intros H.
  apply andb_prop in H. destruct H as [Hc Hs]. rewrite (IH Hs), orb_false_r.
  apply Hp in Hc. unfold visible in Hc. apply andb_prop in Hc.
  destruct Hc as [H1 H2]. apply Z.leb_le in H1. apply Z.leb_le in H2.
  destruct (Z.ltb_spec (ord c) 32); [lia|].
  destruct (Z.eqb_spec (ord c) 127); [lia|reflexivity].
Qed.

Lemma segmentByte_visible (c : ascii) : segmentByte c = true -> visible c = true.
Proof. unfold segmentByte. intros H. apply andb_prop in H. apply H. Qed.

Lemma segment_parts (s : string) :
  segment s = true -> s <> "" /\ allBytes segmentByte s = true.
Proof.
  unfold segment. intros H. apply andb_prop in H. destruct H as [H1 H2].
  split; [|exact H2]. apply negb_true_iff, String.eqb_neq in H1. exact H1.
Qed.

(** The first and the last byte of a non-empty string. *)
Lemma ends_of (p : ascii -> bool) (s : string) :
  s <> "" -> allBytes p s = true ->
  match s with String c _ => p c | EmptyString => false end = true
  /\ match rev s with String d _ => p d | EmptyString => false end = true.
Proof.
  intros Hne Hall. split.
  - destruct s as [|c s]; [contradiction|]. cbn [allBytes] in Hall.
    apply andb_prop in Hall. apply Hall.
  - rewrite <- allBytes_rev in Hall.
    destruct (rev s) as [|d r] eqn:Hr.
    + apply (f_equal rev) in Hr. rewrite rev_involutive in Hr. contradiction.
    + cbn [allBytes] in Hall. apply andb_prop in Hall. apply Hall.
Qed.

Lemma ends_append (p : ascii -> bool) (s t : string) :
  match s with String c _ => p c | EmptyString => false end = true ->
  match rev t with String d _ => p d | EmptyString => false end = true ->
  match s ++ t with String c _ => p c | EmptyString => false end = true
  /\ match rev (s ++ t) with String d _ => p d | EmptyString => false end = true.
Proof.
  intros Hs Ht. split.
  - destruct s; [discriminate|exact Hs].
  - rewrite rev_append. destruct (rev t); [discriminate|exact Ht].
Qed.

(** *** [Trim] and [Split] on a path *)

Lemma TrimLeftByte_stop (s : string) (c : ascii) :
  match s with String d _ => negb (Ascii.eqb d c) | EmptyString => false end = true ->
  TrimLeftByte s c = s.
Proof.
  destruct s as [|d s]; [discriminate|]. cbn [TrimLeftByte].
  intros H. apply negb_true_iff in H. rewrite H. reflexivity.
Qed.

Lemma TrimByte_path (s : string) (c : ascii) :
  match s with String d _ => negb (Ascii.eqb d c) | EmptyString => false end = true ->
  match rev s with String d _ => negb (Ascii.eqb d c) | EmptyString => false end = true ->
  TrimByte (String c s) c = s.
Proof.
  intros Hfirst Hlast. unfold TrimByte, TrimRightByte.
  rewrite rev_cons.
  assert (H : TrimLeftByte (rev s ++ String c "") c = rev s ++ String c "").
  { destruct (rev s) as [|d r]; [discriminate|].
    apply TrimLeftByte_stop. exact Hlast. }
  rewrite H, <- rev_cons, rev_involutive. cbn [TrimLeftByte].
  rewrite Ascii.eqb_refl. apply TrimLeftByte_stop. exact Hfirst.
Qed.

Lemma SplitByte_last (s : string) (c : ascii) :
  Contains s (String c "") = false -> SplitByte s c = [s].
Proof.
  induction s as [|d s IH]; [reflexivity|].
  rewrite Contains_byte_cons. intros H. apply orb_false_elim in H.
  destruct H as [Hd Hs]. cbn [SplitByte].
  rewrite Ascii.eqb_sym, Hd, (IH Hs). reflexivity.
Qed.

Lemma SplitByte_segment (s t : string) (c : ascii) :
  Contains s (String c "") = false ->
  SplitByte (s ++ String c t) c = s :: SplitByte t c.
Proof.
  induction s as [|d s IH].
  - intros _. cbn [append SplitByte]. rewrite Ascii.eqb_refl. reflexivity.
  - rewrite Contains_byte_cons. intros H. apply orb_false_elim in H.
    destruct H as [Hd Hs]. cbn [append SplitByte].
    rewrite Ascii.eqb_sym, Hd, (IH Hs). reflexivity.
Qed.


(** *** Numbers *)


Lemma Atoi_cons (c : ascii) (s : string) :
  strconv.Atoi (String c s)
  = let neg := Ascii.eqb c "-" in
    let body := if Ascii.eqb c "-" || Ascii.eqb c "+" then s else String c s in
    match body with
    | EmptyString => None
    | _ =>
      match strconv.digits body 0 with
      | None => None
      | Some un =>
        let n := if neg then - un else un in
        if (- 2 ^ (strconv.intSize - 1) <=? n) && (n <=? 2 ^ (strconv.intSize - 1) - 1)
        then Some n else None
      end
    end.
Proof.
  destruct c as [[] [] [] [] [] [] [] []]; reflexivity.
Qed.



(** *** What the JSON file keeps of ASCII text *)

Lemma EncodeRune_ascii (c : ascii) :
  ord c < 128 -> utf8.EncodeRune (ord c) = String c "".
Proof.
  intros H. pose proof (ord_range c) as Hc. unfold utf8.EncodeRune.
  rewrite utf8_facts.ValidRune_intro by lia.
  destruct (Z.leb_spec (ord c) 127); [|lia].
  rewrite chr_ord. reflexivity.
Qed.

Lemma toValidUTF8_ascii (s : string) :
  allBytes (fun c => ord c <? 128) s = true -> toValidUTF8 s = s.
Proof.
  unfold toValidUTF8. induction s as [|c s IH]; [reflexivity|].
  cbn [allBytes]. intros H. apply andb_prop in H. destruct H as [Hc Hs].
  apply Z.ltb_lt in Hc.
  rewrite utf8_facts.runes_cons, utf8_facts.decode_1 by exact Hc.
  cbn [fst snd drop utf8.encode]. rewrite EncodeRune_ascii by exact Hc.
  cbn [append]. rewrite (IH Hs). reflexivity.
Qed.



(** *** [normalize] on GitHub URLs *)

Lemma segmentByte_not (x : ascii) :
  url.oneOf (ord x) "/#?%" = true -> segmentByte x = false.
Proof. unfold segmentByte. intros ->. apply andb_false_r. Qed.

Lemma segment_absent (x : ascii) (s : string) :
  url.oneOf (ord x) "/#?%" = true -> allBytes segmentByte s = true ->
  Contains s (String x "") = false.
Proof. intros Hx. apply allBytes_absent, segmentByte_not, Hx. Qed.

Lemma segment_first_last (s : string) (c : ascii) :
  segment s = true -> url.oneOf (ord c) "/#?%" = true ->
  match s with String d _ => negb (Ascii.eqb d c) | EmptyString => false end = true
  /\ match rev s with String d _ => negb (Ascii.eqb d c) | EmptyString => false end = true.
Proof.
  intros Hs Hc. destruct (segment_parts s Hs) as [Hne Hall].
  apply ends_of; [exact Hne|].
  apply (allBytes_impl segmentByte); [|exact Hall].
  intros d Hd. apply negb_true_iff, Ascii.eqb_neq. intros ->.
  rewrite (segmentByte_not c Hc) in Hd. discriminate.
Qed.

Lemma HasPrefix_append (p t : string) : HasPrefix (p ++ t) p = true.
Proof.
  unfold HasPrefix. induction p as [|c p IH]; [destruct t; reflexivity|].
  cbn [append String.prefix]. destruct (ascii_dec c c); [exact IH|congruence].
Qed.

Lemma looksLikeURL_https (t : string) : looksLikeURL ("https://" ++ t) = true.
Proof.
  unfold looksLikeURL. rewrite (HasPrefix_append "https://" t).
  apply orb_true_r.
Qed.

Lemma pathByte_segment (s : string) :
  allBytes segmentByte s = true -> allBytes pathByte s = true.
Proof.
  apply allBytes_impl. intros c H. unfold pathByte. rewrite H. reflexivity.
Qed.

Lemma Parse_github_path (p : string) :
  allBytes pathByte p = true ->
  Parse ("https://github.com/" ++ p)
  = Some (mkURL "https" "" "github.com" ("/" ++ p) false "" "").
Proof.
  intros H. apply Parse_github.
  - apply (allBytes_no_CTL pathByte); [|exact H].
    intros c Hc. unfold pathByte in Hc. apply orb_prop in Hc.
    destruct Hc as [Hc|Hc]; [apply segmentByte_visible, Hc|].
    apply Ascii.eqb_eq in Hc. subst c. reflexivity.
  - apply (allBytes_absent pathByte "#"%char); [reflexivity|exact H].
  - apply (allBytes_absent pathByte "?"%char); [reflexivity|exact H].
  - apply (allBytes_absent pathByte "%"%char); [reflexivity|exact H].
Qed.


Lemma normalize_repo_URL (owner name : string) :
  segment owner = true -> segment name = true ->
  normalize ("https://github.com/" ++ owner ++ "/" ++ name) = owner ++ "/" ++ name.
Proof.
  intros Ho Hn.
  destruct (segment_parts _ Ho) as [_ Hob].
  destruct (segment_parts _ Hn) as [_ Hnb].
  unfold normalize.
  change ("https://github.com/" ++ owner ++ "/" ++ name)
    with ("https://" ++ "github.com/" ++ owner ++ "/" ++ name).
  rewrite looksLikeURL_https.
  change ("https://" ++ "github.com/" ++ owner ++ "/" ++ name)
    with ("https://github.com/" ++ (owner ++ "/" ++ name)).
  rewrite Parse_github_path.
  2:{ rewrite !allBytes_append, (pathByte_segment owner Hob),
        (pathByte_segment name Hnb).
      reflexivity. }
  cbn [Path append].
  assert (Hends :
             match owner ++ "/" ++ name with
             | String d _ => negb (Ascii.eqb d "/")
             | EmptyString => false
             end = true
             /\ match rev (owner ++ "/" ++ name) with
                | String d _ => negb (Ascii.eqb d "/")
                | EmptyString => false
                end = true).
  { apply ends_append.
    - apply (segment_first_last owner "/"%char Ho). reflexivity.
    - rewrite rev_append.
      destruct (segment_first_last name "/"%char Hn eq_refl) as [_ Hl].
      destruct (rev name); [discriminate|exact Hl]. }
  destruct Hends as [Hf Hl]. cbn [append] in Hf, Hl.
  rewrite (TrimByte_path _ "/"%char Hf Hl).
  rewrite SplitByte_segment by (apply segment_absent; [reflexivity|exact Hob]).
  rewrite SplitByte_last by (apply segment_absent; [reflexivity|exact Hnb]).
  reflexivity.
Qed.


(** *** The checks pass on what [normalize] builds *)

Lemma TrimSpace_segments (s t u : string) :
  segment s = true -> segment u = true -> strings.TrimSpace (s ++ t ++ u) = s ++ t ++ u.
Proof.
  intros Hs Hu.
  destruct (segment_parts _ Hs) as [Hs1 Hs2].
  destruct (segment_parts _ Hu) as [Hu1 Hu2].
  apply (allBytes_impl _ _ _ segmentByte_visible) in Hs2.
  apply (allBytes_impl _ _ _ segmentByte_visible) in Hu2.
  destruct (ends_of visible s Hs1 Hs2) as [Hf _].
  destruct (ends_of visible u Hu1 Hu2) as [_ Hl].
  apply TrimSpace_visible_ends.
  - destruct s; [discriminate|exact Hf].
  - rewrite !rev_append. destruct (rev u); [discriminate|exact Hl].
Qed.





End url_facts.

Import url_facts.

Section NormalizeFacts.

Variable foldOrbit : Z -> Z -> bool.

Local Abbreviation Add := (Add foldOrbit).
Local Abbreviation EqualFold := (EqualFold foldOrbit).





End NormalizeFacts.



(** A fragment is not the number of a pull request: such a URL is kept
    as it is and then refused by the check on what follows [#]. *)
Example Add_pull_URL_with_fragment :
  Add asciiFold "https://github.com/owner/name/pull/abc#frag" (mkDisk Absent None)
  = (mkDisk Absent None, Some (ErrInvalidNumber "frag")).
Proof. vm_compute. reflexivity. Qed.

(** ** Fetcher *)

Section FetcherFacts.

Variable Do : Request -> result Response.
Variable decodePR : string -> result PullRequest.
Variable decodePRs : string -> result (list PullRequest).

(** [fetchPRs] once the reference is taken apart. *)
Lemma fetchPRs_target
    (repo token repoPart owner name : string) (singlePR : bool) (prNumber : Z) :
  target repo = (repoPart, singlePR, prNumber) ->
  strings.SplitN2 repoPart "/" = [owner; name] ->
  fetchPRs Do decodePR decodePRs repo token
  = roundTrip Do decodePR decodePRs
      (if singlePR then
         "https://api.github.com/repos/" ++ owner ++ "/" ++ name ++ "/pulls/"
           ++ strconv.Itoa prNumber
       else
         "https://api.github.com/repos/" ++ owner ++ "/" ++ name
           ++ "/pulls?state=open")
      singlePR token.
Proof. intros Ht Hs. unfold fetchPRs. rewrite Ht, Hs. reflexivity. Qed.

Lemma goroutine_Repo (token r : string) (res : PRResult) :
  goroutine Do decodePR decodePRs token r = Some res -> Repo res = r.
Proof.
  unfold goroutine.
  destruct (fetchPRs Do decodePR decodePRs r token) as [[prs|e]|];
    intros H; inversion H; reflexivity.
Qed.

Lemma goroutine_Panics (token r : string) :
  fetchPRs Do decodePR decodePRs r token = Panics ->
  goroutine Do decodePR decodePRs token r = None.
Proof. intros H. unfold goroutine. rewrite H. reflexivity. Qed.

Lemma goroutine_Returns (token r : string) (x : result (list PullRequest)) :
  fetchPRs Do decodePR decodePRs r token = Returns x ->
  goroutine Do decodePR decodePRs token r = Some (resultOf r x).
Proof. intros H. unfold goroutine. rewrite H. reflexivity. Qed.

Lemma sendAll_cons (token r : string) (rest : list string) :
  sendAll Do decodePR decodePRs token (r :: rest)
  = match goroutine Do decodePR decodePRs token r with
    | None => None
    | Some res =>
      match sendAll Do decodePR decodePRs token rest with
      | None => None
      | Some results => Some (res :: results)
      end
    end.
Proof. reflexivity. Qed.

Lemma accounted_Live (token : string) (repos : list string) (p : Pool) :
  accounted Do decodePR decodePRs token repos (Live p)
  = Permutation
      (map (goroutine Do decodePR decodePRs token) (queued p ++ running p)
         ++ map Some (ch p))
      (map (goroutine Do decodePR decodePRs token) repos).
Proof. reflexivity. Qed.

Lemma accounted_Crashed (token : string) (repos : list string) :
  accounted Do decodePR decodePRs token repos Crashed.
Proof. exact I. Qed.

Local Abbreviation fetchPRs := (fetchPRs Do decodePR decodePRs).
Local Abbreviation roundTrip := (roundTrip Do decodePR decodePRs).
Local Abbreviation goroutine := (goroutine Do decodePR decodePRs).
Local Abbreviation steps := (steps Do decodePR decodePRs).
Local Abbreviation step := (step Do decodePR decodePRs).
Local Abbreviation sendAll := (sendAll Do decodePR decodePRs).





(** ** Aggregator *)

Lemma steps_trans (token : string) (s1 s2 s3 : state) :
  steps token s1 s2 -> steps token s2 s3 -> steps token s1 s3.
Proof.
  induction 1 as [|? ? ? Hstep _ IH]; [auto|].
  intros H. eapply steps_cons; [exact Hstep|]. apply IH, H.
Qed.

Local Abbreviation accounted := (accounted Do decodePR decodePRs).

(** No step loses or repeats a reference. *)
Lemma step_accounted (token : string) (repos : list string) (s1 s2 : state) :
  step token s1 s2 -> accounted token repos s1 -> accounted token repos s2.
Proof.
  intros Hstep. destruct Hstep as [r q run c|r res q run1 run2 c Hres|];
    [| |intros _; apply accounted_Crashed];
    rewrite !accounted_Live; cbn [queued running ch].
  - intros H. eapply Permutation_trans; [|exact H].
    apply Permutation_app_tail, Permutation_map.
    rewrite (app_assoc q run [r]). symmetry. apply (Permutation_cons_append (q ++ run) r).
  - intros H. eapply Permutation_trans; [|exact H].
    rewrite (map_app Some c [res]).
    change (map Some [res]) with [Some res].
    eapply Permutation_trans.
    { rewrite (app_assoc _ (map Some c) [Some res]). symmetry.
      apply Permutation_cons_append. }
    rewrite <- Hres.
    change (goroutine token r
              :: map (goroutine token) (q ++ run1 ++ run2) ++ map Some c)
      with ((goroutine token r :: map (goroutine token) (q ++ run1 ++ run2))
              ++ map Some c)%list.
    apply Permutation_app_tail.
    change (goroutine token r :: map (goroutine token) (q ++ run1 ++ run2))
      with (map (goroutine token) (r :: q ++ run1 ++ run2)).
    apply Permutation_map.
    rewrite (app_assoc q run1 run2), (app_assoc q run1 (r :: run2)).
    apply Permutation_middle.
Qed.

Lemma steps_accounted (token : string) (repos : list string) (s1 s2 : state) :
  steps token s1 s2 -> accounted token repos s1 -> accounted token repos s2.
Proof.
  induction 1 as [|? ? ? Hstep _ IH]; [auto|].
  intros H. apply IH. eapply step_accounted; eassumption.
Qed.


Lemma sent_in_order (token : string) (results : list PRResult) (order : list string) :
  map Some results = map (goroutine token) order ->
  sendAll token order = Some results /\ map Repo results = order.
Proof.
  revert results. induction order as [|r order IH]; intros [|res results] H;
    try discriminate; [split; reflexivity|].
  cbn [map] in H. injection H as Hr Hrest.
  destruct (IH results Hrest) as [IH1 IH2].
  rewrite sendAll_cons. cbn [map]. rewrite <- Hr, IH1, IH2.
  rewrite (goroutine_Repo token r res (eq_sym Hr)). split; reflexivity.
Qed.

(** Every run of the fan-out that reaches the end has collected, in some
    order, exactly what the goroutines of the references send: one result
    per reference, none left out and none twice. *)
Theorem fan_out_collects (token : string) (repos : list string)
    (results : list PRResult) :
  steps token (started repos) (collected results) ->
  Permutation (map Some results) (map (goroutine token) repos)
  /\ List.length results = List.length repos
  /\ Permutation (map Repo results) repos
  /\ exists order, Permutation repos order /\ sendAll token order = Some results.
Proof.
  intros Hrun.
  assert (H : Permutation (map Some results) (map (goroutine token) repos)).
  { apply (steps_accounted token repos) in Hrun.
    - unfold collected in Hrun. rewrite accounted_Live in Hrun. exact Hrun.
    - unfold started. rewrite accounted_Live. cbn [queued running ch map].
      rewrite !app_nil_r. reflexivity. }
  destruct (Permutation_map_inv _ _ H) as (order & Hmap & Hperm).
  destruct (sent_in_order token results order Hmap) as [Hsend Hrepo].
  repeat split.
  - exact H.
  - apply Permutation_length in H. rewrite !length_map in H. exact H.
  - rewrite Hrepo. symmetry. exact Hperm.
  - exists order. split; assumption.
Qed.

Lemma steps_go_all (token : string) (q run : list string) (c : list PRResult) :
  steps token (Live (mkPool q run c)) (Live (mkPool [] (run ++ q) c)).
Proof.
  revert run. induction q as [|r q IH]; intros run.
  - rewrite app_nil_r. apply steps_refl.
  - eapply steps_cons; [apply step_go|].
    replace (run ++ r :: q)%list with ((run ++ [r]) ++ q)%list
      by (rewrite <- app_assoc; reflexivity).
    apply IH.
Qed.

Lemma steps_send_all (token : string) (order run : list string)
    (c results : list PRResult) :
  Permutation run order ->
  sendAll token order = Some results ->
  steps token (Live (mkPool [] run c)) (Live (mkPool [] [] (c ++ results))).
Proof.
  revert run c results. induction order as [|r order IH]; intros run c results Hp Hs.
  - apply Permutation_sym, Permutation_nil in Hp. subst run. injection Hs as <-.
    rewrite app_nil_r. apply steps_refl.
  - rewrite sendAll_cons in Hs.
    destruct (goroutine token r) as [res|] eqn:Hr; [|discriminate].
    destruct (sendAll token order) as [rest|] eqn:Hrest; [|discriminate].
    injection Hs as <-.
    assert (Hin : In r run).
    { apply (Permutation_in r (Permutation_sym Hp)). left. reflexivity. }
    destruct (in_split _ _ Hin) as (run1 & run2 & ->).
    eapply steps_cons; [apply (step_send _ _ _ token r res); exact Hr|].
    replace (c ++ res :: rest)%list with ((c ++ [res]) ++ rest)%list
      by (rewrite <- app_assoc; reflexivity).
    apply IH; [|reflexivity].
    apply Permutation_cons_inv with (a := r).
    eapply Permutation_trans; [apply Permutation_middle|exact Hp].
Qed.

(** X11. Every order of completion is a run: the goroutines may send in any
    order, and when none panics the fan-out reaches the end. *)
Theorem fan_out_any_order (token : string) (repos order : list string)
    (results : list PRResult) :
  Permutation repos order ->
  sendAll token order = Some results ->
  steps token (started repos) (collected results).
Proof.
  intros Hp Hs. eapply steps_trans; [apply steps_go_all|].
  apply (steps_send_all token order _ [] results); [exact Hp|exact Hs].
Qed.

(** A reference whose fetch panics takes the whole fan-out down: no run
    reaches the end, whatever the other references are, and the crash is
    reachable. *)
Theorem fan_out_panic (token r : string) (repos : list string) :
  In r repos -> goroutine token r = None ->
  (forall results, ~ steps token (started repos) (collected results))
  /\ steps token (started repos) Crashed.
Proof.
  intros Hin Hr. split.
  - intros results Hrun.
    destruct (fan_out_collects token repos results Hrun) as (H & _).
    assert (HN : In None (map (goroutine token) repos)).
    { rewrite <- Hr. apply in_map. exact Hin. }
    apply (Permutation_in _ (Permutation_sym H)) in HN.
    apply in_map_iff in HN. destruct HN as (x & Hx & _). discriminate.
  - eapply steps_trans; [apply steps_go_all|]. cbn [app].
    destruct (in_split _ _ Hin) as (l1 & l2 & ->).
    eapply steps_cons; [apply step_panic; exact Hr|apply steps_refl].
Qed.

End FetcherFacts.

Lemma Permutation_map_Some {A : Type} (l1 l2 : list A) :
  Permutation (map Some l1) (map Some l2) -> Permutation l1 l2.
Proof.
  intros H. destruct (Permutation_map_inv _ _ H) as (l3 & Hmap & Hperm).
  assert (E : l1 = l3).
  { clear -Hmap. revert l3 Hmap.
    induction l1 as [|x l1 IH]; intros [|y l3] H; try discriminate; [reflexivity|].
    cbn [map] in H. injection H as -> H. rewrite (IH _ H). reflexivity. }
  subst l3. symmetry. exact Hperm.
Qed.

(** The scenario of the specification: the remote answers three open pull
    requests for one repository and 404 for the other; every complete
    run collects, in some order, one result with the three records and
    one result whose error carries the 404 status. *)
Theorem fan_out_scenario
    (Do : Request -> result Response)
    (decodePR : string -> result PullRequest)
    (decodePRs : string -> result (list PullRequest))
    (token bodyA bodyB : string) (p1 p2 p3 : PullRequest)
    (results : list PRResult) :
  (forall req, URL req = "https://api.github.com/repos/a/x/pulls?state=open" ->
               Do req = Ok (mkResponse 200 "200 OK" bodyA)) ->
  decodePRs bodyA = Ok [p1; p2; p3] ->
  (forall req, URL req = "https://api.github.com/repos/b/y/pulls?state=open" ->
               Do req = Ok (mkResponse 404 "404 Not Found" bodyB)) ->
  steps Do decodePR decodePRs token (started ["a/x"; "b/y"]) (collected results) ->
  Permutation results
    [mkPRResult "a/x" [p1; p2; p3] None;
     mkPRResult "b/y" [] (Some (ErrAPI "404 Not Found" (strings.TrimSpace bodyB)))].
Proof.
  intros HA HdA HB Hrun.
  destruct (fan_out_collects Do decodePR decodePRs token _ _ Hrun) as (H & _).
  apply Permutation_map_Some. eapply Permutation_trans; [exact H|].
  cbn [map].
  rewrite (goroutine_Returns Do decodePR decodePRs token "a/x" (Ok [p1; p2; p3])).
  - rewrite (goroutine_Returns Do decodePR decodePRs token "b/y"
               (Failed (ErrAPI "404 Not Found" (strings.TrimSpace bodyB)))).
    + reflexivity.
    + rewrite (fetchPRs_target Do decodePR decodePRs "b/y" token "b/y" "b" "y" false 0)
        by reflexivity.
      unfold roundTrip. cbn [append].
      change (NewRequest "GET" "https://api.github.com/repos/b/y/pulls?state=open")
        with (Some (mkRequest "GET" "https://api.github.com/repos/b/y/pulls?state=open"
                              "" None)).
      cbv iota beta. rewrite HB by reflexivity. reflexivity.
  - rewrite (fetchPRs_target Do decodePR decodePRs "a/x" token "a/x" "a" "x" false 0)
      by reflexivity.
    unfold roundTrip. cbn [append].
    change (NewRequest "GET" "https://api.github.com/repos/a/x/pulls?state=open")
      with (Some (mkRequest "GET" "https://api.github.com/repos/a/x/pulls?state=open"
                            "" None)).
    cbv iota beta. rewrite HA by reflexivity. cbn. rewrite HdA. reflexivity.
Qed.

(** C4 fails on the code.  [fetchPRs] drops the error of
    [http.NewRequest]; for a stored reference whose request URL does not
    parse, such as [a/b%zz], the request is nil and the goroutine panics.
    With that reference in the list no run of the fan-out reaches the
    end: no result is collected, not even for [owner/name], and the
    process crashes. *)
Theorem fan_out_crashes_on_unparsable_reference
    (Do : Request -> result Response)
    (decodePR : string -> result PullRequest)
    (decodePRs : string -> result (list PullRequest))
    (token : string) :
  let repos := ["owner/name"; "a/b%zz"] in
  validate "a/b%zz" = None
  /\ fetchPRs Do decodePR decodePRs "a/b%zz" token = Panics
  /\ (forall results,
         ~ steps Do decodePR decodePRs token (started repos) (collected results))
  /\ steps Do decodePR decodePRs token (started repos) Crashed.
Proof.
  intros repos.
  assert (HP : fetchPRs Do decodePR decodePRs "a/b%zz" token = Panics)
    by reflexivity.
  split; [reflexivity|]. split; [exact HP|].
  apply (fan_out_panic Do decodePR decodePRs token "a/b%zz").
  - right. left. reflexivity.
  - apply goroutine_Panics, HP.
Qed.

(** The reference of the failing run is one that [Add] accepts. *)
Example Add_accepts_unparsable_reference :
  Add asciiFold "a/b%zz" (mkDisk (Array ["owner/name"]) None)
  = (mkDisk (Array ["owner/name"; "a/b%zz"]) None, None).
Proof. vm_compute. reflexivity. Qed.


(** ** More on UTF-8 *)

Module utf8_more.
Import utf8 utf8_facts.

Lemma runes_nil : runes "" = [].
Proof. reflexivity. Qed.

Lemma toValidUTF8_runes (s : string) : runes (toValidUTF8 s) = runes s.
Proof.
  unfold toValidUTF8.
  rewrite <- (append_nil_r (encode (runes s))), runes_encode by apply runes_valid.
  rewrite runes_nil. apply app_nil_r.
Qed.

(** What the store keeps of a string is kept as it is from then on. *)
Lemma toValidUTF8_idempotent (s : string) :
  toValidUTF8 (toValidUTF8 s) = toValidUTF8 s.
Proof. unfold toValidUTF8 at 1. rewrite toValidUTF8_runes. reflexivity. Qed.

Lemma drop_append_le (n : nat) (s t : string) :
  (n <= String.length s)%nat -> drop n (s ++ t) = drop n s ++ t.
Proof.
  revert s. induction n as [|n IH]; intros s H; [reflexivity|].
  destruct s as [|c s]; [cbn in H; lia|]. cbn [append drop].
  apply IH. cbn in H. lia.
Qed.

(** A decoder that runs into ASCII text stops there: what follows a
    string does not change how its first rune reads, as long as it
    starts with an ASCII byte. *)
Lemma decode_append (c : ascii) (s1 t : string) :
  match t with String d _ => ord d <? 128 | EmptyString => true end = true ->
  DecodeRuneInString (String c s1 ++ t) = DecodeRuneInString (String c s1).
Proof.
  intros Ht. cbn [append]. unfold DecodeRuneInString, RuneSelf.
  destruct (ord c <? 128); [reflexivity|].
  destruct (accept (ord c)) as [[[sz lo] hi]|] eqn:Ha; [|reflexivity].
  assert (Hlo : 128 <= lo).
  { apply accept_inv in Ha.
    destruct Ha as [(_ & _ & -> & _)|[(_ & _ & -> & _)|(_ & _ & -> & _)]];
      try lia; destruct (_ =? _); lia. }
  assert (Hstop : forall lo' hi' u,
             128 <= lo' ->
             match ("" ++ t)%string with
             | EmptyString => (RuneError, 1%nat)
             | String c1 s2 => if negb (inRange lo' hi' (ord c1)) then (RuneError, 1%nat) else u c1 s2
             end = (RuneError, 1%nat)).
  { intros lo' hi' u Hl. cbn [append]. destruct t as [|d t']; [reflexivity|].
    apply Z.ltb_lt in Ht. unfold inRange.
    destruct (Z.leb_spec lo' (ord d)); [lia|]. reflexivity. }
  destruct s1 as [|c1 s2]; [apply Hstop; exact Hlo|].
  cbn [append].
  destruct (negb (inRange lo hi (ord c1))); [reflexivity|].
  destruct (Nat.leb sz 2); [reflexivity|].
  destruct s2 as [|c2 s3]; [apply Hstop; lia|].
  cbn [append].
  destruct (negb (inRange 128 191 (ord c2))); [reflexivity|].
  destruct (Nat.leb sz 3); [reflexivity|].
  destruct s3 as [|c3 s4]; [apply (Hstop 128 191 (fun c3 _ => _)); lia|].
  reflexivity.
Qed.

(** The runes of a string followed by ASCII text. *)
Lemma runes_append (s t : string) :
  match t with String d _ => ord d <? 128 | EmptyString => true end = true ->
  runes (s ++ t) = (runes s ++ runes t)%list.
Proof.
  intros Ht.
  remember (String.length s) as k eqn:Hk.
  revert s Hk. induction k as [k IH] using lt_wf_ind. intros s Hk.
  destruct s as [|c s1]; [reflexivity|].
  pose proof (decode_props c s1) as Hp.
  pose proof (decode_append c s1 t Ht) as Hd.
  assert (Hcons : String c s1 ++ t = String c (s1 ++ t)) by reflexivity.
  rewrite Hcons, runes_cons, <- Hcons, Hd. rewrite (runes_cons c s1).
  destruct (DecodeRuneInString (String c s1)) as [r n].
  destruct Hp as (_ & Hn & Hlen & _). cbn [fst snd app]. f_equal.
  rewrite drop_append_le by (cbn [String.length]; lia).
  apply (IH (String.length (drop n (String c s1)))); [|reflexivity].
  rewrite length_drop. subst k. cbn [String.length]. lia.
Qed.

End utf8_more.

(** ** More on [strings.EqualFold] *)

Module fold_facts.
Import utf8 utf8_facts utf8_more strings.

Lemma lor_high (a b : Z) : 128 <= a < 256 -> 0 <= b -> 128 <= Z.lor a b.
Proof.
  intros Ha Hb.
  assert (Hbit : Z.testbit (Z.lor a b) 7 = true).
  { rewrite Z.lor_spec. apply orb_true_iff. left.
    apply Z.testbit_true; [lia|]. change (2 ^ 7) with 128.
    Z.div_mod_to_equations. lia. }
  apply Z.testbit_true in Hbit; [|lia]. change (2 ^ 7) with 128 in Hbit.
  assert (0 <= Z.lor a b) by (apply Z.lor_nonneg; lia).
  Z.div_mod_to_equations. lia.
Qed.

Lemma lor_low (a b : Z) : 0 <= a < 128 -> 0 <= b < 128 -> Z.lor a b < 128.
Proof.
  intros Ha Hb.
  assert (H0 : 0 <= Z.lor a b) by (apply Z.lor_nonneg; lia).
  destruct (Z.eq_dec (Z.lor a b) 0) as [E|E]; [lia|].
  change 128 with (2 ^ 7). apply Z.log2_lt_pow2; [lia|].
  rewrite Z.log2_lor by lia.
  destruct (Z.eq_dec a 0) as [->|]; destruct (Z.eq_dec b 0) as [->|];
    cbn [Z.log2]; try (apply Z.max_lub_lt);
    try (apply Z.log2_lt_pow2; lia); lia.
Qed.

Section Fold.

Variable foldOrbit : Z -> Z -> bool.

Lemma foldRune_refl (r : Z) : foldRune foldOrbit r r = true.
Proof. unfold foldRune. rewrite Z.eqb_refl. reflexivity. Qed.

(** The step of [hasUnicode] on the second string is a plain decoding. *)
Lemma foldTail_cons (sr : Z) (srs : list Z) (d : ascii) (t : string) :
  foldTail foldOrbit (sr :: srs) (String d t)
  = if foldRune foldOrbit sr (fst (DecodeRuneInString (String d t)))
    then foldTail foldOrbit srs
           (drop (snd (DecodeRuneInString (String d t))) (String d t))
    else false.
Proof.
  cbn [foldTail]. unfold RuneSelf.
  destruct (Z.ltb_spec (ord d) 128) as [H|H].
  - rewrite decode_1 by exact H. reflexivity.
  - destruct (DecodeRuneInString (String d t)). reflexivity.
Qed.

Lemma foldTail_self (t : string) : foldTail foldOrbit (runes t) t = true.
Proof.
  remember (String.length t) as k eqn:Hk.
  revert t Hk. induction k as [k IH] using lt_wf_ind. intros t Hk.
  destruct t as [|d t]; [reflexivity|].
  rewrite runes_cons, foldTail_cons, foldRune_refl.
  pose proof (decode_props d t) as Hp.
  destruct (DecodeRuneInString (String d t)) as [r n].
  destruct Hp as (_ & Hn & Hlen & _). cbn [fst snd].
  apply (IH (String.length (drop n (String d t)))); [|reflexivity].
  rewrite length_drop. subst k. cbn [String.length]. lia.
Qed.

Lemma EqualFold_cons (c d : ascii) (s t : string) :
  EqualFold foldOrbit (String c s) (String d t)
  = if 128 <=? Z.lor (ord c) (ord d)
    then foldTail foldOrbit (runes (String c s)) (String d t)
    else if foldRune foldOrbit (ord c) (ord d) then EqualFold foldOrbit s t
         else false.
Proof. reflexivity. Qed.

(** Every string folds to itself, whatever the case tables are. *)
Lemma EqualFold_refl (s : string) : EqualFold foldOrbit s s = true.
Proof.
  induction s as [|c s IH]; [reflexivity|].
  rewrite EqualFold_cons, foldTail_self, foldRune_refl, IH.
  destruct (128 <=? Z.lor (ord c) (ord c)); reflexivity.
Qed.

Lemma toValidUTF8_ascii_cons (c : ascii) (s : string) :
  ord c < 128 -> toValidUTF8 (String c s) = String c (toValidUTF8 s).
Proof.
  intros Hc. unfold toValidUTF8.
  rewrite runes_cons, decode_1 by exact Hc. cbn [fst snd drop encode].
  rewrite url_facts.EncodeRune_ascii by exact Hc. reflexivity.
Qed.

Lemma toValidUTF8_high_cons (c : ascii) (s : string) :
  128 <= ord c ->
  exists e rest, toValidUTF8 (String c s) = String e rest /\ 128 <= ord e.
Proof.
  intros Hc. unfold toValidUTF8. rewrite runes_cons. cbn [encode].
  pose proof (decode_props c s) as Hp.
  destruct (DecodeRuneInString (String c s)) as [r n].
  destruct Hp as (Hv & Hn & _ & H1 & H2). cbn [fst snd].
  assert (Hr : 128 <= r).
  { destruct (Nat.eq_dec n 1) as [E|E].
    - destruct (H1 E) as [[_ ?]|[-> _]]; [lia|]. unfold RuneError. lia.
    - apply H2. lia. }
  pose proof (Decode_Encode r "" Hv) as Hd. rewrite append_nil_r in Hd.
  pose proof (EncodeRune_length r) as Hl.
  destruct (EncodeRune r) as [|e rest] eqn:He; [cbn in Hl; lia|].
  exists e, (rest ++ encode (runes (drop n (String c s)))).
  split; [reflexivity|].
  destruct (Z.ltb_spec (ord e) 128) as [Hlt|]; [|lia].
  rewrite decode_1 in Hd by exact Hlt. injection Hd as Hd _. lia.
Qed.

(** The store's rewriting of invalid bytes does not change what a string
    folds to. *)
Lemma EqualFold_toValidUTF8 (r t : string) :
  EqualFold foldOrbit (toValidUTF8 r) t = EqualFold foldOrbit r t.
Proof.
  revert t. induction r as [|c r IH]; intros t; [reflexivity|].
  pose proof (ord_range c) as Hc.
  destruct (Z.ltb_spec (ord c) 128) as [Hlt|Hge].
  - rewrite toValidUTF8_ascii_cons by exact Hlt.
    destruct t as [|d t]; [reflexivity|].
    rewrite !EqualFold_cons, IH.
    rewrite <- (toValidUTF8_ascii_cons c r Hlt), toValidUTF8_runes.
    reflexivity.
  - destruct (toValidUTF8_high_cons c r Hge) as (e & rest & He & Hhi).
    pose proof (toValidUTF8_runes (String c r)) as Hr. rewrite He in Hr |- *.
    destruct t as [|d t]; [reflexivity|].
    pose proof (ord_range d) as Hd. pose proof (ord_range e) as Hee.
    rewrite !EqualFold_cons, Hr.
    destruct (Z.leb_spec 128 (Z.lor (ord e) (ord d))) as [_|H];
      [|pose proof (lor_high (ord e) (ord d)); lia].
    destruct (Z.leb_spec 128 (Z.lor (ord c) (ord d))) as [_|H];
      [|pose proof (lor_high (ord c) (ord d)); lia].
    reflexivity.
Qed.

Lemma foldTail_step (sr : Z) (srs : list Z) (t : string) :
  t <> "" ->
  foldTail foldOrbit (sr :: srs) t
  = if foldRune foldOrbit sr (fst (DecodeRuneInString t))
    then foldTail foldOrbit srs (drop (snd (DecodeRuneInString t)) t)
    else false.
Proof. destruct t as [|d t]; [congruence|]. intros _. apply foldTail_cons. Qed.

Lemma toValidUTF8_cons (c : ascii) (s : string) :
  toValidUTF8 (String c s)
  = EncodeRune (fst (DecodeRuneInString (String c s)))
    ++ toValidUTF8 (drop (snd (DecodeRuneInString (String c s))) (String c s)).
Proof. unfold toValidUTF8. rewrite runes_cons. reflexivity. Qed.

Lemma EncodeRune_append_nonempty (r : Z) (t : string) : EncodeRune r ++ t <> "".
Proof.
  pose proof (EncodeRune_length r) as H. intros E.
  apply (f_equal String.length) in E. rewrite length_append in E.
  cbn [String.length] in E. lia.
Qed.

Lemma foldTail_toValidUTF8 (srs : list Z) (t : string) :
  foldTail foldOrbit srs (toValidUTF8 t) = foldTail foldOrbit srs t.
Proof.
  remember (String.length t) as k eqn:Hk.
  revert srs t Hk. induction k as [k IH] using lt_wf_ind. intros srs t Hk.
  destruct t as [|d t]; [reflexivity|].
  rewrite toValidUTF8_cons.
  pose proof (decode_props d t) as Hp.
  destruct srs as [|sr srs].
  { pose proof (EncodeRune_append_nonempty
                  (fst (DecodeRuneInString (String d t)))
                  (toValidUTF8 (drop (snd (DecodeRuneInString (String d t)))
                                     (String d t)))) as Hne.
    destruct (EncodeRune _ ++ _); [congruence|reflexivity]. }
  rewrite foldTail_step by apply EncodeRune_append_nonempty.
  rewrite foldTail_cons.
  destruct (DecodeRuneInString (String d t)) as [r n].
  destruct Hp as (Hv & Hn & Hlen & _). cbn [fst snd].
  rewrite Decode_Encode by exact Hv. cbn [fst snd]. rewrite drop_append.
  destruct (foldRune foldOrbit sr r); [|reflexivity].
  apply (IH (String.length (drop n (String d t)))); [|reflexivity].
  rewrite length_drop. subst k. cbn [String.length]. lia.
Qed.

Lemma EqualFold_toValidUTF8_r (s t : string) :
  EqualFold foldOrbit s (toValidUTF8 t) = EqualFold foldOrbit s t.
Proof.
  revert t. induction s as [|c s IH]; intros t.
  { destruct t as [|d t]; [reflexivity|].
    rewrite toValidUTF8_cons.
    pose proof (EncodeRune_append_nonempty
                  (fst (DecodeRuneInString (String d t)))
                  (toValidUTF8 (drop (snd (DecodeRuneInString (String d t)))
                                     (String d t)))) as Hne.
    destruct (EncodeRune _ ++ _); [congruence|reflexivity]. }
  destruct t as [|d t]; [reflexivity|].
  pose proof (ord_range c) as Hc. pose proof (ord_range d) as Hd.
  destruct (Z.ltb_spec (ord d) 128) as [Hlt|Hge].
  - rewrite toValidUTF8_ascii_cons by exact Hlt.
    rewrite !EqualFold_cons, IH.
    rewrite <- (toValidUTF8_ascii_cons d t Hlt), foldTail_toValidUTF8.
    reflexivity.
  - destruct (toValidUTF8_high_cons d t Hge) as (e & rest & He & Hhi).
    pose proof (foldTail_toValidUTF8 (runes (String c s)) (String d t)) as Hf.
    rewrite He in Hf |- *. pose proof (ord_range e) as Hee.
    rewrite !EqualFold_cons, Hf.
    rewrite (Z.lor_comm (ord c) (ord e)), (Z.lor_comm (ord c) (ord d)).
    destruct (Z.leb_spec 128 (Z.lor (ord e) (ord c))) as [_|H];
      [|pose proof (lor_high (ord e) (ord c)); lia].
    destruct (Z.leb_spec 128 (Z.lor (ord d) (ord c))) as [_|H];
      [|pose proof (lor_high (ord d) (ord c)); lia].
    reflexivity.
Qed.

(** On ASCII text the comparison goes byte by byte, so that two strings
    that fold to each other have the same length. *)
Lemma EqualFold_ascii_length (s t : string) :
  allBytes (fun c => ord c <? 128) s = true ->
  allBytes (fun c => ord c <? 128) t = true ->
  EqualFold foldOrbit s t = true -> String.length s = String.length t.
Proof.
  revert t. induction s as [|c s IH]; intros [|d t] Hs Ht H;
    try reflexivity; try discriminate.
  cbn [allBytes] in Hs, Ht.
  apply andb_prop in Hs. destruct Hs as [Hc Hs].
  apply andb_prop in Ht. destruct Ht as [Hd Ht].
  apply Z.ltb_lt in Hc. apply Z.ltb_lt in Hd.
  pose proof (ord_range c). pose proof (ord_range d).
  rewrite EqualFold_cons in H.
  destruct (Z.leb_spec 128 (Z.lor (ord c) (ord d))) as [Hhi|_].
  { exfalso. pose proof (lor_low (ord c) (ord d)). lia. }
  destruct (foldRune foldOrbit (ord c) (ord d)); [|discriminate].
  cbn [String.length]. f_equal. apply IH; assumption.
Qed.

End Fold.

End fold_facts.

(** ** The store across calls *)

Import utf8_more fold_facts.

Section StoreCalls.

Variable foldOrbit : Z -> Z -> bool.


(** What a call of [Add] that answers no error has gone through. *)
Lemma Add_success (raw : string) (d : Disk) :
  snd (Add foldOrbit raw d) = None ->
  exists repos,
    strings.TrimSpace raw <> ""
    /\ validate (normalize (strings.TrimSpace raw)) = None
    /\ Load d = Ok repos
    /\ existsb (fun r => EqualFold foldOrbit r (normalize (strings.TrimSpace raw)))
               repos = false
    /\ Add foldOrbit raw d
       = (mkDisk (Array (map toValidUTF8 (repos ++ [normalize (strings.TrimSpace raw)])))
                 None, None).
Proof.
  unfold Add.
  destruct (String.eqb (strings.TrimSpace raw) "") eqn:E; [discriminate|].
  apply eqb_empty in E.
  destruct (validate _) eqn:Hv; [discriminate|].
  destruct (Load d) as [repos|] eqn:HL; [|discriminate].
  destruct (existsb _ repos) eqn:Hex; [discriminate|].
  unfold Save. destruct (writeError d); [discriminate|].
  intros _. exists repos. repeat split; assumption.
Qed.

Lemma Remove_success (raw : string) (d : Disk) :
  snd (Remove foldOrbit raw d) = None ->
  exists repos idx,
    Load d = Ok repos
    /\ indexWhere (fun r => EqualFold foldOrbit r (strings.TrimSpace raw)
                            || String.eqb r (strings.TrimSpace raw)) repos = Some idx
    /\ Remove foldOrbit raw d
       = (mkDisk (Array (map toValidUTF8 (firstn idx repos ++ skipn (S idx) repos)))
                 None, None).
Proof.
  unfold Remove.
  destruct (String.eqb (strings.TrimSpace raw) "") eqn:E; [discriminate|].
  destruct (Load d) as [repos|] eqn:HL; [|discriminate].
  destruct (indexWhere _ repos) as [idx|] eqn:Hi; [|discriminate].
  unfold Save. destruct (writeError d); [discriminate|].
  intros _. exists repos, idx. repeat split. exact Hi.
Qed.

Lemma existsb_map_toValidUTF8 (repo : string) (repos : list string) :
  existsb (fun r => EqualFold foldOrbit r repo) (map toValidUTF8 repos)
  = existsb (fun r => EqualFold foldOrbit r repo) repos.
Proof.
  induction repos as [|r repos IH]; [reflexivity|]. cbn [map existsb].
  unfold EqualFold at 1 3. rewrite EqualFold_toValidUTF8, IH. reflexivity.
Qed.

Lemma existsb_toValidUTF8_r (repo : string) (repos : list string) :
  existsb (fun r => EqualFold foldOrbit r (toValidUTF8 repo)) repos
  = existsb (fun r => EqualFold foldOrbit r repo) repos.
Proof.
  induction repos as [|r repos IH]; [reflexivity|]. cbn [existsb].
  unfold EqualFold at 1 3. rewrite EqualFold_toValidUTF8_r, IH. reflexivity.
Qed.

Lemma EqualFold_self (r : string) : EqualFold foldOrbit r r = true.
Proof. unfold EqualFold. apply EqualFold_refl. Qed.

Lemma EqualFold_stored (r repo : string) :
  EqualFold foldOrbit (toValidUTF8 r) repo = EqualFold foldOrbit r repo.
Proof. unfold EqualFold. apply EqualFold_toValidUTF8. Qed.

Lemma eqb_EqualFold (r repo : string) :
  String.eqb r repo = true -> EqualFold foldOrbit r repo = true.
Proof. intros H. apply String.eqb_eq in H. subst. apply EqualFold_self. Qed.

Lemma orb_eqb_EqualFold (r repo : string) :
  EqualFold foldOrbit r repo || String.eqb r repo = EqualFold foldOrbit r repo.
Proof.
  destruct (EqualFold foldOrbit r repo) eqn:E; [reflexivity|].
  destruct (String.eqb r repo) eqn:E'; [|reflexivity].
  apply eqb_EqualFold in E'. congruence.
Qed.

Lemma indexWhere_ext {A : Type} (p q : A -> bool) (l : list A) :
  (forall x, p x = q x) -> indexWhere p l = indexWhere q l.
Proof.
  intros H. induction l as [|x l IH]; [reflexivity|].
  cbn [indexWhere]. rewrite H, IH. reflexivity.
Qed.

Lemma existsb_false_In {A : Type} (p : A -> bool) (l : list A) :
  existsb p l = false -> forall y, In y l -> p y = false.
Proof.
  intros H y Hy. destruct (p y) eqn:E; [|reflexivity].
  rewrite <- H. symmetry. apply existsb_exists. exists y. split; assumption.
Qed.

Lemma normalize_plain (repo : string) :
  looksLikeURL repo = false -> normalize repo = repo.
Proof. intros H. unfold normalize. rewrite H. reflexivity. Qed.

Lemma existsb_rev {A : Type} (p : A -> bool) (l : list A) :
  existsb p (List.rev l) = existsb p l.
Proof.
  induction l as [|x l IH]; [reflexivity|]. cbn [List.rev existsb].
  rewrite existsb_app, IH. cbn [existsb]. rewrite orb_false_r. apply orb_comm.
Qed.

Lemma distinct_snoc (repos : list string) (repo : string) :
  distinct foldOrbit (repos ++ [repo])
  = negb (existsb (fun r => EqualFold foldOrbit r repo) repos)
    && distinct foldOrbit repos.
Proof.
  unfold distinct. rewrite rev_app_distr. cbn [List.rev app distinctRev].
  rewrite existsb_rev. reflexivity.
Qed.

Lemma distinct_map_toValidUTF8 (repos : list string) :
  distinct foldOrbit (map toValidUTF8 repos) = distinct foldOrbit repos.
Proof.
  induction repos as [|repo repos IH] using rev_ind; [reflexivity|].
  rewrite map_app. cbn [map]. rewrite !distinct_snoc, IH.
  rewrite existsb_map_toValidUTF8, existsb_toValidUTF8_r. reflexivity.
Qed.

Lemma existsb_app_false {A : Type} (p : A -> bool) (l1 l2 : list A) :
  existsb p (l1 ++ l2) = false -> existsb p l1 = false /\ existsb p l2 = false.
Proof. rewrite existsb_app. apply orb_false_elim. Qed.

Lemma distinct_remove (pre post : list string) (x : string) :
  distinct foldOrbit (pre ++ x :: post) = true ->
  distinct foldOrbit (pre ++ post) = true.
Proof.
  revert pre x. induction post as [|y post IH] using rev_ind; intros pre x H.
  - rewrite app_nil_r. rewrite distinct_snoc in H.
    apply andb_prop in H. apply H.
  - replace (pre ++ x :: post ++ [y])%list with ((pre ++ x :: post) ++ [y])%list in H
      by (rewrite <- app_assoc; reflexivity).
    rewrite distinct_snoc in H. apply andb_prop in H. destruct H as [Hex Hd].
    rewrite app_assoc, distinct_snoc, (IH pre x Hd), andb_true_r.
    apply negb_true_iff in Hex. apply negb_true_iff.
    rewrite existsb_app in Hex |- *. cbn [existsb] in Hex.
    apply orb_false_elim in Hex. destruct Hex as [H1 H2].
    apply orb_false_elim in H2. destruct H2 as [_ H2].
    rewrite H1, H2. reflexivity.
Qed.

Lemma indexWhere_split {A : Type} (p : A -> bool) (l : list A) (idx : nat) :
  indexWhere p l = Some idx ->
  exists pre x post, l = (pre ++ x :: post)%list /\ List.length pre = idx.
Proof.
  revert idx. induction l as [|y l IH]; intros idx H; [discriminate|].
  cbn [indexWhere] in H. destruct (p y).
  - injection H as <-. exists [], y, l. split; reflexivity.
  - destruct (indexWhere p l) as [j|]; [|discriminate]. injection H as <-.
    destruct (IH j eq_refl) as (pre & x & post & -> & Hl).
    exists (y :: pre), x, post. split; [reflexivity|]. cbn [List.length]. lia.
Qed.

Local Abbreviation Add := (Add foldOrbit).
Local Abbreviation Remove := (Remove foldOrbit).
Local Abbreviation EqualFold := (EqualFold foldOrbit).

(** X2. [Add] right after itself: the reference a successful [Add] has
    stored is found by the next [Add] of the same input, which answers
    "repo already exists" and leaves the disk as the first call made it. *)
Theorem Add_twice_is_refused (raw : string) (d : Disk) :
  snd (Add raw d) = None ->
  Add raw (fst (Add raw d)) = (fst (Add raw d), Some ErrExists).
Proof.
  intros H. destruct (Add_success raw d H) as (repos & Hne & Hv & HL & Hex & HA).
  rewrite HA. cbn [fst]. rewrite Add_valid by assumption.
  cbn [Load file]. rewrite existsb_map_toValidUTF8, existsb_app.
  cbn [existsb]. rewrite EqualFold_self, orb_true_r.
  reflexivity.
Qed.

(** X3. Line 127 of [Remove] tests [strings.EqualFold(r, repo) || r == repo]:
    the second test never decides, since a string folds to itself, and the
    entry [Remove] picks is the first one equal to the input up to case. *)
Theorem Remove_exact_test_never_decides (repo : string) (repos : list string) :
  (forall r, EqualFold r repo || String.eqb r repo = EqualFold r repo)
  /\ indexWhere (fun r => EqualFold r repo || String.eqb r repo) repos
     = indexWhere (fun r => EqualFold r repo) repos.
Proof.
  split; [intros r; apply orb_eqb_EqualFold|].
  apply indexWhere_ext. intros r. apply orb_eqb_EqualFold.
Qed.

(** X4. [Remove] undoes [Add]: after a successful [Add] of an input that is
    not taken for a URL, [Remove] of the same input succeeds and takes
    out the entry just added, leaving the list that was there before, as
    the file keeps it. *)
Theorem Add_then_Remove_restores (raw : string) (d : Disk) (repos : list string) :
  looksLikeURL (strings.TrimSpace raw) = false ->
  Load d = Ok repos ->
  snd (Add raw d) = None ->
  Remove raw (fst (Add raw d))
  = (mkDisk (Array (map toValidUTF8 repos)) None, None).
Proof.
  intros Hurl HL H.
  destruct (Add_success raw d H) as (repos' & Hne & Hv & HL' & Hex & HA).
  rewrite HL in HL'. injection HL' as <-.
  rewrite (normalize_plain _ Hurl) in Hex, HA.
  rewrite HA. cbn [fst].
  rewrite (Remove_cases foldOrbit raw _ (map toValidUTF8 (repos ++ [strings.TrimSpace raw])))
    by (assumption || reflexivity).
  rewrite map_app. cbn [map].
  rewrite (indexWhere_first _ (map toValidUTF8 repos) []).
  - rewrite cut_out, app_nil_r. unfold Save. cbn [writeError].
    rewrite map_map.
    rewrite (map_ext _ _ toValidUTF8_idempotent). reflexivity.
  - intros y Hy. rewrite orb_eqb_EqualFold.
    rewrite <- existsb_map_toValidUTF8 in Hex.
    apply (existsb_false_In _ _ Hex y Hy).
  - rewrite orb_eqb_EqualFold, EqualFold_stored. apply EqualFold_self.
Qed.

(** X5. The list stays free of duplicates: when no two references of the
    stored list are equal up to case, none are after a successful [Add]
    or [Remove]. *)
Theorem Add_Remove_keep_distinct (raw : string) (d : Disk) (repos : list string) :
  Load d = Ok repos -> distinct foldOrbit repos = true ->
  (snd (Add raw d) = None ->
   exists repos', Load (fst (Add raw d)) = Ok repos'
                  /\ distinct foldOrbit repos' = true
                  /\ List.length repos' = S (List.length repos))
  /\ (snd (Remove raw d) = None ->
      exists repos', Load (fst (Remove raw d)) = Ok repos'
                     /\ distinct foldOrbit repos' = true
                     /\ S (List.length repos') = List.length repos).
Proof.
  intros HL Hd. split; intros H.
  - destruct (Add_success raw d H) as (repos' & Hne & Hv & HL' & Hex & HA).
    rewrite HL in HL'. injection HL' as <-.
    rewrite HA. eexists. split; [reflexivity|]. split.
    + rewrite distinct_map_toValidUTF8, distinct_snoc, Hex, Hd. reflexivity.
    + rewrite length_map, length_app. cbn [List.length]. lia.
  - destruct (Remove_success raw d H) as (repos' & idx & HL' & Hi & HR).
    rewrite HL in HL'. injection HL' as <-.
    rewrite HR. eexists. split; [reflexivity|].
    destruct (indexWhere_split _ _ _ Hi) as (pre & x & post & -> & <-).
    rewrite cut_out. split.
    + rewrite distinct_map_toValidUTF8. apply (distinct_remove pre post x Hd).
    + rewrite length_map, !length_app. cbn [List.length]. lia.
Qed.

End StoreCalls.

Section StoreURL.

Variable foldOrbit : Z -> Z -> bool.

Lemma segment_ascii (s : string) :
  segment s = true -> allBytes (fun c => ord c <? 128) s = true.
Proof.
  intros H. destruct (segment_parts _ H) as [_ Hb].
  apply (allBytes_impl segmentByte); [|exact Hb].
  intros c Hc. apply Z.ltb_lt, visible_ascii, segmentByte_visible, Hc.
Qed.

(** A stored [owner/name] is not what its GitHub URL folds to. *)
Lemma EqualFold_URL (owner name : string) :
  segment owner = true -> segment name = true ->
  EqualFold foldOrbit (owner ++ "/" ++ name)
            ("https://github.com/" ++ owner ++ "/" ++ name) = false.
Proof.
  intros Ho Hn.
  destruct (EqualFold foldOrbit _ _) eqn:E; [|reflexivity].
  unfold EqualFold in E. apply EqualFold_ascii_length in E.
  - change ("https://github.com/" ++ owner ++ "/" ++ name)
      with ("https://github.com/" ++ (owner ++ "/" ++ name)) in E.
    rewrite (length_append "https://github.com/") in E.
    cbn [String.length] in E. lia.
  - rewrite !allBytes_append, (segment_ascii _ Ho), (segment_ascii _ Hn).
    reflexivity.
  - change ("https://github.com/" ++ owner ++ "/" ++ name)
      with ("https://github.com/" ++ (owner ++ "/" ++ name)).
    rewrite !allBytes_append, (segment_ascii _ Ho), (segment_ascii _ Hn).
    reflexivity.
Qed.

Lemma TrimSpace_URL (owner name : string) :
  segment owner = true -> segment name = true ->
  strings.TrimSpace ("https://github.com/" ++ owner ++ "/" ++ name)
  = "https://github.com/" ++ owner ++ "/" ++ name.
Proof.
  intros Ho Hn.
  rewrite <- (append_assoc owner "/" name).
  change ("https://github.com/" ++ (owner ++ "/") ++ name)
    with ("https:" ++ ("//github.com/" ++ owner ++ "/") ++ name).
  apply TrimSpace_segments; [reflexivity|exact Hn].
Qed.

Local Abbreviation Add := (Add foldOrbit).
Local Abbreviation Remove := (Remove foldOrbit).
Local Abbreviation EqualFold := (EqualFold foldOrbit).

(** X6. [Remove] does not normalize: it looks for its input as it is.  A
    repository added by its GitHub URL is stored as [owner/name], and
    [Remove] of the same URL does not find it: unless another entry is
    equal to the URL up to case, it answers "repo not found" and leaves
    the disk as it is. *)
Theorem Remove_misses_added_URL (owner name : string) (d : Disk) (repos : list string) :
  segment owner = true -> segment name = true ->
  Load d = Ok repos ->
  existsb (fun r => EqualFold r ("https://github.com/" ++ owner ++ "/" ++ name))
          repos = false ->
  snd (Add ("https://github.com/" ++ owner ++ "/" ++ name) d) = None ->
  Load (fst (Add ("https://github.com/" ++ owner ++ "/" ++ name) d))
  = Ok (map toValidUTF8 repos ++ [(owner ++ "/" ++ name)%string])%list
  /\ Remove ("https://github.com/" ++ owner ++ "/" ++ name)
            (fst (Add ("https://github.com/" ++ owner ++ "/" ++ name) d))
     = (fst (Add ("https://github.com/" ++ owner ++ "/" ++ name) d), Some ErrNotFound).
Proof.
  intros Ho Hn HL Hurl H.
  destruct (Add_success foldOrbit _ d H) as (repos' & Hne & Hv & HL' & Hex & HA).
  rewrite HL in HL'. injection HL' as <-.
  rewrite (TrimSpace_URL owner name Ho Hn) in Hne, HA.
  rewrite (normalize_repo_URL owner name Ho Hn) in HA.
  assert (Hs : toValidUTF8 (owner ++ "/" ++ name) = owner ++ "/" ++ name).
  { apply toValidUTF8_ascii.
    rewrite !allBytes_append, (segment_ascii _ Ho), (segment_ascii _ Hn).
    reflexivity. }
  rewrite HA. cbn [fst Load file]. rewrite map_app. cbn [map]. rewrite Hs.
  split; [reflexivity|].
  rewrite (Remove_cases foldOrbit _ _ (map toValidUTF8 repos ++ [(owner ++ "/" ++ name)%string])%list)
    by (rewrite ?(TrimSpace_URL owner name Ho Hn); assumption || reflexivity).
  rewrite (TrimSpace_URL owner name Ho Hn).
  rewrite indexWhere_none; [reflexivity|].
  intros y Hy. rewrite orb_eqb_EqualFold.
  apply in_app_or in Hy. destruct Hy as [Hy|[<-|[]]].
  - rewrite <- (existsb_map_toValidUTF8 foldOrbit) in Hurl.
    apply (existsb_false_In _ _ Hurl y Hy).
  - apply EqualFold_URL; assumption.
Qed.

End StoreURL.

(** X1. What [Save] writes is what [Load] reads, and from then on it is
    stable: saving the list just loaded leaves the file as it is.  A list
    of ASCII references is read back unchanged. *)
Theorem Save_Load_round_trip (repos : list string) (d : Disk) :
  writeError d = None ->
  Load (fst (Save repos d)) = Ok (map toValidUTF8 repos)
  /\ Save (map toValidUTF8 repos) (fst (Save repos d)) = (fst (Save repos d), None)
  /\ (forallb (allBytes (fun c => ord c <? 128)) repos = true ->
      Load (fst (Save repos d)) = Ok repos).
Proof.
  intros Hw. unfold Save. rewrite Hw. cbn [fst writeError Load file].
  split; [reflexivity|]. split.
  - rewrite map_map, (map_ext _ _ toValidUTF8_idempotent). reflexivity.
  - intros H. f_equal. rewrite <- (map_id repos) at 2.
    apply map_ext_in. intros r Hr. apply toValidUTF8_ascii.
    rewrite forallb_forall in H. apply H, Hr.
Qed.

Lemma Save_Load_round_trip_witness :
  let d := mkDisk (Malformed "unexpected end of JSON input") None in
  let repos := ["owner/name"; String (chr 255) "/x"] in
  writeError d = None
  /\ Load (fst (Save repos d)) = Ok ["owner/name"; utf8.EncodeRune 0xFFFD ++ "/x"]
  /\ Save (map toValidUTF8 repos) (fst (Save repos d)) = (fst (Save repos d), None)
  /\ (forallb (allBytes (fun c => ord c <? 128)) ["owner/name"] = true
      /\ Load (fst (Save ["owner/name"] d)) = Ok ["owner/name"]).
Proof.
  intros d repos.
  assert (Hw : writeError d = None) by reflexivity.
  split; [exact Hw|].
  destruct (Save_Load_round_trip repos d Hw) as (H1 & H2 & _).
  split; [exact H1|]. split; [exact H2|].
  assert (Ha : forallb (allBytes (fun c => ord c <? 128)) ["owner/name"] = true)
    by (vm_compute; reflexivity).
  split; [exact Ha|].
  exact (proj2 (proj2 (Save_Load_round_trip ["owner/name"] d Hw)) Ha).
Defined.

Lemma Add_twice_is_refused_witness :
  let d := mkDisk Absent None in
  snd (Add asciiFold " owner/name#7 " d) = None
  /\ Add asciiFold " owner/name#7 " (fst (Add asciiFold " owner/name#7 " d))
     = (mkDisk (Array ["owner/name#7"]) None, Some ErrExists).
Proof.
  intros d.
  assert (H : snd (Add asciiFold " owner/name#7 " d) = None)
    by (vm_compute; reflexivity).
  split; [exact H|].
  exact (Add_twice_is_refused asciiFold " owner/name#7 " d H).
Defined.

Lemma Add_then_Remove_restores_witness :
  let d := mkDisk (Array ["x/y"; "owner/name"]) None in
  (looksLikeURL (strings.TrimSpace " a/b ") = false
   /\ Load d = Ok ["x/y"; "owner/name"]
   /\ snd (Add asciiFold " a/b " d) = None)
  /\ Remove asciiFold " a/b " (fst (Add asciiFold " a/b " d)) = (d, None).
Proof.
  intros d.
  assert (H1 : looksLikeURL (strings.TrimSpace " a/b ") = false)
    by (vm_compute; reflexivity).
  assert (H2 : Load d = Ok ["x/y"; "owner/name"]) by reflexivity.
  assert (H3 : snd (Add asciiFold " a/b " d) = None) by (vm_compute; reflexivity).
  split; [repeat split; assumption|].
  exact (Add_then_Remove_restores asciiFold " a/b " d _ H1 H2 H3).
Defined.

Lemma Add_Remove_keep_distinct_witness :
  let repos := ["x/y"; "owner/name"] in
  let d := mkDisk (Array repos) None in
  (Load d = Ok repos /\ distinct asciiFold repos = true
   /\ snd (Add asciiFold "a/b" d) = None
   /\ snd (Remove asciiFold "X/Y" d) = None)
  /\ (exists repos', Load (fst (Add asciiFold "a/b" d)) = Ok repos'
                     /\ distinct asciiFold repos' = true
                     /\ List.length repos' = 3%nat)
  /\ (exists repos', Load (fst (Remove asciiFold "X/Y" d)) = Ok repos'
                     /\ distinct asciiFold repos' = true
                     /\ S (List.length repos') = 2%nat).
Proof.
  intros repos d.
  assert (H1 : Load d = Ok repos) by reflexivity.
  assert (H2 : distinct asciiFold repos = true) by (vm_compute; reflexivity).
  assert (H3 : snd (Add asciiFold "a/b" d) = None) by (vm_compute; reflexivity).
  assert (H4 : snd (Remove asciiFold "X/Y" d) = None) by (vm_compute; reflexivity).
  split; [repeat split; assumption|]. split.
  - exact (proj1 (Add_Remove_keep_distinct asciiFold "a/b" d repos H1 H2) H3).
  - exact (proj2 (Add_Remove_keep_distinct asciiFold "X/Y" d repos H1 H2) H4).
Defined.

Lemma Remove_misses_added_URL_witness :
  let d := mkDisk (Array ["x/y"]) None in
  (segment "owner" = true /\ segment "name" = true
   /\ Load d = Ok ["x/y"]
   /\ existsb (fun r => EqualFold asciiFold r "https://github.com/owner/name") ["x/y"]
      = false
   /\ snd (Add asciiFold "https://github.com/owner/name" d) = None)
  /\ Load (fst (Add asciiFold "https://github.com/owner/name" d))
     = Ok ["x/y"; "owner/name"]
  /\ Remove asciiFold "https://github.com/owner/name"
            (fst (Add asciiFold "https://github.com/owner/name" d))
     = (mkDisk (Array ["x/y"; "owner/name"]) None, Some ErrNotFound).
Proof.
  intros d.
  assert (H1 : segment "owner" = true) by reflexivity.
  assert (H2 : segment "name" = true) by reflexivity.
  assert (H3 : Load d = Ok ["x/y"]) by reflexivity.
  assert (H4 : existsb (fun r => EqualFold asciiFold r "https://github.com/owner/name")
                       ["x/y"] = false) by (vm_compute; reflexivity).
  assert (H5 : snd (Add asciiFold "https://github.com/owner/name" d) = None)
    by (vm_compute; reflexivity).
  split; [repeat split; assumption|].
  exact (Remove_misses_added_URL asciiFold "owner" "name" d ["x/y"] H1 H2 H3 H4 H5).
Defined.

(** ** Numbers written and read back *)

Module strconv_facts.
Import strconv.

Lemma digit_chr (n : Z) :
  0 <= n < 10 ->
  isDigit (chr (48 + n)) = true /\ ord (chr (48 + n)) - 48 = n.
Proof.
  intros H. unfold isDigit. rewrite ord_chr by lia. split; [|lia].
  apply andb_true_intro. split; apply Z.leb_le; lia.
Qed.

Lemma digits_posDigits (fuel : nat) (n : Z) (acc : string) :
  (1 <= fuel)%nat -> 0 <= n < 10 ^ Z.of_nat fuel ->
  digits (posDigits fuel n acc) 0 = digits acc n.
Proof.
  revert n acc. induction fuel as [|fuel IH]; intros n acc Hf Hn; [lia|].
  cbn [posDigits].
  assert (Hm : 0 <= n mod 10 < 10) by (apply Z.mod_pos_bound; lia).
  destruct (digit_chr (n mod 10) Hm) as [Hd Ho].
  destruct (Z.ltb_spec n 10) as [Hlt|Hge].
  - cbn [digits]. rewrite Hd, Ho. rewrite Z.mod_small by lia. reflexivity.
  - destruct fuel as [|fuel'].
    { cbn in Hn. lia. }
    rewrite IH.
    + cbn [digits]. rewrite Hd, Ho. f_equal.
      pose proof (Z.div_mod n 10). lia.
    + lia.
    + rewrite Nat2Z.inj_succ, Z.pow_succ_r in Hn by lia.
      split; [apply Z.div_pos; lia|].
      apply Z.div_lt_upper_bound; lia.
Qed.

Lemma posDigits_head (fuel : nat) (n : Z) (acc : string) :
  (1 <= fuel)%nat -> 0 <= n ->
  exists c rest, posDigits fuel n acc = String c rest /\ isDigit c = true.
Proof.
  revert n acc. induction fuel as [|fuel IH]; intros n acc Hf Hn; [lia|].
  cbn [posDigits].
  assert (Hm : 0 <= n mod 10 < 10) by (apply Z.mod_pos_bound; lia).
  destruct (digit_chr (n mod 10) Hm) as [Hd _].
  destruct (n <? 10); [eexists; eexists; split; [reflexivity|exact Hd]|].
  destruct fuel as [|fuel'].
  - eexists; eexists; split; [reflexivity|exact Hd].
  - apply IH; [lia|]. apply Z.div_pos; lia.
Qed.

Lemma digit_not_sign (c : ascii) :
  isDigit c = true -> Ascii.eqb c "-" = false /\ Ascii.eqb c "+" = false.
Proof.
  intros H. split.
  - destruct (Ascii.eqb_spec c "-") as [->|]; [discriminate H|reflexivity].
  - destruct (Ascii.eqb_spec c "+") as [->|]; [discriminate H|reflexivity].
Qed.

Lemma Atoi_Itoa_int (n : Z) :
  - 2 ^ 63 <= n <= 2 ^ 63 - 1 -> Atoi (Itoa n) = Some n.
Proof.
  intros Hn. unfold Itoa.
  assert (Hrange : (- 2 ^ (intSize - 1) <=? n) && (n <=? 2 ^ (intSize - 1) - 1) = true).
  { change (intSize - 1) with 63. apply andb_true_intro.
    split; apply Z.leb_le; lia. }
  destruct (Z.ltb_spec n 0) as [Hneg|Hpos].
  - destruct (posDigits_head 20 (- n) "") as (c & rest & He & Hc); [lia|lia|].
    pose proof (digits_posDigits 20 (- n) "") as Hd.
    rewrite He in Hd |- *. rewrite Atoi_cons. cbn [Ascii.eqb Bool.eqb orb].
    cbv zeta. rewrite Hd by (change (10 ^ Z.of_nat 20) with 100000000000000000000; lia).
    cbn [digits]. rewrite Z.opp_involutive, Hrange. reflexivity.
  - destruct (posDigits_head 20 n "") as (c & rest & He & Hc); [lia|lia|].
    pose proof (digits_posDigits 20 n "") as Hd.
    rewrite He in Hd |- *. rewrite Atoi_cons.
    destruct (digit_not_sign c Hc) as [-> ->]. cbn [orb]. cbv zeta.
    rewrite Hd by (change (10 ^ Z.of_nat 20) with 100000000000000000000; lia).
    cbn [digits]. rewrite Hrange. reflexivity.
Qed.

End strconv_facts.

(** X7. The number [fetchPRs] writes into the URL with [%d] is the number
    it read: whatever [Atoi] accepts, be it [007] or [+7], it is written
    in a form that [Atoi] reads back as the same number. *)
Theorem Atoi_Itoa (s : string) (n : Z) :
  strconv.Atoi s = Some n -> strconv.Atoi (strconv.Itoa n) = Some n.
Proof.
  intros H. apply strconv_facts.Atoi_Itoa_int.
  unfold strconv.Atoi in H.
  destruct (match s with
            | String "-"%char s' => (true, s')
            | String "+"%char s' => (false, s')
            | _ => (false, s)
            end) as [neg body].
  destruct body; [discriminate|].
  destruct (strconv.digits _ 0) as [un|]; [|discriminate].
  change (strconv.intSize - 1) with 63 in H.
  destruct (Z.leb_spec (- 2 ^ 63) (if neg then - un else un)); [|discriminate].
  destruct (Z.leb_spec (if neg then - un else un) (2 ^ 63 - 1)); [|discriminate].
  injection H as <-. lia.
Qed.

Lemma Atoi_Itoa_witness :
  strconv.Atoi "+007" = Some 7
  /\ strconv.Itoa 7 = "7"
  /\ strconv.Atoi (strconv.Itoa 7) = Some 7.
Proof.
  assert (H : strconv.Atoi "+007" = Some 7) by reflexivity.
  split; [exact H|]. split; [reflexivity|].
  exact (Atoi_Itoa "+007" 7 H).
Defined.

(** ** The fetcher: requests and answers *)

Section FetcherMore.

Variable Do : Request -> result Response.
Variable decodePR : string -> result PullRequest.
Variable decodePRs : string -> result (list PullRequest).

Lemma SplitN2_absent (s sep : string) :
  strings.Contains s sep = false -> strings.SplitN2 s sep = [s].
Proof.
  unfold strings.Contains, strings.SplitN2.
  destruct (strings.Index s sep); [discriminate|reflexivity].
Qed.

Lemma SplitN2_present (s sep : string) :
  strings.Contains s sep = true ->
  exists before after, strings.SplitN2 s sep = [before; after].
Proof.
  unfold strings.Contains, strings.SplitN2.
  destruct (strings.Index s sep); [|discriminate].
  intros _. eexists. eexists. reflexivity.
Qed.

(** The repository part that [Add] checks is the one [fetchPRs] splits. *)
Lemma validate_repoPart (repo : string) :
  validate repo = None ->
  strings.Contains (fst (fst (target repo))) "/" = true.
Proof.
  unfold validate, target.
  destruct (strings.Contains repo "#").
  - cbv zeta.
    destruct (String.eqb (strings.TrimSpace (nth 0 (strings.SplitN2 repo "#") "")) ""
              || String.eqb (strings.TrimSpace (nth 1 (strings.SplitN2 repo "#") "")) "");
      [discriminate|].
    destruct (strconv.Atoi (strings.TrimSpace (nth 1 (strings.SplitN2 repo "#") "")));
      [|discriminate].
    destruct (strings.Contains
                (strings.TrimSpace (nth 0 (strings.SplitN2 repo "#") "")) "/") eqn:E;
      [|discriminate].
    intros _.
    destruct (negb (String.eqb (strings.TrimSpace (nth 1 (strings.SplitN2 repo "#") "")) ""));
      exact E.
  - destruct (strings.Contains repo "/") eqn:E; [|discriminate].
    intros _. exact E.
Qed.

Lemma NewRequest_Some (method rawurl : string) (req : Request) :
  NewRequest method rawurl = Some req ->
  Method req = method /\ URL req = rawurl.
Proof.
  unfold NewRequest. destruct (url.Parse rawurl); [|discriminate].
  intros H. injection H as <-. split; reflexivity.
Qed.

(** What an answer with records has gone through. *)
Lemma roundTrip_Ok (rawurl token : string) (singlePR : bool) (prs : list PullRequest) :
  roundTrip Do decodePR decodePRs rawurl singlePR token = Returns (Ok prs) ->
  exists resp,
    Do (mkRequest "GET" rawurl "application/vnd.github+json"
                  (if String.eqb token "" then None else Some ("token " ++ token)))
    = Ok resp
    /\ StatusCode resp = 200
    /\ if singlePR then exists pr, decodePR (Body resp) = Ok pr /\ prs = [pr]
       else decodePRs (Body resp) = Ok prs.
Proof.
  unfold roundTrip.
  destruct (NewRequest "GET" rawurl) as [req|] eqn:Hreq; [|discriminate].
  destruct (NewRequest_Some _ _ _ Hreq) as [-> ->].
  destruct (Do _) as [resp|]; [|discriminate].
  destruct (Z.eqb_spec (StatusCode resp) 200) as [E|]; [|discriminate].
  cbn [negb]. intros H. exists resp. split; [reflexivity|]. split; [exact E|].
  destruct singlePR.
  - destruct (decodePR (Body resp)) as [pr|]; [|discriminate].
    exists pr. split; [reflexivity|]. congruence.
  - congruence.
Qed.

(** X8. A reference without a slash in its repository part is answered
    "invalid repo", with the reference as it was given, and no request is
    made for it. *)
Theorem fetchPRs_without_slash (repo token : string) :
  strings.Contains (fst (fst (target repo))) "/" = false ->
  fetchPRs Do decodePR decodePRs repo token = Returns (Failed (ErrInvalidRepo repo)).
Proof.
  intros H. unfold fetchPRs.
  destruct (target repo) as [[repoPart singlePR] prNumber]. cbn [fst] in H.
  rewrite (SplitN2_absent _ _ H). reflexivity.
Qed.

(** X9. Every reference that passes the checks of [Add] passes the one of
    [fetchPRs]: its repository part splits into an owner and a name, and
    a request is made for it. *)
Theorem accepted_reference_is_requested (repo token : string) :
  validate repo = None ->
  exists owner name,
    strings.SplitN2 (fst (fst (target repo))) "/" = [owner; name]
    /\ fetchPRs Do decodePR decodePRs repo token
       = roundTrip Do decodePR decodePRs
           (if snd (fst (target repo)) then
              "https://api.github.com/repos/" ++ owner ++ "/" ++ name ++ "/pulls/"
                ++ strconv.Itoa (snd (target repo))
            else
              "https://api.github.com/repos/" ++ owner ++ "/" ++ name
                ++ "/pulls?state=open")
           (snd (fst (target repo))) token.
Proof.
  intros H. apply validate_repoPart in H.
  destruct (SplitN2_present _ _ H) as (owner & name & Hs).
  exists owner, name. split; [exact Hs|].
  destruct (target repo) as [[repoPart singlePR] prNumber] eqn:Ht.
  cbn [fst snd] in Hs |- *.
  apply (fetchPRs_target Do decodePR decodePRs repo token repoPart); assumption.
Qed.

(** X10. Records come only from an answer with status 200 to a [GET] on
    the API of GitHub that carries the [Accept] header, and the token
    when there is one; a reference with a number gives exactly one
    record, the decoded body. *)
Theorem fetchPRs_records_need_200 (repo token : string) (prs : list PullRequest) :
  fetchPRs Do decodePR decodePRs repo token = Returns (Ok prs) ->
  exists req resp,
    Do req = Ok resp
    /\ StatusCode resp = 200
    /\ Method req = "GET"
    /\ strings.HasPrefix (URL req) "https://api.github.com/repos/" = true
    /\ Accept req = "application/vnd.github+json"
    /\ Authorization req
       = (if String.eqb token "" then None else Some ("token " ++ token))
    /\ if snd (fst (target repo))
       then exists pr, decodePR (Body resp) = Ok pr /\ prs = [pr]
       else decodePRs (Body resp) = Ok prs.
Proof.
  unfold fetchPRs.
  destruct (target repo) as [[repoPart singlePR] prNumber]. cbn [fst snd].
  destruct (strings.SplitN2 repoPart "/") as [|owner [|name [|]]]; try discriminate.
  intros H. apply roundTrip_Ok in H. destruct H as (resp & HDo & Hst & Hdec).
  eexists. exists resp. split; [exact HDo|]. split; [exact Hst|].
  cbn [Method URL Accept Authorization].
  repeat split; [|exact Hdec].
  destruct singlePR; apply HasPrefix_append.
Qed.

End FetcherMore.

Lemma fetchPRs_without_slash_witness :
  let Do := fun _ : Request => Ok (mkResponse 200 "200 OK" "[]") in
  let decodePR := fun _ : string => @Failed PullRequest (ErrLib "EOF") in
  let decodePRs := fun _ : string => @Ok (list PullRequest) [] in
  strings.Contains (fst (fst (target " name #7"))) "/" = false
  /\ fetchPRs Do decodePR decodePRs " name #7" "t"
     = Returns (Failed (ErrInvalidRepo " name #7")).
Proof.
  intros Do decodePR decodePRs.
  assert (H : strings.Contains (fst (fst (target " name #7"))) "/" = false)
    by (vm_compute; reflexivity).
  split; [exact H|].
  exact (fetchPRs_without_slash Do decodePR decodePRs " name #7" "t" H).
Defined.

Lemma accepted_reference_is_requested_witness :
  let Do := fun _ : Request => Ok (mkResponse 200 "200 OK" "[]") in
  let decodePR := fun _ : string => @Failed PullRequest (ErrLib "EOF") in
  let decodePRs := fun _ : string => @Ok (list PullRequest) [] in
  validate "owner/name/x# 7" = None
  /\ exists owner name,
       strings.SplitN2 (fst (fst (target "owner/name/x# 7"))) "/" = [owner; name]
       /\ fetchPRs Do decodePR decodePRs "owner/name/x# 7" "t"
          = roundTrip Do decodePR decodePRs
              (if snd (fst (target "owner/name/x# 7")) then
                 "https://api.github.com/repos/" ++ owner ++ "/" ++ name ++ "/pulls/"
                   ++ strconv.Itoa (snd (target "owner/name/x# 7"))
               else
                 "https://api.github.com/repos/" ++ owner ++ "/" ++ name
                   ++ "/pulls?state=open")
              (snd (fst (target "owner/name/x# 7"))) "t".
Proof.
  intros Do decodePR decodePRs.
  assert (H : validate "owner/name/x# 7" = None) by (vm_compute; reflexivity).
  split; [exact H|].
  exact (accepted_reference_is_requested Do decodePR decodePRs "owner/name/x# 7" "t" H).
Defined.

Lemma fetchPRs_records_need_200_witness :
  let pr := mkPullRequest 7 "Fix the parser" "https://github.com/owner/name/pull/7"
                          (mkUser "someone") "2024-01-01T00:00:00Z" in
  let Do := fun _ : Request => Ok (mkResponse 200 "200 OK" "{}") in
  let decodePR := fun _ : string => Ok pr in
  let decodePRs := fun _ : string => @Failed (list PullRequest) (ErrLib "EOF") in
  fetchPRs Do decodePR decodePRs "owner/name#7" "t" = Returns (Ok [pr])
  /\ exists req resp,
       Do req = Ok resp
       /\ StatusCode resp = 200
       /\ Method req = "GET"
       /\ strings.HasPrefix (URL req) "https://api.github.com/repos/" = true
       /\ Accept req = "application/vnd.github+json"
       /\ Authorization req = (if String.eqb "t" "" then None else Some ("token " ++ "t"))
       /\ if snd (fst (target "owner/name#7"))
          then exists pr', decodePR (Body resp) = Ok pr' /\ [pr] = [pr']
          else decodePRs (Body resp) = Ok [pr].
Proof.
  intros pr Do decodePR decodePRs.
  assert (H : fetchPRs Do decodePR decodePRs "owner/name#7" "t" = Returns (Ok [pr]))
    by (vm_compute; reflexivity).
  split; [exact H|].
  exact (fetchPRs_records_need_200 Do decodePR decodePRs "owner/name#7" "t" [pr] H).
Defined.

(** ** The fan-out: capacity and progress *)

Section FanOutMore.

Variable Do : Request -> result Response.
Variable decodePR : string -> result PullRequest.
Variable decodePRs : string -> result (list PullRequest).

Local Abbreviation goroutine := (goroutine Do decodePR decodePRs).
Local Abbreviation steps := (steps Do decodePR decodePRs).
Local Abbreviation step := (step Do decodePR decodePRs).
Local Abbreviation sendAll := (sendAll Do decodePR decodePRs).

Lemma started_accounted (token : string) (repos : list string) :
  accounted Do decodePR decodePRs token repos (started repos).
Proof.
  unfold started. rewrite accounted_Live. cbn [queued running ch map].
  rewrite !app_nil_r. reflexivity.
Qed.

(** X13. The channel always has room.  In every state a run reaches, the
    references not started, the goroutines running and the results in the
    channel add up to the number of references; a running goroutine
    therefore finds the channel, made for that many results, short of
    full, and its send does not block. *)
Theorem fan_out_channel_has_room (token : string) (repos : list string) (p : Pool) :
  steps token (started repos) (Live p) ->
  (List.length (queued p) + List.length (running p) + List.length (ch p)
   = List.length repos)%nat
  /\ (running p <> [] -> (List.length (ch p) < List.length repos)%nat).
Proof.
  intros Hrun.
  apply (steps_accounted Do decodePR decodePRs token repos) in Hrun;
    [|apply started_accounted].
  rewrite accounted_Live in Hrun. apply Permutation_length in Hrun.
  rewrite length_app, !length_map, length_app in Hrun.
  split; [exact Hrun|].
  intros Hr. destruct (running p); [congruence|]. cbn [List.length] in Hrun. lia.
Qed.

(** X12. When the fan-out reaches the end, the results collected are one
    per reference: their [Repo] fields are the references in some order,
    and each result is what the goroutine of its own reference sent. *)
Theorem fan_out_one_result_per_reference
    (token : string) (repos : list string) (results : list PRResult) :
  steps token (started repos) (collected results) ->
  Permutation (map Repo results) repos
  /\ Forall (fun res => goroutine token (Repo res) = Some res) results.
Proof.
  intros Hrun.
  apply (steps_accounted Do decodePR decodePRs token repos) in Hrun;
    [|apply started_accounted].
  unfold collected in Hrun. rewrite accounted_Live in Hrun.
  cbn [queued running ch map app] in Hrun.
  destruct (Permutation_map_inv _ _ Hrun) as (order & Hmap & Hperm).
  destruct (sent_in_order Do decodePR decodePRs token results order Hmap)
    as [_ Hrepo].
  split; [rewrite Hrepo; symmetry; exact Hperm|].
  apply Forall_forall. intros res Hin.
  assert (HS : In (Some res) (map (goroutine token) order))
    by (rewrite <- Hmap; apply in_map; exact Hin).
  apply in_map_iff in HS. destruct HS as (r & Hr & _).
  rewrite (goroutine_Repo Do decodePR decodePRs token r res Hr). exact Hr.
Qed.

(** X14. Every step of the fan-out uses up some of what is left to do,
    two for a queued reference and one for a running goroutine, so that
    no run goes on for ever. *)
Theorem fan_out_step_decreases (token : string) (s1 s2 : state) :
  step token s1 s2 -> (pending s2 < pending s1)%nat.
Proof.
  intros H. destruct H; cbn [pending queued running List.length];
    rewrite ?length_app; cbn [List.length]; lia.
Qed.

(** X15. The fan-out is never stuck before the end: while a reference is
    queued or a goroutine is running, a step can be taken. *)
Theorem fan_out_never_stuck (token : string) (p : Pool) :
  queued p <> [] \/ running p <> [] ->
  exists s2, step token (Live p) s2.
Proof.
  destruct p as [q run c]. cbn [queued running]. intros [H|H].
  - destruct q as [|r q]; [congruence|].
    eexists. apply step_go.
  - destruct run as [|r run]; [congruence|].
    destruct (goroutine token r) as [res|] eqn:Hr.
    + eexists. apply (step_send _ _ _ token r res q [] run c Hr).
    + eexists. apply (step_panic _ _ _ token r q [] run c Hr).
Qed.

End FanOutMore.

Lemma fan_out_any_order_witness :
  let Do := fun req : Request =>
              if String.eqb (URL req) "https://api.github.com/repos/a/x/pulls?state=open"
              then Ok (mkResponse 200 "200 OK" "[]")
              else Ok (mkResponse 404 "404 Not Found" "{}") in
  let decodePR := fun _ : string => @Failed PullRequest (ErrLib "EOF") in
  let decodePRs := fun _ : string => @Ok (list PullRequest) [] in
  let results := [mkPRResult "b/y" [] (Some (ErrAPI "404 Not Found" "{}"));
                  mkPRResult "a/x" [] None] in
  (Permutation ["a/x"; "b/y"] ["b/y"; "a/x"]
   /\ sendAll Do decodePR decodePRs "" ["b/y"; "a/x"] = Some results)
  /\ steps Do decodePR decodePRs "" (started ["a/x"; "b/y"]) (collected results).
Proof.
  intros Do decodePR decodePRs results.
  assert (H1 : Permutation ["a/x"; "b/y"] ["b/y"; "a/x"]) by apply perm_swap.
  assert (H2 : sendAll Do decodePR decodePRs "" ["b/y"; "a/x"] = Some results)
    by (vm_compute; reflexivity).
  split; [split; assumption|].
  exact (fan_out_any_order Do decodePR decodePRs "" _ _ results H1 H2).
Defined.

Lemma fan_out_one_result_per_reference_witness :
  let Do := fun req : Request =>
              if String.eqb (URL req) "https://api.github.com/repos/a/x/pulls?state=open"
              then Ok (mkResponse 200 "200 OK" "[]")
              else Ok (mkResponse 404 "404 Not Found" "{}") in
  let decodePR := fun _ : string => @Failed PullRequest (ErrLib "EOF") in
  let decodePRs := fun _ : string => @Ok (list PullRequest) [] in
  let results := [mkPRResult "b/y" [] (Some (ErrAPI "404 Not Found" "{}"));
                  mkPRResult "a/x" [] None] in
  steps Do decodePR decodePRs "" (started ["a/x"; "b/y"]) (collected results)
  /\ Permutation (map Repo results) ["a/x"; "b/y"]
  /\ Forall (fun res => goroutine Do decodePR decodePRs "" (Repo res) = Some res) results.
Proof.
  intros Do decodePR decodePRs results.
  assert (Hrun : steps Do decodePR decodePRs "" (started ["a/x"; "b/y"])
                       (collected results)).
  { eapply steps_trans; [apply steps_go_all|]. cbn [app].
    apply (steps_send_all Do decodePR decodePRs "" ["b/y"; "a/x"] _ [] results);
      [apply perm_swap|vm_compute; reflexivity]. }
  split; [exact Hrun|].
  exact (fan_out_one_result_per_reference Do decodePR decodePRs "" _ results Hrun).
Defined.

Lemma fan_out_channel_has_room_witness :
  let Do := fun _ : Request => Ok (mkResponse 404 "404 Not Found" "{}") in
  let decodePR := fun _ : string => @Failed PullRequest (ErrLib "EOF") in
  let decodePRs := fun _ : string => @Ok (list PullRequest) [] in
  let p := mkPool [] ["a/x"]
                  [mkPRResult "b/y" [] (Some (ErrAPI "404 Not Found" "{}"))] in
  steps Do decodePR decodePRs "" (started ["a/x"; "b/y"]) (Live p)
  /\ (List.length (queued p) + List.length (running p) + List.length (ch p) = 2)%nat
  /\ (running p <> [] -> (List.length (ch p) < 2)%nat).
Proof.
  intros Do decodePR decodePRs p.
  assert (Hrun : steps Do decodePR decodePRs "" (started ["a/x"; "b/y"]) (Live p)).
  { eapply steps_trans; [apply steps_go_all|]. cbn [app].
    eapply steps_cons; [|apply steps_refl].
    apply (step_send Do decodePR decodePRs "" "b/y"
                     (mkPRResult "b/y" [] (Some (ErrAPI "404 Not Found" "{}")))
                     [] ["a/x"] [] []).
    vm_compute. reflexivity. }
  split; [exact Hrun|].
  exact (fan_out_channel_has_room Do decodePR decodePRs "" ["a/x"; "b/y"] p Hrun).
Defined.

Lemma fan_out_step_decreases_witness :
  let Do := fun _ : Request => Ok (mkResponse 404 "404 Not Found" "{}") in
  let decodePR := fun _ : string => @Failed PullRequest (ErrLib "EOF") in
  let decodePRs := fun _ : string => @Ok (list PullRequest) [] in
  let s1 := Live (mkPool ["b/y"] ["a/x"] []) in
  let s2 := Live (mkPool [] ["a/x"; "b/y"] []) in
  step Do decodePR decodePRs "" s1 s2 /\ (pending s2 < pending s1)%nat.
Proof.
  intros Do decodePR decodePRs s1 s2.
  assert (H : step Do decodePR decodePRs "" s1 s2)
    by apply (step_go Do decodePR decodePRs "" "b/y" [] ["a/x"] []).
  split; [exact H|].
  exact (fan_out_step_decreases Do decodePR decodePRs "" s1 s2 H).
Defined.

Lemma fan_out_never_stuck_witness :
  let Do := fun _ : Request => Ok (mkResponse 404 "404 Not Found" "{}") in
  let decodePR := fun _ : string => @Failed PullRequest (ErrLib "EOF") in
  let decodePRs := fun _ : string => @Ok (list PullRequest) [] in
  let p := mkPool [] ["a/b%zz"] [] in
  (queued p <> [] \/ running p <> [])
  /\ exists s2, step Do decodePR decodePRs "" (Live p) s2.
Proof.
  intros Do decodePR decodePRs p.
  assert (H : queued p <> [] \/ running p <> []) by (right; discriminate).
  split; [exact H|].
  exact (fan_out_never_stuck Do decodePR decodePRs "" p H).
Defined.

(** ** The renderer: the table *)

Module table_facts.
Import utf8 utf8_more.

Lemma runes_encode_valid (rs : list Z) :
  Forall (fun r => ValidRune r = true) rs -> runes (encode rs) = rs.
Proof.
  intros H. rewrite <- (append_nil_r (encode rs)), runes_encode by exact H.
  apply app_nil_r.
Qed.

Lemma runeCount_append (s t : string) :
  match t with String d _ => ord d <? 128 | EmptyString => true end = true ->
  runeCount (s ++ t) = (runeCount s + runeCount t)%nat.
Proof.
  intros H. unfold runeCount. rewrite runes_append by exact H. apply length_app.
Qed.

Lemma runeCount_cons (c : ascii) (t : string) :
  ord c < 128 -> runeCount (String c t) = S (runeCount t).
Proof.
  intros H. unfold runeCount. rewrite runes_cons, decode_1 by exact H.
  reflexivity.
Qed.

Lemma runeCount_ascii (s : string) :
  allBytes (fun c => ord c <? 128) s = true -> runeCount s = String.length s.
Proof.
  induction s as [|c s IH]; [reflexivity|]. cbn [allBytes]. intros H.
  apply andb_prop in H. destruct H as [Hc Hs]. apply Z.ltb_lt in Hc.
  rewrite runeCount_cons by exact Hc. cbn [String.length]. f_equal. apply IH, Hs.
Qed.

Lemma Repeat_byte (c : ascii) (k : nat) :
  ord c < 128 ->
  allBytes (fun c => ord c <? 128) (Repeat (String c "") k) = true
  /\ String.length (Repeat (String c "") k) = k.
Proof.
  intros Hc. induction k as [|k [IH1 IH2]]; [split; reflexivity|].
  cbn [Repeat append allBytes String.length]. rewrite IH1, IH2.
  apply Z.ltb_lt in Hc. rewrite Hc. split; reflexivity.
Qed.

Lemma Repeat_head (c : ascii) (k : nat) (t : string) :
  ord c < 128 ->
  match t with String d _ => ord d <? 128 | EmptyString => true end = true ->
  match Repeat (String c "") k ++ t with
  | String d _ => ord d <? 128
  | EmptyString => true
  end = true.
Proof.
  intros Hc Ht. destruct k as [|k]; [exact Ht|].
  cbn [Repeat append]. apply Z.ltb_lt, Hc.
Qed.

(** A padded cell is as wide as the column, or as the cell when the cell
    is wider. *)
Lemma runeCount_padRight (width : nat) (s : string) :
  runeCount (padRight width s) = Nat.max width (runeCount s).
Proof.
  unfold padRight.
  rewrite runeCount_append.
  - rewrite (runeCount_ascii (Repeat " " _)), (proj2 (Repeat_byte " " _ ltac:(cbn; lia)))
      by (apply (Repeat_byte " "); cbn; lia).
    lia.
  - rewrite <- (append_nil_r (Repeat " " _)).
    apply (Repeat_head " "); [cbn; lia|reflexivity].
Qed.

Lemma formatRow_read (w0 w1 w2 : nat) (c0 c1 c2 : string) :
  widthRead w0 && widthRead w1 && widthRead w2 = true ->
  formatRow (w0, w1, w2) (c0, c1, c2)
  = padRight w0 c0 ++ "  " ++ padRight w1 c1 ++ "  " ++ padRight w2 c2
      ++ " " ++ newline.
Proof.
  intros H. apply andb_prop in H. destruct H as [H H2].
  apply andb_prop in H. destruct H as [H0 H1].
  unfold formatRow. rewrite H0, H1, H2. reflexivity.
Qed.

Lemma runeCount_formatRow (w0 w1 w2 : nat) (c0 c1 c2 : string) :
  widthRead w0 && widthRead w1 && widthRead w2 = true ->
  runeCount (formatRow (w0, w1, w2) (c0, c1, c2))
  = (Nat.max w0 (runeCount c0) + Nat.max w1 (runeCount c1)
     + Nat.max w2 (runeCount c2) + 6)%nat.
Proof.
  intros H. rewrite (formatRow_read _ _ _ _ _ _ H).
  rewrite runeCount_append by reflexivity.
  cbn [append]. rewrite !runeCount_cons by (cbn; lia).
  rewrite runeCount_append by reflexivity.
  cbn [append]. rewrite !runeCount_cons by (cbn; lia).
  rewrite runeCount_append by reflexivity.
  cbn [append]. unfold newline. rewrite !runeCount_cons by (cbn; lia).
  rewrite !runeCount_padRight. change (runeCount "") with 0%nat. lia.
Qed.

Lemma runeCount_separator (w0 w1 w2 : nat) :
  runeCount (separator (w0, w1, w2)) = (w0 + w1 + w2 + 7)%nat.
Proof.
  pose proof (Repeat_byte "-" w0 ltac:(cbn; lia)) as [A0 L0].
  pose proof (Repeat_byte "-" w1 ltac:(cbn; lia)) as [A1 L1].
  pose proof (Repeat_byte "-" w2 ltac:(cbn; lia)) as [A2 L2].
  unfold separator. rewrite runeCount_ascii.
  - rewrite !length_append, L0, L1, L2. cbn [String.length newline]. lia.
  - rewrite !allBytes_append, A0, A1, A2. reflexivity.
Qed.

Lemma grow_max (width : nat) (cell : string) :
  grow width cell = Nat.max width (runeCount cell).
Proof.
  unfold grow. destruct (Nat.ltb_spec width (runeCount cell)); lia.
Qed.

Lemma fold_max_init (a x : nat) (l : list nat) :
  fold_right Nat.max (Nat.max a x) l = Nat.max x (fold_right Nat.max a l).
Proof. induction l as [|y l IH]; cbn [fold_right]; lia. Qed.

Lemma fold_widen (rows : list (string * string * string)) (a b c : nat) :
  fold_left widen rows (a, b, c)
  = (fold_right Nat.max a (map (fun r => runeCount (fst (fst r))) rows),
     fold_right Nat.max b (map (fun r => runeCount (snd (fst r))) rows),
     fold_right Nat.max c (map (fun r => runeCount (snd r)) rows)).
Proof.
  revert a b c. induction rows as [|[[c0 c1] c2] rows IH]; intros a b c;
    [reflexivity|].
  cbn [fold_left widen map fold_right fst snd]. rewrite IH, !grow_max.
  rewrite !fold_max_init. reflexivity.
Qed.

Lemma fold_max_ge (a : nat) (l : list nat) :
  (a <= fold_right Nat.max a l)%nat
  /\ Forall (fun x => (x <= fold_right Nat.max a l)%nat) l.
Proof.
  induction l as [|y l [IH1 IH2]]; [split; [apply le_n|constructor]|].
  cbn [fold_right]. split; [lia|]. constructor; [lia|].
  apply (Forall_impl _ (fun x Hx => Nat.le_trans _ _ _ Hx (Nat.le_max_r y _))), IH2.
Qed.

Lemma fold_max_attained (a : nat) (l : list nat) :
  fold_right Nat.max a l = a \/ In (fold_right Nat.max a l) l.
Proof.
  induction l as [|y l IH]; [left; reflexivity|]. cbn [fold_right].
  destruct (Nat.max_spec y (fold_right Nat.max a l)) as [[_ ->]|[_ ->]].
  - destruct IH as [IH|IH]; [left; exact IH|right; right; exact IH].
  - right. left. reflexivity.
Qed.

(** The rows of one result. *)
Lemma tableRows_cons (res : PRResult) (results : list PRResult) :
  tableRows (res :: results)
  = (match Err res with
     | Some e => [(Repo res, "", ("(error: " ++ Error e ++ ")")%string)]
     | None =>
       match PRs res with
       | [] => [(Repo res, "", "(no open PRs)")]
       | prs => map (fun pr => (Repo res, HTMLURL pr, truncate (Title pr) 60)) prs
       end
     end ++ tableRows results)%list.
Proof. reflexivity. Qed.

Lemma truncate_bound (s : string) (max : Z) :
  Z.of_nat (runeCount (truncate s max)) <= Z.max max 0.
Proof.
  unfold truncate, runeCount.
  destruct (Z.leb_spec max 0) as [H0|H0]; [cbn; lia|].
  destruct (Z.leb_spec (Z.of_nat (List.length (runes s))) max) as [Hle|Hgt]; [lia|].
  destruct (Z.leb_spec max 3) as [H3|H3].
  - rewrite runes_encode_valid by apply Forall_firstn, runes_valid.
    rewrite length_firstn. lia.
  - rewrite runes_encode by apply Forall_firstn, runes_valid.
    change (runes "...") with [46; 46; 46].
    rewrite length_app, length_firstn. cbn [List.length]. lia.
Qed.

End table_facts.

Import table_facts.

(** X16. [truncate] keeps its promise for every limit: the result never
    has more than [max] runes, none at all for a limit of zero or less,
    and its runes are the first runes of the title, followed by the three
    dots or by nothing. *)
Theorem truncate_never_longer (s : string) (max : Z) :
  Z.of_nat (runeCount (truncate s max)) <= Z.max max 0
  /\ exists k dots,
       utf8.runes (truncate s max) = (firstn k (utf8.runes s) ++ dots)%list
       /\ (dots = [] \/ dots = [46; 46; 46]).
Proof.
  split; [apply truncate_bound|]. unfold truncate.
  destruct (Z.leb_spec max 0) as [H0|H0].
  { exists 0%nat, []. split; [reflexivity|left; reflexivity]. }
  destruct (Z.leb_spec (Z.of_nat (List.length (utf8.runes s))) max) as [Hle|Hgt].
  { exists (List.length (utf8.runes s)), [].
    rewrite firstn_all, app_nil_r. split; [reflexivity|left; reflexivity]. }
  destruct (Z.leb_spec max 3) as [H3|H3].
  - exists (Z.to_nat max), [].
    rewrite runes_encode_valid by apply Forall_firstn, runes_valid.
    rewrite app_nil_r. split; [reflexivity|left; reflexivity].
  - exists (Z.to_nat (max - 3)), [46; 46; 46].
    rewrite runes_encode by apply Forall_firstn, runes_valid.
    split; [reflexivity|right; reflexivity].
Qed.

(** X17. Truncating twice is truncating once: what [truncate] returns is
    short enough for [truncate] to leave it alone. *)
Theorem truncate_idempotent (s : string) (max : Z) :
  truncate (truncate s max) max = truncate s max.
Proof.
  pose proof (truncate_bound s max) as H.
  destruct (Z.leb_spec max 0) as [H0|H0].
  - unfold truncate. destruct (Z.leb_spec max 0); [reflexivity|lia].
  - unfold truncate at 1. unfold runeCount in H.
    destruct (Z.leb_spec max 0); [lia|].
    destruct (Z.leb_spec (Z.of_nat (List.length (utf8.runes (truncate s max)))) max);
      [reflexivity|lia].
Qed.

(** X18. Every result gets at least one row: an error or an empty answer
    is one row, with its message in the title column and no URL, and
    otherwise there is one row per pull request.  The first column of each
    row is the reference of a result. *)
Theorem tableRows_per_result (results : list PRResult) :
  List.length (tableRows results)
  = list_sum (map (fun res => match Err res with
                              | Some _ => 1%nat
                              | None => Nat.max 1 (List.length (PRs res))
                              end) results)
  /\ (List.length results <= List.length (tableRows results))%nat
  /\ Forall (fun row => In (fst (fst row)) (map Repo results)) (tableRows results).
Proof.
  induction results as [|res results (IH1 & IH2 & IH3)].
  { split; [reflexivity|]. split; [apply le_n|constructor]. }
  rewrite tableRows_cons.
  assert (Hn : List.length
                 match Err res with
                 | Some e => [(Repo res, "", "(error: " ++ Error e ++ ")")]
                 | None =>
                   match PRs res with
                   | [] => [(Repo res, "", "(no open PRs)")]
                   | prs => map (fun pr => (Repo res, HTMLURL pr, truncate (Title pr) 60)) prs
                   end
                 end
               = match Err res with
                 | Some _ => 1%nat
                 | None => Nat.max 1 (List.length (PRs res))
                 end).
  { destruct (Err res); [reflexivity|].
    destruct (PRs res) as [|pr prs]; [reflexivity|].
    rewrite length_map. cbn [List.length]. lia. }
  rewrite length_app, Hn, IH1. cbn [map list_sum List.length].
  split; [reflexivity|]. split.
  { rewrite IH1 in IH2. destruct (Err res); lia. }
  apply Forall_app. split.
  - destruct (Err res).
    + constructor; [left; reflexivity|constructor].
    + destruct (PRs res) as [|pr prs].
      * constructor; [left; reflexivity|constructor].
      * apply Forall_forall. intros row Hrow.
        destruct Hrow as [<-|Hrow]; [left; reflexivity|].
        apply in_map_iff in Hrow.
        destruct Hrow as (x & <- & _). left. reflexivity.
  - apply (Forall_impl _ (fun row (H : In (fst (fst row)) (map Repo results)) =>
                            or_intror H)), IH3.
Qed.

(** X19. When no fetch failed, no title cell has more than 60 runes, and
    the TITLE column is at most 60 wide. *)
Theorem titles_fit_60 (results : list PRResult) :
  Forall (fun res => Err res = None) results ->
  Forall (fun row => (runeCount (snd row) <= 60)%nat) (tableRows results)
  /\ (5 <= snd (columnWidths (tableRows results)) <= 60)%nat.
Proof.
  intros Hok.
  assert (Hrows : Forall (fun row => (runeCount (snd row) <= 60)%nat) (tableRows results)).
  { induction Hok as [|res results Hres _ IH]; [constructor|].
    rewrite tableRows_cons, Hres. apply Forall_app. split; [|exact IH].
    destruct (PRs res) as [|pr prs].
    - constructor; [cbn; lia|constructor].
    - apply Forall_forall. intros row Hrow.
      destruct Hrow as [<-|Hrow].
      + cbn [snd]. pose proof (truncate_bound (Title pr) 60). lia.
      + apply in_map_iff in Hrow. destruct Hrow as (x & <- & _). cbn [snd].
        pose proof (truncate_bound (Title x) 60). lia. }
  split; [exact Hrows|].
  unfold columnWidths. rewrite fold_widen. cbn [snd].
  split; [apply fold_max_ge|].
  destruct (fold_max_attained 5 (map (fun r => runeCount (snd r)) (tableRows results)))
    as [E|Hin]; [rewrite E; lia|].
  apply in_map_iff in Hin. destruct Hin as (row & E & Hrow).
  rewrite <- E. apply (proj1 (Forall_forall _ _) Hrows row Hrow).
Qed.

Lemma columnWidths_fit (rows : list (string * string * string)) (w0 w1 w2 : nat) :
  columnWidths rows = (w0, w1, w2) ->
  (4 <= w0 /\ 3 <= w1 /\ 5 <= w2)%nat
  /\ Forall (fun r => (runeCount (fst (fst r)) <= w0)%nat
                      /\ (runeCount (snd (fst r)) <= w1)%nat
                      /\ (runeCount (snd r) <= w2)%nat) rows.
Proof.
  unfold columnWidths. rewrite fold_widen. intros H. injection H as <- <- <-.
  split; [repeat split; apply fold_max_ge|].
  apply Forall_forall. intros r Hr.
  pose proof (proj2 (fold_max_ge 4 (map (fun r => runeCount (fst (fst r))) rows))) as H0.
  pose proof (proj2 (fold_max_ge 3 (map (fun r => runeCount (snd (fst r))) rows))) as H1.
  pose proof (proj2 (fold_max_ge 5 (map (fun r => runeCount (snd r)) rows))) as H2.
  rewrite Forall_forall in H0, H1, H2.
  repeat split; [apply H0|apply H1|apply H2];
    apply in_map_iff; exists r; split; (reflexivity || exact Hr).
Qed.

(** X20. The widths of the columns are maxima: each is the largest rune
    count of its cells, and no less than 4, 3 and 5, the widths of the
    header; so every cell fits its column. *)
Theorem columnWidths_are_maxima (rows : list (string * string * string)) :
  columnWidths rows
  = (fold_right Nat.max 4%nat (map (fun r => runeCount (fst (fst r))) rows),
     fold_right Nat.max 3%nat (map (fun r => runeCount (snd (fst r))) rows),
     fold_right Nat.max 5%nat (map (fun r => runeCount (snd r)) rows))
  /\ Forall (fun r => (runeCount (fst (fst r)) <= fst (fst (columnWidths rows)))%nat
                      /\ (runeCount (snd (fst r)) <= snd (fst (columnWidths rows)))%nat
                      /\ (runeCount (snd r) <= snd (columnWidths rows))%nat) rows.
Proof.
  split; [apply fold_widen|].
  destruct (columnWidths rows) as [[w0 w1] w2] eqn:E.
  apply (columnWidths_fit rows w0 w1 w2 E).
Qed.

(** X21. The table is aligned, counting runes.  With column widths that
    [fmt] reads, the header and every row have the same number of runes,
    the three widths and six more for the gaps, the closing space and the
    line feed; the separator is one rune longer, as it ends with two
    spaces.  There are two lines more than there are rows. *)
Theorem table_aligned (results : list PRResult) (w0 w1 w2 : nat) :
  columnWidths (tableRows results) = (w0, w1, w2) ->
  widthRead w0 && widthRead w1 && widthRead w2 = true ->
  exists header sep body,
    tableLines results = header :: sep :: body
    /\ List.length body = List.length (tableRows results)
    /\ Forall (fun line => runeCount line = (w0 + w1 + w2 + 6)%nat) (header :: body)
    /\ runeCount sep = (w0 + w1 + w2 + 7)%nat.
Proof.
  intros Hw Hread. unfold tableLines. cbv zeta. rewrite Hw.
  eexists. eexists. eexists. split; [reflexivity|].
  split; [apply length_map|].
  destruct (columnWidths_fit _ _ _ _ Hw) as ((H0 & H1 & H2) & Hfit).
  split; [|apply runeCount_separator].
  constructor.
  - rewrite (runeCount_formatRow _ _ _ _ _ _ Hread).
    change (runeCount "REPO") with 4%nat. change (runeCount "URL") with 3%nat.
    change (runeCount "TITLE") with 5%nat. lia.
  - apply Forall_map. apply (Forall_impl _ (P := fun r =>
        (runeCount (fst (fst r)) <= w0)%nat
        /\ (runeCount (snd (fst r)) <= w1)%nat
        /\ (runeCount (snd r) <= w2)%nat)); [|exact Hfit].
    intros [[c0 c1] c2] (A & B & C). cbn [fst snd] in A, B, C.
    rewrite (runeCount_formatRow _ _ _ _ _ _ Hread). lia.
Qed.

Lemma titles_fit_60_witness :
  let e := utf8.EncodeRune 0xE9 in
  let long := utf8.encode (repeat 0xE9 70) in
  let pr := mkPullRequest 7 long "https://github.com/owner/name/pull/7"
                          (mkUser "someone") "2024-01-01T00:00:00Z" in
  let results := [mkPRResult "owner/name" [pr] None; mkPRResult "x/y" [] None] in
  Forall (fun res => Err res = None) results
  /\ Forall (fun row => (runeCount (snd row) <= 60)%nat) (tableRows results)
  /\ (5 <= snd (columnWidths (tableRows results)) <= 60)%nat.
Proof.
  intros e long pr results.
  assert (H : Forall (fun res => Err res = None) results)
    by (repeat constructor).
  split; [exact H|]. exact (titles_fit_60 results H).
Defined.

Lemma table_aligned_witness :
  let pr := mkPullRequest 7 (utf8.encode (repeat 0xE9 70))
                          "https://github.com/owner/name/pull/7"
                          (mkUser "someone") "2024-01-01T00:00:00Z" in
  let results := [mkPRResult "owner/name" [pr] None;
                  mkPRResult "x/y" [] (Some ErrNotFound)] in
  (columnWidths (tableRows results) = (10, 36, 60)%nat
   /\ widthRead 10 && widthRead 36 && widthRead 60 = true)
  /\ exists header sep body,
       tableLines results = header :: sep :: body
       /\ List.length body = List.length (tableRows results)
       /\ Forall (fun line => runeCount line = (10 + 36 + 60 + 6)%nat) (header :: body)
       /\ runeCount sep = (10 + 36 + 60 + 7)%nat.
Proof.
  intros pr results.
  assert (H1 : columnWidths (tableRows results) = (10, 36, 60)%nat)
    by (vm_compute; reflexivity).
  assert (H2 : widthRead 10 && widthRead 36 && widthRead 60 = true)
    by (vm_compute; reflexivity).
  split; [split; assumption|].
  exact (table_aligned results 10 36 60 H1 H2).
Defined.

(** ** The commands *)

Section CommandFacts.

Variable foldOrbit : Z -> Z -> bool.
Variable Do : Request -> result Response.
Variable decodePR : string -> result PullRequest.
Variable decodePRs : string -> result (list PullRequest).

(** [cmdAdd] and [cmdRemove] by cases. *)
Lemma cmdAdd_cases (repo : string) (rest : list string) (env : Env) :
  (exists e, NewRepoStore env = Some e
             /\ cmdAdd foldOrbit (repo :: rest) env
                = mkDone 1 (Println ["error initializing store:"; Error e]) (disk env))
  \/ (exists e, NewRepoStore env = None
                /\ snd (Add foldOrbit repo (disk env)) = Some e
                /\ cmdAdd foldOrbit (repo :: rest) env
                   = mkDone 1 (Println ["error adding repo:"; Error e]) (disk env))
  \/ (NewRepoStore env = None
      /\ snd (Add foldOrbit repo (disk env)) = None
      /\ cmdAdd foldOrbit (repo :: rest) env
         = mkDone 0 (Println ["added"; repo]) (fst (Add foldOrbit repo (disk env)))).
Proof.
  unfold cmdAdd. destruct (NewRepoStore env) as [e|].
  { left. exists e. split; reflexivity. }
  right.
  pose proof (Add_error_keeps_disk foldOrbit repo (disk env)) as Hk.
  destruct (Add foldOrbit repo (disk env)) as [d [e|]]; cbn [fst snd] in *.
  - left. exists e. rewrite (Hk e eq_refl). repeat split.
  - right. repeat split.
Qed.






(** X25. [cmdAdd] looks at its first argument only, and reports it as it
    was typed: when it exits 0 it has printed [added] and the argument,
    while the file now holds the list it held, with the trimmed and
    normalized reference at the end. *)
Theorem cmdAdd_reports_argument (repo : string) (rest : list string) (env : Env) :
  code (cmdAdd foldOrbit (repo :: rest) env) = 0 ->
  cmdAdd foldOrbit (repo :: rest) env = cmdAdd foldOrbit [repo] env
  /\ stdout (cmdAdd foldOrbit (repo :: rest) env) = "added " ++ repo ++ newline
  /\ exists repos,
       Load (disk env) = Ok repos
       /\ Load (diskAfter (cmdAdd foldOrbit (repo :: rest) env))
          = Ok (map toValidUTF8 (repos ++ [normalize (strings.TrimSpace repo)])).
Proof.
  intros Hc. split; [reflexivity|].
  destruct (cmdAdd_cases repo rest env)
    as [(e & _ & E)|[(e & _ & _ & E)|(_ & HA & E)]];
    rewrite E in Hc |- *; cbn [code] in Hc; try discriminate.
  cbn [stdout diskAfter]. split; [reflexivity|].
  destruct (Add_success foldOrbit repo (disk env) HA)
    as (repos & _ & _ & HL & _ & HS).
  exists repos. split; [exact HL|]. rewrite HS. reflexivity.
Qed.

(** X26. Without a store nothing is done: when the home directory is not
    known or the directory of the store cannot be made, [list], and [add]
    and [remove] with a reference, say so and exit 1; no reference is
    checked, nothing is fetched and nothing is written. *)
Theorem store_unavailable_stops_commands
    (prog cmd : string) (args order : list string) (env : Env) (e : error) :
  NewRepoStore env = Some e ->
  cmd = "list" \/ ((cmd = "add" \/ cmd = "remove") /\ args <> []) ->
  main foldOrbit Do decodePR decodePRs (prog :: cmd :: args) order env
  = Returns (mkDone 1 (Println ["error initializing store:"; Error e]) (disk env)).
Proof.
  intros Hs [->|[[->| ->] Ha]]; cbn [main String.eqb Ascii.eqb Bool.eqb].
  - unfold cmdList. rewrite Hs. reflexivity.
  - destruct args as [|repo rest]; [congruence|].
    unfold cmdAdd. rewrite Hs. reflexivity.
  - destruct args as [|repo rest]; [congruence|].
    unfold cmdRemove. rewrite Hs. reflexivity.
Qed.

End CommandFacts.




Lemma cmdAdd_reports_argument_witness :
  let env := mkEnv (Ok "/home/user") None (mkDisk (Array ["x/y"]) None) "" in
  let repo := " https://github.com/owner/name/pull/7 " in
  code (cmdAdd asciiFold [repo; "more"] env) = 0
  /\ cmdAdd asciiFold [repo; "more"] env = cmdAdd asciiFold [repo] env
  /\ stdout (cmdAdd asciiFold [repo; "more"] env) = "added " ++ repo ++ newline
  /\ exists repos,
       Load (disk env) = Ok repos
       /\ Load (diskAfter (cmdAdd asciiFold [repo; "more"] env))
          = Ok (map toValidUTF8 (repos ++ [normalize (strings.TrimSpace repo)])).
Proof.
  intros env repo.
  assert (H : code (cmdAdd asciiFold [repo; "more"] env) = 0)
    by (vm_compute; reflexivity).
  split; [exact H|].
  exact (cmdAdd_reports_argument asciiFold repo ["more"] env H).
Defined.

Lemma store_unavailable_stops_commands_witness :
  let Do := fun _ : Request => Ok (mkResponse 200 "200 OK" "[]") in
  let decodePR := fun _ : string => @Failed PullRequest (ErrLib "EOF") in
  let decodePRs := fun _ : string => @Ok (list PullRequest) [] in
  let env := mkEnv (Failed (ErrLib "$HOME is not defined")) None
                   (mkDisk (Array ["a/b%zz"]) None) "" in
  (NewRepoStore env = Some (ErrLib "$HOME is not defined")
   /\ ("list" = "list" \/ (("list" = "add" \/ "list" = "remove") /\ @nil string <> [])))
  /\ main asciiFold Do decodePR decodePRs ["pr-view"; "list"] ["a/b%zz"] env
     = Returns (mkDone 1 (Println ["error initializing store:"; "$HOME is not defined"])
                       (disk env)).
Proof.
  intros Do decodePR decodePRs env.
  assert (H1 : NewRepoStore env = Some (ErrLib "$HOME is not defined")) by reflexivity.
  assert (H2 : "list" = "list"
               \/ (("list" = "add" \/ "list" = "remove") /\ @nil string <> []))
    by (left; reflexivity).
  split; [split; assumption|].
  exact (store_unavailable_stops_commands asciiFold Do decodePR decodePRs
           "pr-view" "list" [] ["a/b%zz"] env _ H1 H2).
Defined.
